(** * Warzone2100/maps-database: map validation, normalisation, release
      batching and index pagination

    A shallow embedding of the Python scripts under [scripts/]:

    - [scripts/funcs/map_funcs.py]: [validate_map_info],
      [convert_map_info_date_to_yyyy_mm_dd],
      [convert_map_info_json_to_map_database_json];
    - [scripts/funcs/process_map_repo.py]: [map_has_hash_collision],
      [generate_next_release_details], [generate_releases_for_maprepo];
    - [scripts/funcs/update_map_db.py]: the index pages,
      [add_to_mapdatabase_index], [update_mapdatabase_versions_file];
    - [scripts/validate_new_map.py]: [MapValidationDetails],
      [print_multi_map_validation_details], [validate_repo_map_list].

    Conventions.  A Python [str] is a [string] whose characters stand for
    code points below 256 (on those, [\d] is [0-9] and [len] is the number
    of characters).  A document read by [json.load] is a [json] value;
    JSON numbers are integers (the map tool emits no fractions).  A raised
    exception is the [Raise] case of [result]. *)

From Stdlib Require Import ZArith List Ascii String Lia Bool.
From Stdlib Require Import Numbers.DecimalString Numbers.DecimalPos.
From stdpp Require Import base gmap strings list.
Import ListNotations.
Open Scope string_scope.

(** ** Python values and exceptions *)

#[local] Set Warnings "-register-all".

Inductive json : Type :=
| JNull
| JBool (b : bool)
| JInt (n : Z)
| JStr (s : string)
| JList (l : list json)
| JDict (d : list (string * json)).

(** A [dict] (an [OrderedDict] built by [json.load]): its items in order,
    keys unique. *)
Definition pydict := list (string * json).

Inductive exn : Type :=
| KeyError (key : string)
| IndexError
| TypeError
| ValueError (msg : string)
| FileNotFoundError (path : string)
| FailedToProcessMapError (msg : string).

Inductive result (A : Type) : Type :=
| Ok (a : A)
| Raise (e : exn).
Arguments Ok {A} a.
Arguments Raise {A} e.

Definition bind {A B} (m : result A) (k : A -> result B) : result B :=
  match m with
  | Ok a => k a
  | Raise e => Raise e
  end.

Notation "'let*' x ':=' m 'in' k" := (bind m (fun x => k))
  (at level 10, x pattern, m at level 100, k at level 200).

Definition raised {A} (m : result A) : Prop :=
  match m with Ok _ => False | Raise _ => True end.

Definition returns {A} (m : result A) : Prop :=
  match m with Ok _ => True | Raise _ => False end.

(** [try: body except (IndexError, TypeError): handler]. *)
Definition try_except_Index_Type {A} (body : result A) (handler : result A) : result A :=
  match body with
  | Raise IndexError => handler
  | Raise TypeError => handler
  | r => r
  end.

Module Py.

(** [d[k]] on a dict. *)
Fixpoint dict_get (k : string) (d : pydict) : option json :=
  match d with
  | [] => None
  | (k', v) :: d' => if String.eqb k k' then Some v else dict_get k d'
  end.

(** [k in d] on a dict. *)
Definition dict_has (k : string) (d : pydict) : bool :=
  match dict_get k d with Some _ => true | None => false end.

Definition dict_item (d : pydict) (k : string) : result json :=
  match dict_get k d with
  | Some v => Ok v
  | None => Raise (KeyError k)
  end.

(** [v[k]] with a [str] subscript. *)
Definition getitem (v : json) (k : string) : result json :=
  match v with
  | JDict d => dict_item d k
  | _ => Raise TypeError
  end.

Definition str_of_char (c : ascii) : string := String c EmptyString.

(** [v[i]] with a non-negative [int] subscript. *)
Definition getindex (v : json) (i : nat) : result json :=
  match v with
  | JList l => match nth_error l i with Some x => Ok x | None => Raise IndexError end
  | JStr s => match String.get i s with Some c => Ok (JStr (str_of_char c)) | None => Raise IndexError end
  | JDict _ => Raise (KeyError "<int>")
  | _ => Raise TypeError
  end.

Definition is_str (k : string) (v : json) : bool :=
  match v with JStr s => String.eqb s k | _ => false end.

(** [sub in s] on two [str]. *)
Fixpoint is_substring (sub s : string) : bool :=
  if String.prefix sub s then true
  else match s with
       | EmptyString => false
       | String _ s' => is_substring sub s'
       end.

(** [k in v] for a [str] k. *)
Definition contains (k : string) (v : json) : result bool :=
  match v with
  | JDict d => Ok (dict_has k d)
  | JList l => Ok (existsb (is_str k) l)
  | JStr s => Ok (is_substring k s)
  | _ => Raise TypeError
  end.

(** [v in [s1, s2, ...]] for a list of [str] literals. *)
Definition in_str_list (v : json) (l : list string) : bool :=
  existsb (fun s => is_str s v) l.

(** [v in range(lo, hi)]: the equality search of [range.__contains__]. *)
Definition in_range (v : json) (lo hi : Z) : bool :=
  match v with
  | JInt n => (lo <=? n)%Z && (n <? hi)%Z
  | JBool b => let n := (if b then 1 else 0)%Z in (lo <=? n)%Z && (n <? hi)%Z
  | _ => false
  end.

(** [len(v)]. *)
Definition len (v : json) : result Z :=
  match v with
  | JStr s => Ok (Z.of_nat (String.length s))
  | JList l => Ok (Z.of_nat (length l))
  | JDict d => Ok (Z.of_nat (length d))
  | _ => Raise TypeError
  end.

(** Truth value of [v] in [if v:]. *)
Definition truthy (v : json) : bool :=
  match v with
  | JNull => false
  | JBool b => b
  | JInt n => negb (n =? 0)%Z
  | JStr s => negb (String.eqb s "")
  | JList l => match l with [] => false | _ => true end
  | JDict d => match d with [] => false | _ => true end
  end.

(** The number a value stands for in an order comparison with an [int];
    other types raise. *)
Definition as_int (v : json) : result Z :=
  match v with
  | JInt n => Ok n
  | JBool b => Ok (if b then 1 else 0)%Z
  | _ => Raise TypeError
  end.

(** [v is True]. *)
Definition is_True (v : json) : bool :=
  match v with JBool true => true | _ => false end.

(** [v == n] for an [int] n. *)
Definition eq_int (v : json) (n : Z) : bool :=
  match v with
  | JInt m => (m =? n)%Z
  | JBool b => ((if b then 1 else 0) =? n)%Z
  | _ => false
  end.

(** The [str] a regular expression is matched against. *)
Definition as_str (v : json) : result string :=
  match v with
  | JStr s => Ok s
  | _ => Raise TypeError
  end.

(** [int(s)] on a string of decimal digits. *)
Definition digit_val (c : ascii) : Z := Z.of_nat (nat_of_ascii c) - 48.

Fixpoint int_of_digits_acc (acc : Z) (s : string) : Z :=
  match s with
  | EmptyString => acc
  | String c s' => int_of_digits_acc (10 * acc + digit_val c) s'
  end.

Definition int_of_digits (s : string) : Z := int_of_digits_acc 0 s.

(** [str(n)]. *)
Definition str_of_int (n : Z) : string := NilZero.string_of_int (Z.to_int n).

End Py.

(** ** Regular expressions ([re.compile], [Pattern.match])

    The fragment of Python's [re] the scripts use, with its backtracking
    semantics: alternatives are tried left to right, [?], [+] and [*] are
    greedy and give characters back when the rest of the pattern fails.
    Repetition is applied to character classes only, as in the sources. *)

Module Re.

Inductive regex : Type :=
| Eps
| Chr (c : ascii)
| Cls (p : ascii -> bool)
| Seq (r1 r2 : regex)
| Alt (r1 r2 : regex)
| Opt (r : regex)
| Rep (n : nat) (p : ascii -> bool)
| Plus (p : ascii -> bool)
| Star (p : ascii -> bool)
| Group (name : option string) (r : regex)
| Bol
| Eol.

(** Character classes. *)
Definition between (lo hi : ascii) (c : ascii) : bool :=
  (nat_of_ascii lo <=? nat_of_ascii c)%nat && (nat_of_ascii c <=? nat_of_ascii hi)%nat.

(** [\d] *)
Definition digit : ascii -> bool := between "0" "9".

(** [.]: any character but a newline. *)
Definition dot (c : ascii) : bool := negb (Ascii.eqb c "010").

(** [[A-Za-z0-9\-_]] *)
Definition name_char (c : ascii) : bool :=
  between "A" "Z" c || between "a" "z" c || between "0" "9" c
  || Ascii.eqb c "-" || Ascii.eqb c "_".

(** The named groups of a match, most recent first. *)
Definition groups := list (string * string).

Definition set_group (name : option string) (text : string) (g : groups) : groups :=
  match name with
  | Some n => (n, text) :: g
  | None => g
  end.

Fixpoint group (name : string) (g : groups) : string :=
  match g with
  | [] => ""
  | (n, t) :: g' => if String.eqb n name then t else group name g'
  end.

Section Matcher.
Context {R : Type}.
(** The whole subject string; [pos] counts the characters consumed. *)
Variable subject : string.

Fixpoint rep_cls (p : ascii -> bool) (n : nat) (pos : nat) (s : string)
    (k : nat -> string -> option R) : option R :=
  match n with
  | O => k pos s
  | S n' =>
      match s with
      | String c s' => if p c then rep_cls p n' (S pos) s' k else None
      | EmptyString => None
      end
  end.

Fixpoint star_cls (p : ascii -> bool) (pos : nat) (s : string)
    (k : nat -> string -> option R) : option R :=
  match s with
  | String c s' =>
      if p c then
        match star_cls p (S pos) s' k with
        | Some r => Some r
        | None => k pos s
        end
      else k pos s
  | EmptyString => k pos s
  end.

Definition plus_cls (p : ascii -> bool) (pos : nat) (s : string)
    (k : nat -> string -> option R) : option R :=
  match s with
  | String c s' => if p c then star_cls p (S pos) s' k else None
  | EmptyString => None
  end.

Fixpoint rmatch (r : regex) (pos : nat) (s : string) (g : groups)
    (k : nat -> string -> groups -> option R) : option R :=
  match r with
  | Eps => k pos s g
  | Chr c =>
      match s with
      | String c' s' => if Ascii.eqb c c' then k (S pos) s' g else None
      | EmptyString => None
      end
  | Cls p =>
      match s with
      | String c' s' => if p c' then k (S pos) s' g else None
      | EmptyString => None
      end
  | Seq r1 r2 => rmatch r1 pos s g (fun pos' s' g' => rmatch r2 pos' s' g' k)
  | Alt r1 r2 =>
      match rmatch r1 pos s g k with
      | Some x => Some x
      | None => rmatch r2 pos s g k
      end
  | Opt r1 =>
      match rmatch r1 pos s g k with
      | Some x => Some x
      | None => k pos s g
      end
  | Rep n p => rep_cls p n pos s (fun pos' s' => k pos' s' g)
  | Plus p => plus_cls p pos s (fun pos' s' => k pos' s' g)
  | Star p => star_cls p pos s (fun pos' s' => k pos' s' g)
  | Group name r1 =>
      rmatch r1 pos s g
        (fun pos' s' g' => k pos' s' (set_group name (substring pos (pos' - pos) subject) g'))
  | Bol => if (pos =? 0)%nat then k pos s g else None
  | Eol =>
      match s with
      | EmptyString => k pos s g
      | String c EmptyString => if Ascii.eqb c "010" then k pos s g else None
      | _ => None
      end
  end.

End Matcher.

(** [pattern.match(s)]: a match anchored at the start of [s]; [None] when
    there is none, the named groups otherwise. *)
Definition re_match (r : regex) (s : string) : option groups :=
  rmatch s r 0 s [] (fun _ _ g => Some g).

(** [pattern.match(v)] on any value: a non-[str] raises [TypeError]. *)
Definition py_match (r : regex) (v : json) : result (option groups) :=
  let* s := Py.as_str v in Ok (re_match r s).

Fixpoint seq_of (rs : list regex) : regex :=
  match rs with
  | [] => Eps
  | [r] => r
  | r :: rs' => Seq r (seq_of rs')
  end.

End Re.

Import Re.

(** ** [map_funcs.py] *)

(** [DATE_FORMAT_RE =
     ^(?P<year>\d{3}\d+)-(?P<month>(0[1-9])|(1[0-2]))-(?P<day>0[1-9]|[1-2][0-9]|3[0-1])( (0[1-9]|1[0-9]|2[0-3]):(0[1-9]|[1-5][0-9]):(0[1-9]|[1-5][0-9]))?] *)
Definition re_minsec : regex :=
  Group None (Alt (Seq (Chr "0") (Cls (between "1" "9")))
                  (Seq (Cls (between "1" "5")) (Cls (between "0" "9")))).

Definition re_hour : regex :=
  Group None (Alt (Seq (Chr "0") (Cls (between "1" "9")))
             (Alt (Seq (Chr "1") (Cls (between "0" "9")))
                  (Seq (Chr "2") (Cls (between "0" "3"))))).

Definition re_time : regex :=
  Group None (seq_of [Chr " "; re_hour; Chr ":"; re_minsec; Chr ":"; re_minsec]).

Definition re_year : regex :=
  Group (Some "year") (Seq (Rep 3 digit) (Plus digit)).

Definition re_month : regex :=
  Group (Some "month")
    (Alt (Group None (Seq (Chr "0") (Cls (between "1" "9"))))
         (Group None (Seq (Chr "1") (Cls (between "0" "2"))))).

Definition re_day : regex :=
  Group (Some "day")
    (Alt (Seq (Chr "0") (Cls (between "1" "9")))
    (Alt (Seq (Cls (between "1" "2")) (Cls (between "0" "9")))
         (Seq (Chr "3") (Cls (between "0" "1"))))).

Definition DATE_FORMAT_RE : regex :=
  seq_of [Bol; re_year; Chr "-"; re_month; Chr "-"; re_day; Opt re_time].

(** [NAME_FORMAT_RE = ^[A-Za-z0-9\-_]+$] *)
Definition NAME_FORMAT_RE : regex := seq_of [Bol; Plus name_char; Eol].

(** [convert_map_info_date_to_yyyy_mm_dd] *)
Definition convert_map_info_date_to_yyyy_mm_dd (map_info_date : string) : result string :=
  match re_match DATE_FORMAT_RE map_info_date with
  | None => Raise (ValueError ("Invalid map info date format: " +:+ map_info_date))
  | Some created_check_result =>
      Ok (group "year" created_check_result +:+ "-" +:+
          group "month" created_check_result +:+ "-" +:+
          group "day" created_check_result)
  end.

(** *** [datetime]

    A [datetime] is its proleptic Gregorian ordinal (day 1 is 0001-01-01)
    and the microsecond of the day. *)

Record datetime_t := { toordinal : Z; microsecond_of_day : Z }.

Definition is_leap (y : Z) : bool :=
  (y mod 4 =? 0)%Z && (negb (y mod 100 =? 0)%Z || (y mod 400 =? 0)%Z).

Definition days_in_month (y m : Z) : Z :=
  if (m =? 2)%Z then (if is_leap y then 29 else 28)%Z
  else if (m =? 4)%Z || (m =? 6)%Z || (m =? 9)%Z || (m =? 11)%Z then 30%Z
  else 31%Z.

Definition days_before_year (y : Z) : Z :=
  let y1 := (y - 1)%Z in (y1 * 365 + y1 / 4 - y1 / 100 + y1 / 400)%Z.

Definition days_before_month (y m : Z) : Z :=
  fold_right Z.add 0%Z (map (fun k => days_in_month y (Z.of_nat k)) (seq 1 (Z.to_nat m - 1))).

Definition MINYEAR : Z := 1.
Definition MAXYEAR : Z := 9999.

(** [datetime(year, month, day)]: midnight of that day; [ValueError] when
    a field is out of range. *)
Definition datetime (year month day : Z) : result datetime_t :=
  if (MINYEAR <=? year)%Z && (year <=? MAXYEAR)%Z
     && (1 <=? month)%Z && (month <=? 12)%Z
     && (1 <=? day)%Z && (day <=? days_in_month year month)%Z
  then Ok {| toordinal := days_before_year year + days_before_month year month + day;
             microsecond_of_day := 0 |}
  else Raise (ValueError "datetime field out of range").

Definition microseconds_per_day : Z := 86400000000.

(** [(a - b).days]: a [timedelta] is normalised with a floor division. *)
Definition timedelta_days (a b : datetime_t) : Z :=
  ((toordinal a * microseconds_per_day + microsecond_of_day a
    - (toordinal b * microseconds_per_day + microsecond_of_day b))
   / microseconds_per_day)%Z.

(** *** Findings *)

(** A finding is a message template of the source with the arguments of
    its [.format] call. *)
Record finding := Msg { template : string; args : list json }.

Record MapInfoValidationResult := {
  warnings : list finding;
  errors : list finding;
  passedFormatChecks : bool;
  errors_non_fatal : list finding }.

Definition OLD_MAX_LEVEL_NAME_SIZE : Z := 20.
Definition MAX_SUGGESTED_MAP_NAME_LENGTH : Z := 30.
Definition MAX_ALLOWED_MAP_NAME_LENGTH : Z := 60.
Definition MAX_ALLOWED_AUTHOR_NAME_LENGTH : Z := 60.

Record ValidateMapWarningOptions := {
  short_name_warning : bool;
  missing_created_date_warning : bool;
  zero_oil_warning : bool;
  player_structure_zero_warnings : bool;
  mods_texture_overrides_warning : bool;
  mods_auto_strip_warning : bool;
  mods_no_modtypes_warning : bool;
  format_warnings : bool }.

(** [ValidateMapWarningOptions()] *)
Definition default_warning_options : ValidateMapWarningOptions :=
  {| short_name_warning := true; missing_created_date_warning := true;
     zero_oil_warning := true; player_structure_zero_warnings := true;
     mods_texture_overrides_warning := true; mods_auto_strip_warning := true;
     mods_no_modtypes_warning := true; format_warnings := true |}.

(** The three lists [validate_map_info] appends to, and its flag. *)
Record vstate := {
  v_warnings : list finding;
  v_errors : list finding;
  v_errors_non_fatal : list finding;
  v_passed : bool }.

Definition vstate0 : vstate :=
  {| v_warnings := []; v_errors := []; v_errors_non_fatal := []; v_passed := true |}.

Definition warn (f : finding) (st : vstate) : vstate :=
  {| v_warnings := v_warnings st ++ [f]; v_errors := v_errors st;
     v_errors_non_fatal := v_errors_non_fatal st; v_passed := v_passed st |}.

Definition error (f : finding) (st : vstate) : vstate :=
  {| v_warnings := v_warnings st; v_errors := v_errors st ++ [f];
     v_errors_non_fatal := v_errors_non_fatal st; v_passed := v_passed st |}.

Definition error_non_fatal (f : finding) (st : vstate) : vstate :=
  {| v_warnings := v_warnings st; v_errors := v_errors st;
     v_errors_non_fatal := v_errors_non_fatal st ++ [f]; v_passed := v_passed st |}.

Definition fail_format (st : vstate) : vstate :=
  {| v_warnings := v_warnings st; v_errors := v_errors st;
     v_errors_non_fatal := v_errors_non_fatal st; v_passed := false |}.

Definition warn_if (opt : bool) (f : finding) (st : vstate) : vstate :=
  if opt then warn f st else st.

(** [errors.append(a, b)]: [list.append] takes exactly one argument. *)
Definition append_two_arguments (a b : json) (st : vstate) : result vstate :=
  Raise TypeError.

Definition dq : string := String "034" EmptyString.

(** The verdict of the [license_expression] library on a ['license'] value:
    [licensing.parse(..., validate=True, strict=True)] raised
    [ExpressionError], or the parsed expression is, or is not,
    [is_equivalent] to one of [expected_license_expressions]. *)
Inductive license_verdict : Type :=
| LicenseExpressionError (e : string)
| LicenseNotExpected
| LicenseExpected.

Definition expected_license_expressions : list string :=
  [ "CC0-1.0"; "GPL-2.0-or-later"; "CC-BY-3.0 OR GPL-2.0-or-later";
    "CC-BY-SA-3.0 OR GPL-2.0-or-later"; "CC-BY-4.0 OR GPL-2.0-or-later";
    "CC-BY-SA-4.0 OR GPL-2.0-or-later" ].

(** *** [validate_map_info] *)

Definition hq_warning (i : nat) : finding :=
  Msg "player {0} has no HQ - did you forget to add an HQ / command center?"
      [JInt (Z.of_nat i)].

(** [','.join(v)] *)
Fixpoint join_strs (sep : string) (l : list string) : string :=
  match l with
  | [] => ""
  | [s] => s
  | s :: l' => s +:+ sep +:+ join_strs sep l'
  end.

Fixpoint all_strs (l : list json) : result (list string) :=
  match l with
  | [] => Ok []
  | JStr s :: l' => let* r := all_strs l' in Ok (s :: r)
  | _ :: _ => Raise TypeError
  end.

Fixpoint chars_of (s : string) : list string :=
  match s with
  | EmptyString => []
  | String c s' => Py.str_of_char c :: chars_of s'
  end.

Definition py_join (sep : string) (v : json) : result string :=
  match v with
  | JList l => let* ss := all_strs l in Ok (join_strs sep ss)
  | JStr s => Ok (join_strs sep (chars_of s))
  | JDict d => Ok (join_strs sep (map fst d))
  | _ => Raise TypeError
  end.

Section Validator.

(** The [license_expression] library, and the clock read by [datetime.now()]. *)
Variable license_check : json -> license_verdict.
Variable now : datetime_t.

Variable map_info_json : pydict.
Variable enforce_format_checks : bool.
Variable warning_options : ValidateMapWarningOptions.

Definition item (k : string) : result json := Py.dict_item map_info_json k.

(** Lines 55-71: the name. *)
Definition check_name (st : vstate) : result vstate :=
  let* name := item "name" in
  if Py.truthy name then
    let* name_length := Py.len name in
    let st :=
      if (name_length <? 6)%Z then
        warn_if (short_name_warning warning_options)
          (Msg "'name' is less than 6 chars - consider using a longer name: ('{0}')" [name]) st
      else st in
    let st :=
      if (name_length >? MAX_ALLOWED_MAP_NAME_LENGTH)%Z then
        error (Msg "'name' is > {1} chars - use a shorter name: ('{0}')"
                   [name; JInt MAX_ALLOWED_MAP_NAME_LENGTH]) st
      else if (name_length >? MAX_SUGGESTED_MAP_NAME_LENGTH)%Z then
        warn (Msg "'name' is > {1} chars - consider using a shorter name (longer names may be truncated): ('{0}')"
                  [name; JInt MAX_SUGGESTED_MAP_NAME_LENGTH]) st
      else st in
    let* m := py_match NAME_FORMAT_RE name in
    match m with
    | None =>
        Ok (error (Msg "'name' has unsupported characters - for compatibility, please stick to: A-Z, a-z, 0-9, '-', '_': ('{0}')"
                       [name]) st)
    | Some _ => Ok st
    end
  else Ok st.

(** Lines 73-76: the type. *)
Definition allowed_types : list string := ["skirmish"].

Definition check_type (st : vstate) : result vstate :=
  let* ty := item "type" in
  if negb (Py.in_str_list ty allowed_types) then
    Ok (error (Msg "'type' ('{0}') is not one of the allowed values: {1}"
                   [ty; JList (map JStr allowed_types)]) st)
  else Ok st.

(** Lines 78-80: the players. *)
Definition check_players (st : vstate) : result vstate :=
  let* players := item "players" in
  if negb (Py.in_range players 2 11) then
    Ok (error (Msg "'players' ('{0}') is not an allowed value" [players]) st)
  else Ok st.

(** Lines 82-85: the tileset. *)
Definition allowed_tilesets : list string := ["arizona"; "urban"; "rockies"].

Definition check_tileset (st : vstate) : result vstate :=
  let* tileset := item "tileset" in
  if negb (Py.in_str_list tileset allowed_tilesets) then
    Ok (error (Msg "'tileset' ('{0}') is not one of the allowed values: {1}"
                   [tileset; JList (map JStr allowed_tilesets)]) st)
  else Ok st.

(** Lines 87-100: the license; the second component is [has_valid_license]. *)
Definition check_license (st : vstate) : result (vstate * bool) :=
  if negb (Py.dict_has "license" map_info_json) then
    Ok (error (Msg "Missing required 'license' key" []) st, false)
  else
    let* license := item "license" in
    match license_check license with
    | LicenseExpected => Ok (st, true)
    | LicenseNotExpected =>
        Ok (error (Msg ("'license' value (" +:+ dq +:+ "{0}" +:+ dq +:+
                        ") is not in the list of expected licenses: [{1}]")
                       [license; JList (map JStr expected_license_expressions)]) st, false)
    | LicenseExpressionError e =>
        Ok (error (Msg ("'license' value (" +:+ dq +:+ "{0}" +:+ dq +:+
                        ") failed SPDX license expression parsing: {1}")
                       [license; JStr e]) st, false)
    end.

(** Lines 102-120: the author. *)
Definition check_author (has_valid_license : bool) (st : vstate) : result vstate :=
  if negb (Py.dict_has "author" map_info_json) then
    if Py.dict_has "additionalAuthors" map_info_json then
      Ok (error (Msg "Missing required 'author' key, but has 'additionalAuthors'" []) st)
    else if has_valid_license then
      Ok (error_non_fatal (Msg "Missing 'author' key" []) st)
    else
      Ok (error (Msg "Missing required 'author' key" []) st)
  else
    let* author := item "author" in
    let* has_name := Py.contains "name" author in
    if negb has_name then
      Ok (error (Msg "Missing required 'name' key under 'author' key" []) st)
    else
      let* author_name := Py.getitem author "name" in
      let* author_name_length := Py.len author_name in
      if (author_name_length =? 0)%Z then
        Ok (warn (Msg "Empty 'name' value under 'author' key" []) st)
      else if (author_name_length >? MAX_ALLOWED_AUTHOR_NAME_LENGTH)%Z then
        Ok (error (Msg "'author.name' is > {0} chars - use a shorter author name"
                       [JInt MAX_ALLOWED_AUTHOR_NAME_LENGTH]) st)
      else Ok st.

(** Lines 122-137: the created date. *)
Definition check_created (st : vstate) : result vstate :=
  if Py.dict_has "created" map_info_json then
    let* created := item "created" in
    let* created_check_result := py_match DATE_FORMAT_RE created in
    match created_check_result with
    | Some g =>
        let* created_datetime :=
          datetime (Py.int_of_digits (group "year" g))
                   (Py.int_of_digits (group "month" g))
                   (Py.int_of_digits (group "day" g)) in
        let delta_now_days := timedelta_days now created_datetime in
        let* st :=
          if (delta_now_days <? -1)%Z then
            append_two_arguments (JStr "'created' ('{0}') is in the future??") created st
          else Ok st in
        if (Py.int_of_digits (group "year" g) <? 1999)%Z then
          append_two_arguments
            (JStr "'created' ('{0}') can't be before the creation of the game") created st
        else Ok st
    | None => Ok (error (Msg "Invalid 'created' date format: {0}" [created]) st)
    end
  else
    Ok (warn_if (missing_created_date_warning warning_options)
                (Msg "Missing 'created' date" []) st).

(** Lines 139-146: the map size. *)
Definition check_mapsize (st : vstate) : result vstate :=
  let* mapsize := item "mapsize" in
  let* map_width := Py.getitem mapsize "w" in
  let* mapsize' := item "mapsize" in
  let* map_height := Py.getitem mapsize' "h" in
  let* w := Py.as_int map_width in
  let st :=
    if negb ((1 <=? w)%Z && (w <=? 256)%Z) then
      error (Msg "Invalid 'mapsize.w' ('{0}')" [map_width]) st
    else st in
  let* h := Py.as_int map_height in
  let st :=
    if negb ((1 <=? h)%Z && (h <=? 256)%Z) then
      error (Msg "Invalid 'mapsize.h' ('{0}')" [map_height]) st
    else st in
  Ok st.

(** [v[k]['min']] compared with an [int]. *)
Definition min_of (v : json) (k : string) : result Z :=
  let* counts := Py.getitem v k in
  let* m := Py.getitem counts "min" in
  Py.as_int m.

(** Lines 148-151: oil wells and resource extractors. *)
Definition check_oil (st : vstate) : result vstate :=
  let* oilWells := item "oilWells" in
  let* n := Py.as_int oilWells in
  let* has_oil :=
    if (n >? 0)%Z then Ok true
    else
      let* player := item "player" in
      let* m := min_of player "resourceExtractors" in
      Ok (m >? 0)%Z in
  if negb has_oil then
    Ok (warn_if (zero_oil_warning warning_options)
          (Msg "'oilWells' is 0 *AND* at least one player has no starting resourceExtractors - did you forget to add oil resources / derricks?" []) st)
  else Ok st.

(** Line 159: [not 'x' in player_hqs[i] or not 'y' in player_hqs[i]]. *)
Definition hq_slot_lacks (player_hqs : json) (i : nat) : result bool :=
  let* slot := Py.getindex player_hqs i in
  let* has_x := Py.contains "x" slot in
  if negb has_x then Ok true
  else
    let* slot' := Py.getindex player_hqs i in
    let* has_y := Py.contains "y" slot' in
    Ok (negb has_y).

(** Lines 158-162: one turn of the loop. *)
Definition check_hq_slot (player_hqs : json) (i : nat) (st : vstate) : result vstate :=
  try_except_Index_Type
    (let* lacks := hq_slot_lacks player_hqs i in
     Ok (if lacks then warn (hq_warning i) st else st))
    (Ok (warn (hq_warning i) st)).

Fixpoint check_hq_slots (player_hqs : json) (indices : list nat) (st : vstate) : result vstate :=
  match indices with
  | [] => Ok st
  | i :: rest =>
      let* st := check_hq_slot player_hqs i st in
      check_hq_slots player_hqs rest st
  end.

(** [range(lo, hi)] from an [int] lo that is not negative. *)
Definition py_range (lo hi : Z) : list nat :=
  seq (Z.to_nat lo) (Z.to_nat (hi - lo)).

(** Lines 153-162: an HQ for each player. *)
Definition check_hq (st : vstate) : result vstate :=
  let* max_players_v := item "players" in
  let* max_players := Py.as_int max_players_v in
  if (max_players >=? 2)%Z then
    let* player_hqs := item "hq" in
    check_hq_slots player_hqs (py_range 2 max_players) st
  else Ok st.

(** Lines 164-175: the player structure counts. *)
Definition check_player_structures (st : vstate) : result vstate :=
  let* player_counts := item "player" in
  let opt := player_structure_zero_warnings warning_options in
  let* pg := min_of player_counts "powerGenerators" in
  let st :=
    if (pg <=? 0)%Z then
      warn_if opt (Msg "At least one player has no starting 'powerGenerators' on map?" []) st
    else st in
  let* no_factories :=
    let* reg := min_of player_counts "regFactories" in
    if (reg <=? 0)%Z then
      let* vtol := min_of player_counts "vtolFactories" in
      if (vtol <=? 0)%Z then
        let* cyborg := min_of player_counts "cyborgFactories" in
        Ok (cyborg <=? 0)%Z
      else Ok false
    else Ok false in
  let st :=
    if no_factories then
      warn_if opt (Msg "At least one player has no starting '*Factories' on map?" []) st
    else st in
  let* rc := min_of player_counts "researchCenters" in
  let st :=
    if (rc <=? 0)%Z then
      warn_if opt (Msg "At least one player has no starting 'researchCenters' on map?" []) st
    else st in
  Ok st.

(** [all(item in v for item in items)] *)
Fixpoint all_in (items : list string) (v : json) : result bool :=
  match items with
  | [] => Ok true
  | i :: rest =>
      let* b := Py.contains i v in
      if b then all_in rest v else Ok false
  end.

(** Lines 177-200: map mods. *)
Definition check_mods (st : vstate) : result vstate :=
  let* mapMod := item "mapMod" in
  if Py.is_True mapMod then
    if Py.dict_has "modTypes" map_info_json then
      let* modTypes := item "modTypes" in
      let* both := all_in ["gamemodels"; "datasets"] modTypes in
      let st :=
        if both then
          error (Msg "Conversion Error: Unable to auto-strip mods, as map-mod contains both 'gamemodels' and 'datasets' modifications" []) st
        else st in
      let can_strip_mods := negb both in
      let* textures := all_in ["textures"] modTypes in
      let st :=
        if textures then
          warn_if (mods_texture_overrides_warning warning_options)
            (Msg "Conversion Warning: Map-mod contains texture overrides" []) st
        else st in
      if can_strip_mods && mods_auto_strip_warning warning_options then
        let* joined := py_join "," modTypes in
        Ok (warn (Msg "Conversion Warning: Will auto-strip the following mods (please review): {0}"
                      [JStr joined]) st)
      else Ok st
    else
      Ok (warn_if (mods_no_modtypes_warning warning_options)
            (Msg "Conversion Warning: mapMod is True, but no modTypes array? (Please review!)" []) st)
  else Ok st.

(** The routing of a failed format check (lines 207-212, 218-223, 227-232). *)
Definition failed_format_check (f : finding) (st : vstate) : vstate :=
  let st := fail_format st in
  if enforce_format_checks then error f st
  else warn_if (format_warnings warning_options) f st.

Definition allowed_levelformats : list string := ["json"].
Definition allowed_mapformats : list string := ["script"; "jsonv2"].

(** Lines 202-232: the format checks. *)
Definition check_formats (st : vstate) : result vstate :=
  let* levelFormat := item "levelFormat" in
  let st :=
    if negb (Py.in_str_list levelFormat allowed_levelformats) then
      failed_format_check
        (Msg "Map level file format must be modern ({0})"
             [JStr (join_strs ", " allowed_levelformats)]) st
    else st in
  let* mapFormat := item "mapFormat" in
  let st :=
    if negb (Py.in_str_list mapFormat allowed_mapformats) then
      failed_format_check
        (Msg "Map format must be modern ({0})"
             [JStr (join_strs ", " allowed_mapformats)]) st
    else st in
  let* flatMapPackage := item "flatMapPackage" in
  let st :=
    if negb (Py.is_True flatMapPackage) then
      failed_format_check (Msg "Map must be a 'flatMapPackage'" []) st
    else st in
  Ok st.

Definition validate_map_info : result MapInfoValidationResult :=
  let st := vstate0 in
  let* st := check_name st in
  let* st := check_type st in
  let* st := check_players st in
  let* st := check_tileset st in
  let* (st, has_valid_license) := check_license st in
  let* st := check_author has_valid_license st in
  let* st := check_created st in
  let* st := check_mapsize st in
  let* st := check_oil st in
  let* st := check_hq st in
  let* st := check_player_structures st in
  let* st := check_mods st in
  let* st := check_formats st in
  Ok {| warnings := v_warnings st; errors := v_errors st;
        passedFormatChecks := v_passed st;
        errors_non_fatal := v_errors_non_fatal st |}.

End Validator.

(** *** [convert_map_info_json_to_map_database_json] *)

(** [for x in v]: the items a value yields when iterated. *)
Definition py_iter (v : json) : result (list json) :=
  match v with
  | JList l => Ok l
  | JStr s => Ok (map JStr (chars_of s))
  | JDict d => Ok (map (fun kv => JStr (fst kv)) d)
  | _ => Raise TypeError
  end.

(** [set(v)], as far as membership of a [str] goes: the [str] members.
    A list or dict among the items cannot be hashed. *)
Fixpoint hashable_strs (l : list json) : result (list string) :=
  match l with
  | [] => Ok []
  | JStr s :: l' => let* r := hashable_strs l' in Ok (s :: r)
  | JList _ :: _ => Raise TypeError
  | JDict _ :: _ => Raise TypeError
  | _ :: l' => hashable_strs l'
  end.

Definition py_set (v : json) : result (gset string) :=
  let* items := py_iter v in
  let* strs := hashable_strs items in
  Ok (list_to_set strs).

(** [name in seen] for a set [seen]: the name must be hashable. *)
Definition in_set (v : json) (seen : gset string) : result bool :=
  match v with
  | JStr s => Ok (bool_decide (s ∈ seen))
  | JList _ => Raise TypeError
  | JDict _ => Raise TypeError
  | _ => Ok false
  end.

Definition set_add (v : json) (seen : gset string) : gset string :=
  match v with
  | JStr s => {[ s ]} ∪ seen
  | _ => seen
  end.

(** Lines 256-260: one turn of the loop over [additionalAuthors]. *)
Definition add_author (author : json) (acc : list json * gset string)
    : result (list json * gset string) :=
  let '(author_list, seen_authors) := acc in
  let* author_name := Py.getitem author "name" in
  let* n := Py.len author_name in
  if (n >? 0)%Z then
    let* seen := in_set author_name seen_authors in
    if negb seen then
      Ok ((author_list ++ [author_name])%list, set_add author_name seen_authors)
    else Ok acc
  else Ok acc.

Fixpoint add_authors (authors : list json) (acc : list json * gset string)
    : result (list json * gset string) :=
  match authors with
  | [] => Ok acc
  | a :: rest => let* acc := add_author a acc in add_authors rest acc
  end.

(** Lines 249-261: the ['author'] entry of the record, if any. *)
Definition convert_authors (map_info_json : pydict) : result (option json) :=
  if negb (Py.dict_has "additionalAuthors" map_info_json) then
    if Py.dict_has "author" map_info_json then
      let* author := Py.dict_item map_info_json "author" in
      let* name := Py.getitem author "name" in
      Ok (Some name)
    else Ok None
  else
    let* author := Py.dict_item map_info_json "author" in
    let* name := Py.getitem author "name" in
    let author_list := [name] in
    let* author' := Py.dict_item map_info_json "author" in
    let* name' := Py.getitem author' "name" in
    let* seen_authors := py_set name' in
    let* additional := Py.dict_item map_info_json "additionalAuthors" in
    let* authors := py_iter additional in
    let* (author_list, _) := add_authors authors (author_list, seen_authors) in
    Ok (Some (JList author_list)).

(** [a + b] *)
Definition py_add (a b : json) : result json :=
  match a, b with
  | JStr s, JStr t => Ok (JStr (s +:+ t))
  | JList l, JList m => Ok (JList (l ++ m)%list)
  | (JInt _ | JBool _), (JInt _ | JBool _) =>
      let* x := Py.as_int a in let* y := Py.as_int b in Ok (JInt (x + y))
  | _, _ => Raise TypeError
  end.

(** [{'eq': eq[k], 'min': counts[k]['min'], 'max': counts[k]['max']}] *)
Definition balance_entry (start_equality_info per_player_counts : json) (k : string)
    : result json :=
  let* eq := Py.getitem start_equality_info k in
  let* c := Py.getitem per_player_counts k in
  let* mn := Py.getitem c "min" in
  let* c' := Py.getitem per_player_counts k in
  let* mx := Py.getitem c' "max" in
  Ok (JDict [("eq", eq); ("min", mn); ("max", mx)]).

(** The abbreviated keys of the record's ['player'] entry, with the keys
    of the map info they are read from. *)
Definition balance_keys : list (string * string) :=
  [ ("units", "units"); ("structs", "structures");
    ("resourceExtr", "resourceExtractors"); ("pwrGen", "powerGenerators");
    ("regFact", "regFactories"); ("vtolFact", "vtolFactories");
    ("cyborgFact", "cyborgFactories"); ("researchCent", "researchCenters");
    ("defStruct", "defenseStructures") ].

Fixpoint balance_entries (eq counts : json) (keys : list (string * string))
    : result pydict :=
  match keys with
  | [] => Ok []
  | (short, long) :: rest =>
      let* e := balance_entry eq counts long in
      let* es := balance_entries eq counts rest in
      Ok ((short, e) :: es)
  end.

(** [[v['x'], v['y']] if ('x' in v and 'y' in v) else []] *)
Definition hq_pair (v : json) : result json :=
  let* has_x := Py.contains "x" v in
  let* has_both := if has_x then Py.contains "y" v else Ok false in
  if has_both then
    let* x := Py.getitem v "x" in
    let* y := Py.getitem v "y" in
    Ok (JList [x; y])
  else Ok (JList []).

Fixpoint hq_pairs (l : list json) : result (list json) :=
  match l with
  | [] => Ok []
  | v :: rest =>
      let* p := hq_pair v in
      let* ps := hq_pairs rest in
      Ok (p :: ps)
  end.

Definition opt_entry (k : string) (v : option json) : pydict :=
  match v with Some x => [(k, x)] | None => [] end.

Definition convert_map_info_json_to_map_database_json (map_info_json : pydict)
    : result pydict :=
  let item := Py.dict_item map_info_json in
  let* name := item "name" in
  let* slots := item "players" in
  let* tileset := item "tileset" in
  let* author := convert_authors map_info_json in
  let* license := item "license" in
  let* created :=
    if Py.dict_has "created" map_info_json then
      let* c := item "created" in
      let* s := Py.as_str c in
      let* d := convert_map_info_date_to_yyyy_mm_dd s in
      Ok (Some (JStr d))
    else Ok None in
  let* mapsize := item "mapsize" in
  let* w := Py.getitem mapsize "w" in
  let* mapsize' := item "mapsize" in
  let* h := Py.getitem mapsize' "h" in
  let* scavenger := item "scavenger" in
  let* scav_units := Py.getitem scavenger "units" in
  let* scavenger' := item "scavenger" in
  let* scav_structs := Py.getitem scavenger' "structures" in
  let* scavs := py_add scav_units scav_structs in
  let* oilWells := item "oilWells" in
  let* balance := item "balance" in
  let* start_equality_info := Py.getitem balance "startEquality" in
  let* per_player_counts := item "player" in
  let* player_balance := balance_entries start_equality_info per_player_counts balance_keys in
  let* hq := item "hq" in
  let* hq_items := py_iter hq in
  let* hqs := hq_pairs hq_items in
  let* mapMod := item "mapMod" in
  let* mapFormat := item "mapFormat" in
  Ok ([("name", name); ("slots", slots); ("tileset", tileset)]%list
      ++ opt_entry "author" author
      ++ [("license", license)]
      ++ opt_entry "created" created
      ++ [("size", JDict [("w", w); ("h", h)]);
          ("scavs", scavs);
          ("oilWells", oilWells);
          ("player", JDict player_balance);
          ("hq", JList hqs)]
      ++ (if Py.truthy mapMod then [("mod", mapMod)] else [])
      ++ [("download", JDict [("type", mapFormat)])])%list.

(** ** [process_map_repo.py] *)

(** [RELEASE_VERSION_RE = ^v?(?P<major>\d+).*] *)
Definition RELEASE_VERSION_RE : regex :=
  seq_of [Bol; Opt (Chr "v"); Group (Some "major") (Plus digit); Star dot].

(** [^maps/.+] *)
Definition MAPS_FOLDER_RE : regex :=
  seq_of [Bol; Chr "m"; Chr "a"; Chr "p"; Chr "s"; Chr "/"; Plus dot].

(** One entry of [releasesGeneratedThisRun]. *)
Record release_entry := { commits : list string; assets : Z }.

(** The bytes of a packaged map archive. *)
Definition archive := list Byte.byte.

(** The local variables of [generate_releases_for_maprepo] and the files
    it writes under [output_folder]: the archives by path, and each
    release's [release.json] ([target_commitish], [included_commits]).
    [salts_drawn] counts the salts taken from the random source. *)
Record builder := {
  releasesGeneratedThisRun : gmap string release_entry;
  MAP_REPO_NEW_RELEASE_TAGNAME : string;
  releaseList : list string;
  archives : gmap string archive;
  release_json : gmap string (string * list string);
  salts_drawn : nat }.

Definition set_releases (m : gmap string release_entry) (b : builder) : builder :=
  {| releasesGeneratedThisRun := m;
     MAP_REPO_NEW_RELEASE_TAGNAME := MAP_REPO_NEW_RELEASE_TAGNAME b;
     releaseList := releaseList b; archives := archives b;
     release_json := release_json b; salts_drawn := salts_drawn b |}.

Definition set_tag (t : string) (b : builder) : builder :=
  {| releasesGeneratedThisRun := releasesGeneratedThisRun b;
     MAP_REPO_NEW_RELEASE_TAGNAME := t;
     releaseList := releaseList b; archives := archives b;
     release_json := release_json b; salts_drawn := salts_drawn b |}.

Definition set_releaseList (l : list string) (b : builder) : builder :=
  {| releasesGeneratedThisRun := releasesGeneratedThisRun b;
     MAP_REPO_NEW_RELEASE_TAGNAME := MAP_REPO_NEW_RELEASE_TAGNAME b;
     releaseList := l; archives := archives b;
     release_json := release_json b; salts_drawn := salts_drawn b |}.

Definition set_archives (a : gmap string archive) (b : builder) : builder :=
  {| releasesGeneratedThisRun := releasesGeneratedThisRun b;
     MAP_REPO_NEW_RELEASE_TAGNAME := MAP_REPO_NEW_RELEASE_TAGNAME b;
     releaseList := releaseList b; archives := a;
     release_json := release_json b; salts_drawn := salts_drawn b |}.

Definition set_release_json (r : gmap string (string * list string)) (b : builder) : builder :=
  {| releasesGeneratedThisRun := releasesGeneratedThisRun b;
     MAP_REPO_NEW_RELEASE_TAGNAME := MAP_REPO_NEW_RELEASE_TAGNAME b;
     releaseList := releaseList b; archives := archives b;
     release_json := r; salts_drawn := salts_drawn b |}.

Definition set_salts_drawn (n : nat) (b : builder) : builder :=
  {| releasesGeneratedThisRun := releasesGeneratedThisRun b;
     MAP_REPO_NEW_RELEASE_TAGNAME := MAP_REPO_NEW_RELEASE_TAGNAME b;
     releaseList := releaseList b; archives := archives b;
     release_json := release_json b; salts_drawn := n |}.

(** [releasesGeneratedThisRun[tag]] *)
Definition release_of (tag : string) (m : gmap string release_entry) : result release_entry :=
  match m !! tag with
  | Some e => Ok e
  | None => Raise (KeyError tag)
  end.

(** [tag in releaseList] *)
Definition in_release_list (tag : string) (l : list string) : bool :=
  existsb (String.eqb tag) l.

(** The tag after [current_release_tagname]: its major version plus one. *)
Definition next_release_tagname (current_release_tagname : string) : result string :=
  match re_match RELEASE_VERSION_RE current_release_tagname with
  | Some release_version_result =>
      Ok ("v" +:+ Py.str_of_int (Py.int_of_digits (group "major" release_version_result) + 1))
  | None =>
      Raise (ValueError ("Error: Invalid current release tagname: " +:+ current_release_tagname))
  end.

(** [generate_next_release_details]: the next tag, entered in
    [releasesGeneratedThisRun] with no commit and no asset. *)
Definition generate_next_release_details (current_release_tagname : string)
    (releases : gmap string release_entry)
    : result (string * gmap string release_entry) :=
  let* next_release_tagname := next_release_tagname current_release_tagname in
  Ok (next_release_tagname,
      <[next_release_tagname := {| commits := []; assets := 0 |}]> releases).

(** [re.sub(r'[^A-Za-z0-9\-_]', "_", name)] *)
Fixpoint clean_name (s : string) : string :=
  match s with
  | EmptyString => EmptyString
  | String c s' => String (if name_char c then c else "_"%char) (clean_name s')
  end.

Definition re_sub_clean (v : json) : result string :=
  let* s := Py.as_str v in Ok (clean_name s).

(** [str(v)] of the values a players count can be once validation
    found no error. *)
Definition format_value (v : json) : string :=
  match v with
  | JInt n => Py.str_of_int n
  | JStr s => s
  | JBool true => "True"
  | JBool false => "False"
  | JNull => "None"
  | JList _ => "[...]"
  | JDict _ => "{...}"
  end.

(** [os.path.join] *)
Definition path_join (parts : list string) : string := join_strs "/" parts.

Section ReleaseBuilder.

(** The collaborators: the license library and the clock of the validator;
    [git diff --dirstat] per commit; [maptools package info] per map folder
    of the working tree (exit code, parsed standard output); the zip
    packager of [compress_map.py] on a folder, with an optional salt;
    SHA-256; and the random source of salts. *)
Variable license_check : json -> license_verdict.
Variable now : datetime_t.
Variable get_changed_folders_in_commit : string -> list string.
Variable maptools_package_info : string -> Z * pydict.
Variable compress_map_folder : string -> option string -> archive.
Variable sha256 : archive -> string.
Variable random_salt : nat -> string.

Variable output_folder : string.
Variable max_assets_per_release : Z.

(** [map_has_hash_collision]: the archive is hashed; the lookup among the
    hashes seen so far is a TODO of the source, and the result is [False]. *)
Definition map_has_hash_collision (files : gmap string archive) (archive_path : string)
    : result (bool * string) :=
  match files !! archive_path with
  | Some a => Ok (false, sha256 a)
  | None => Raise (FileNotFoundError archive_path)
  end.

(** Lines 138-145: repackage with a fresh salt while a collision is
    reported.  [None]: the loop did not end within [fuel] turns. *)
Fixpoint repackage_while_collision (fuel : nat) (mapFolderFullPath output_archive_path : string)
    (hash_collision_result : bool * string) (b : builder) : option (result builder) :=
  if fst hash_collision_result then
    match fuel with
    | O => None
    | S fuel' =>
        let hashCollisionAvoidanceSalt := random_salt (salts_drawn b) in
        let b := set_salts_drawn (S (salts_drawn b)) b in
        let b := set_archives (delete output_archive_path (archives b)) b in
        let b := set_archives
                   (<[output_archive_path :=
                        compress_map_folder mapFolderFullPath (Some hashCollisionAvoidanceSalt)]>
                      (archives b)) b in
        match map_has_hash_collision (archives b) output_archive_path with
        | Ok r => repackage_while_collision fuel' mapFolderFullPath output_archive_path r b
        | Raise e => Some (Raise e)
        end
    end
  else Some (Ok b).

Definition lift {A} (r : result A) : option (result A) := Some r.

Definition obind {A B} (m : option (result A)) (k : A -> option (result B))
    : option (result B) :=
  match m with
  | None => None
  | Some (Raise e) => Some (Raise e)
  | Some (Ok a) => k a
  end.

(** [releasesGeneratedThisRun[tag]['assets'] += 1] *)
Definition count_asset (b : builder) : result builder :=
  let tag := MAP_REPO_NEW_RELEASE_TAGNAME b in
  let* e := release_of tag (releasesGeneratedThisRun b) in
  Ok (set_releases
        (<[tag := {| commits := commits e; assets := assets e + 1 |}]>
           (releasesGeneratedThisRun b)) b).

(** Lines 107-147: one changed map folder. *)
Definition process_map (fuel : nat) (repo_local_path mapFolder : string) (b : builder)
    : option (result builder) :=
  let mapFolderFullPath := path_join [repo_local_path; mapFolder] in
  let '(returncode, map_info_json) := maptools_package_info mapFolderFullPath in
  if negb (returncode =? 0)%Z then Some (Ok b)
  else
    obind (lift (validate_map_info license_check now map_info_json true default_warning_options))
      (fun map_validation_result =>
    if (Z.of_nat (length (errors map_validation_result)) >? 0)%Z then Some (Ok b)
    else
      obind (lift (Py.dict_item map_info_json "players")) (fun map_players =>
      obind (lift (Py.dict_item map_info_json "name")) (fun name =>
      obind (lift (re_sub_clean name)) (fun clean_map_name =>
      let clean_map_name_with_players := format_value map_players +:+ "p-" +:+ clean_map_name in
      let output_archive_path :=
        path_join [output_folder; MAP_REPO_NEW_RELEASE_TAGNAME b; "assets";
                   clean_map_name_with_players +:+ ".wz"] in
      let b := set_archives
                 (<[output_archive_path := compress_map_folder mapFolderFullPath None]>
                    (archives b)) b in
      obind (lift (map_has_hash_collision (archives b) output_archive_path))
        (fun hash_collision_result =>
      obind (repackage_while_collision fuel mapFolderFullPath output_archive_path
               hash_collision_result b) (fun b =>
      lift (count_asset b))))))).

Fixpoint process_maps (fuel : nat) (repo_local_path : string) (changedFolders : list string)
    (b : builder) : option (result builder) :=
  match changedFolders with
  | [] => Some (Ok b)
  | mapFolder :: rest =>
      obind (process_map fuel repo_local_path mapFolder b)
        (fun b => process_maps fuel repo_local_path rest b)
  end.

(** Line 89: the changed folders under [maps/]. *)
Definition map_folders (changedFolders : list string) : list string :=
  List.filter (fun x => match re_match MAPS_FOLDER_RE x with Some _ => true | None => false end)
         changedFolders.

(** Lines 95-100: seal the current release and start the next one when
    this commit would push a release that has assets over the cap. *)
Definition start_commit (changedFolders : list string) (b : builder) : result builder :=
  let* e := release_of (MAP_REPO_NEW_RELEASE_TAGNAME b) (releasesGeneratedThisRun b) in
  if (assets e >? 0)%Z
     && (Z.of_nat (length changedFolders) + assets e >? max_assets_per_release)%Z
  then
    let b :=
      if negb (in_release_list (MAP_REPO_NEW_RELEASE_TAGNAME b) (releaseList b)) then
        set_releaseList (releaseList b ++ [MAP_REPO_NEW_RELEASE_TAGNAME b]) b
      else b in
    let* (tag, releases) :=
      generate_next_release_details (MAP_REPO_NEW_RELEASE_TAGNAME b)
                                    (releasesGeneratedThisRun b) in
    Ok (set_tag tag (set_releases releases b))
  else Ok b.

(** Line 102: [releasesGeneratedThisRun[tag]['commits'].append(commit)] *)
Definition record_commit (commit : string) (b : builder) : result builder :=
  let tag := MAP_REPO_NEW_RELEASE_TAGNAME b in
  let* e := release_of tag (releasesGeneratedThisRun b) in
  Ok (set_releases
        (<[tag := {| commits := commits e ++ [commit]; assets := assets e |}]>
           (releasesGeneratedThisRun b)) b).

(** Lines 149-158: write [release.json]; list the release once it has an asset. *)
Definition finish_commit (commit : string) (b : builder) : result builder :=
  let tag := MAP_REPO_NEW_RELEASE_TAGNAME b in
  let* e := release_of tag (releasesGeneratedThisRun b) in
  let b := set_release_json (<[tag := (commit, commits e)]> (release_json b)) b in
  let* e' := release_of tag (releasesGeneratedThisRun b) in
  if (assets e' >? 0)%Z && negb (in_release_list tag (releaseList b)) then
    Ok (set_releaseList (releaseList b ++ [tag]) b)
  else Ok b.

(** Lines 82-158: one commit. *)
Definition process_commit (fuel : nat) (repo_local_path commit : string) (b : builder)
    : option (result builder) :=
  let changedFolders := map_folders (get_changed_folders_in_commit commit) in
  match changedFolders with
  | [] => Some (Ok b)
  | _ :: _ =>
      obind (lift (start_commit changedFolders b)) (fun b =>
      obind (lift (record_commit commit b)) (fun b =>
      obind (process_maps fuel repo_local_path changedFolders b) (fun b =>
      lift (finish_commit commit b))))
  end.

Fixpoint process_commits (fuel : nat) (repo_local_path : string) (commits : list string)
    (b : builder) : option (result builder) :=
  match commits with
  | [] => Some (Ok b)
  | commit :: rest =>
      obind (process_commit fuel repo_local_path commit b)
        (fun b => process_commits fuel repo_local_path rest b)
  end.

(** [generate_releases_for_maprepo], on the commits [git rev-list] gave:
    the final state; its [releaseList] is the value returned. *)
Definition generate_releases_for_maprepo (fuel : nat) (repo_local_path : string)
    (commits : list string) (last_release_version : string) : option (result builder) :=
  obind (lift (generate_next_release_details last_release_version ∅))
    (fun '(tag, releases) =>
  process_commits fuel repo_local_path commits
    {| releasesGeneratedThisRun := releases;
       MAP_REPO_NEW_RELEASE_TAGNAME := tag;
       releaseList := [];
       archives := ∅;
       release_json := ∅;
       salts_drawn := 0 |}).

End ReleaseBuilder.

(** ** [update_map_db.py]: the paginated index *)

Definition DEFAULT_MAX_MAPS_PER_INDEX_FILE : Z := 3000.

(** An index page file ([v1/full.json], [v1/full/page/<n>.json]): the keys
    [type], [id], [version], [links] ([self], [prev], [next]),
    [asset-url-templates] and [maps] of its JSON object. *)
Record index_page := {
  page_type : string;
  page_id : string;
  version : string;
  links_self : string;
  links_prev : option string;
  links_next : option string;
  asset_url_templates : json;
  maps : list json }.

(** [MapDBPublicURLPaths] *)
Record MapDBPublicURLPaths := {
  map_db_data_root_relurl_components : list string;
  urls_asset_url_templates : json }.

Definition prepend_data_root_relurl_components (u : MapDBPublicURLPaths)
    (url_components : list string) : list string :=
  (map_db_data_root_relurl_components u ++ url_components)%list.

(** [generate_full_index_page_path_components] *)
Definition generate_full_index_page_path_components (pagenum : Z) : result (list string) :=
  if (pagenum >? 1)%Z then Ok ["v1"; "full"; "page"; Py.str_of_int pagenum +:+ ".json"]
  else if (pagenum =? 1)%Z then Ok ["v1"; "full.json"]
  else Raise (ValueError ("Invalid pagenum: " +:+ Py.str_of_int pagenum)).

(** ['/' + '/'.join(urls.prepend_data_root_relurl_components(components(pagenum)))] *)
Definition page_url (u : MapDBPublicURLPaths) (pagenum : Z) : result string :=
  let* components := generate_full_index_page_path_components pagenum in
  Ok ("/" +:+ join_strs "/" (prepend_data_root_relurl_components u components)).

(** [versions.json]: per page, its self link and its version stamp. *)
Record versions_file := {
  versions_type : string;
  versions_id : string;
  versions : list (string * string) }.

(** The files under [map_db_data_root]: the index page of each page number
    that exists and [v1/versions.json]; [clock_reads] counts the readings
    of the clock. *)
Record mapdb := {
  pages : gmap nat index_page;
  versions_json : option versions_file;
  clock_reads : nat }.

(** [map_db_full_index_pages]: page 1, 2, ... while the file exists.  A
    store of [size m] files has no longer run. *)
Fixpoint pages_from (fuel : nat) (current_pagenum : nat) (m : gmap nat index_page)
    : list (nat * index_page) :=
  match fuel with
  | O => []
  | S fuel' =>
      match m !! current_pagenum with
      | Some p => (current_pagenum, p) :: pages_from fuel' (S current_pagenum) m
      | None => []
      end
  end.

Definition map_db_full_index_pages (m : gmap nat index_page) : list (nat * index_page) :=
  pages_from (size m) 1 m.

(** [get_current_index_page]: the number of the last page of the run, 1
    when there is none. *)
Definition get_current_index_page (m : gmap nat index_page) : nat :=
  fold_left (fun _ np => fst np) (map_db_full_index_pages m) 1%nat.

(** [update_mapdatabase_versions_file] *)
Definition versions_of (m : gmap nat index_page) : versions_file :=
  {| versions_type := "wz2100.mapdatabase.versions.v1";
     versions_id := "versions";
     versions := map (fun np => (links_self (snd np), version (snd np)))
                     (map_db_full_index_pages m) |}.

Definition update_mapdatabase_versions_file (db : mapdb) : mapdb :=
  {| pages := pages db;
     versions_json := Some (versions_of (pages db));
     clock_reads := clock_reads db |}.

Section Index.

(** [time.strftime("%Y-%m-%d %H:%M:%S", time.gmtime())] at the k-th reading
    of the clock. *)
Variable gmtime : nat -> string.

Variable map_db_urls : MapDBPublicURLPaths.
Variable max_maps_per_index_file : Z.

(** [initialize_new_index_page]; reads the clock once. *)
Definition initialize_new_index_page (pagenum : nat) (reads : nat) : result index_page :=
  let* self := page_url map_db_urls (Z.of_nat pagenum) in
  let* prev :=
    if (Z.of_nat pagenum >? 1)%Z then
      let* p := page_url map_db_urls (Z.of_nat pagenum - 1) in Ok (Some p)
    else Ok None in
  Ok {| page_type := "wz2100.mapdatabase.full.v1";
        page_id := "full-page-" +:+ Py.str_of_int (Z.of_nat pagenum);
        version := gmtime reads;
        links_self := self;
        links_prev := prev;
        links_next := None;
        asset_url_templates := urls_asset_url_templates map_db_urls;
        maps := [] |}.

(** [l[a:b]]: a negative bound counts from the end, and both are clamped
    to the list. *)
Definition slice_bound (n x : Z) : Z :=
  if (x <? 0)%Z then Z.max (x + n) 0 else Z.min x n.

Definition slice {A} (l : list A) (a b : Z) : list A :=
  let n := Z.of_nat (length l) in
  firstn (Z.to_nat (slice_bound n b) - Z.to_nat (slice_bound n a))
         (skipn (Z.to_nat (slice_bound n a)) l).

(** Lines 310-339: the turns of the loop.  [None]: the loop did not end
    within [fuel] turns. *)
Fixpoint add_pages (fuel : nat) (new_maps : list json) (new_maps_start : Z)
    (curr_index_pagenum : nat) (db : mapdb) : option (result mapdb) :=
  if (new_maps_start <? Z.of_nat (length new_maps))%Z then
    match fuel with
    | O => None
    | S fuel' =>
        let loaded :=
          match pages db !! curr_index_pagenum with
          | Some p => Ok (p, clock_reads db)
          | None =>
              let* p := initialize_new_index_page curr_index_pagenum (clock_reads db) in
              Ok (p, S (clock_reads db))
          end in
        match loaded with
        | Raise e => Some (Raise e)
        | Ok (curr_index_page_json, reads) =>
            let num_maps_in_page := Z.of_nat (length (maps curr_index_page_json)) in
            let new_maps_end :=
              Z.min (new_maps_start + max_maps_per_index_file) (Z.of_nat (length new_maps)) in
            let maps' :=
              (maps curr_index_page_json ++ slice new_maps new_maps_start new_maps_end)%list in
            let new_maps_start := new_maps_end in
            let version' := gmtime reads in
            let reads := S reads in
            let next :=
              if (new_maps_start <? Z.of_nat (length new_maps))%Z then
                let* n := page_url map_db_urls (Z.of_nat curr_index_pagenum + 1) in
                Ok (Some n)
              else Ok (links_next curr_index_page_json) in
            match next with
            | Raise e => Some (Raise e)
            | Ok next' =>
                let page' :=
                  {| page_type := page_type curr_index_page_json;
                     page_id := page_id curr_index_page_json;
                     version := version';
                     links_self := links_self curr_index_page_json;
                     links_prev := links_prev curr_index_page_json;
                     links_next := next';
                     asset_url_templates := asset_url_templates curr_index_page_json;
                     maps := maps' |} in
                let db' :=
                  {| pages := <[curr_index_pagenum := page']> (pages db);
                     versions_json := versions_json db;
                     clock_reads := reads |} in
                add_pages fuel' new_maps new_maps_start (S curr_index_pagenum) db'
            end
        end
    end
  else Some (Ok db).

(** [add_to_mapdatabase_index] *)
Definition add_to_mapdatabase_index (fuel : nat) (new_maps : list json) (db : mapdb)
    : option (result mapdb) :=
  let curr_index_pagenum := get_current_index_page (pages db) in
  match add_pages fuel new_maps 0 curr_index_pagenum db with
  | Some (Ok db') => Some (Ok (update_mapdatabase_versions_file db'))
  | r => r
  end.

End Index.

(** ** [validate_new_map.py] *)

(** [MapValidationDetails] *)
Record MapValidationDetails := {
  details_map_info_json : pydict;
  info_validation_result : MapInfoValidationResult;
  name_conflict : bool;
  mapdir_folder_name_mismatch : bool;
  players_count_mismatch : bool;
  details_enforce_format_checks : bool }.

Definition needs_format_conversion (d : MapValidationDetails) : bool :=
  negb (passedFormatChecks (info_validation_result d)).

Definition get_status_list (d : MapValidationDetails) : list string :=
  let status_list :=
    ((if players_count_mismatch d then ["PlayersCountMismatch"] else [])
     ++ (if details_enforce_format_checks d && needs_format_conversion d
         then ["NeedsFormatConversion"] else [])
     ++ (if name_conflict d then ["NameConflict"] else [])
     ++ (if mapdir_folder_name_mismatch d then ["FolderNameDoesNotMatchMapName"] else [])
     ++ (if (Z.of_nat (length (errors (info_validation_result d))) >? 0)%Z
         then ["ValidationErrors"] else []))%list in
  match status_list with
  | [] => ["Pass"]
  | _ => status_list
  end.

Definition passed_validation (d : MapValidationDetails) : bool :=
  bool_decide (get_status_list d = ["Pass"]).

(** What the file system and the tools say about one path of the map
    list: [Path.exists()], the exit code of [maptools package info], its
    parsed standard output and the lines of its standard error,
    [check_name_unique_in_maprepos], [Path.is_dir()] and [Path.name]. *)
Record map_probe := {
  probe_exists : bool;
  maptools_returncode : Z;
  maptools_stdout : pydict;
  maptools_stderr : list string;
  name_unique_in_maprepos : bool;
  probe_is_dir : bool;
  probe_name : string }.

(** [a != b] between a JSON value and a [str] / an [int]. *)
Definition ne_str (v : json) (s : string) : bool := negb (Py.is_str s v).
Definition ne_int (v : json) (n : Z) : bool := negb (Py.eq_int v n).

Section ValidateNewMap.

Variable license_check : json -> license_verdict.
Variable now : datetime_t.
(** The probe of each path. *)
Variable probe : string -> map_probe.

Definition stderr_finding (line : string) : finding := Msg line [].

(** [validate_map] *)
Definition validate_map (map_path : string) (check_for_name_conflict : bool)
    (enforce_format_checks : bool) (expected_players_count : option Z)
    (validate_warning_options : ValidateMapWarningOptions) : result MapValidationDetails :=
  let p := probe map_path in
  if negb (maptools_returncode p =? 0)%Z then
    Raise (FailedToProcessMapError
             "Invalid map - maptools package info command failed with exit code: {0}{1}")
  else
    let map_info_json := maptools_stdout p in
    let* info_validation_result :=
      validate_map_info license_check now map_info_json enforce_format_checks
                        validate_warning_options in
    let info_validation_result :=
      if (Z.of_nat (length (maptools_stderr p)) >? 0)%Z then
        {| warnings := warnings info_validation_result;
           errors := (map stderr_finding (maptools_stderr p)
                      ++ errors info_validation_result)%list;
           passedFormatChecks := passedFormatChecks info_validation_result;
           errors_non_fatal := errors_non_fatal info_validation_result |}
      else info_validation_result in
    let* name_conflict :=
      if check_for_name_conflict then
        let* _ := Py.dict_item map_info_json "name" in
        let* _ := Py.dict_item map_info_json "players" in
        Ok (negb (name_unique_in_maprepos p))
      else Ok false in
    let* mapdir_folder_name_mismatch :=
      if probe_is_dir p then
        let* name := Py.dict_item map_info_json "name" in
        Ok (ne_str name (probe_name p))
      else Ok false in
    let* players_count_mismatch :=
      match expected_players_count with
      | Some n =>
          let* players := Py.dict_item map_info_json "players" in
          Ok (ne_int players n)
      | None => Ok false
      end in
    Ok {| details_map_info_json := map_info_json;
          info_validation_result := info_validation_result;
          name_conflict := name_conflict;
          mapdir_folder_name_mismatch := mapdir_folder_name_mismatch;
          players_count_mismatch := players_count_mismatch;
          details_enforce_format_checks := enforce_format_checks |}.

(** [d[k] = v] on an [OrderedDict] keyed by path: a key already there keeps
    its place. *)
Fixpoint odict_set {V} (k : string) (v : V) (d : list (string * V)) : list (string * V) :=
  match d with
  | [] => [(k, v)]
  | (k', v') :: d' => if String.eqb k k' then (k, v) :: d' else (k', v') :: odict_set k v d'
  end.

(** [print_multi_map_validation_details]: the value it returns (what it
    prints is left out). *)
Definition print_multi_map_validation_details
    (validation_details : list (string * MapValidationDetails))
    (maps_failed_processing : list (string * string)) : Z :=
  let failing_maps := List.filter (fun kv => negb (passed_validation (snd kv))) validation_details in
  let passing_maps := List.filter (fun kv => passed_validation (snd kv)) validation_details in
  if (Z.of_nat (length failing_maps) =? 0)%Z
     && (Z.of_nat (length validation_details) >? 0)%Z
     && (Z.of_nat (length maps_failed_processing) =? 0)%Z
  then 0%Z else 1%Z.

(** Lines 306-312: the loop over the map list. *)
Fixpoint validate_paths (map_path_list : list string) (check_for_name_conflict : bool)
    (expected_players_count : option Z)
    (acc : list (string * MapValidationDetails) * list (string * string))
    : result (list (string * MapValidationDetails) * list (string * string)) :=
  match map_path_list with
  | [] => Ok acc
  | map_path :: rest =>
      let '(validation_details, maps_failed_processing) := acc in
      let* acc :=
        if probe_exists (probe map_path) then
          match validate_map map_path check_for_name_conflict true expected_players_count
                             default_warning_options with
          | Ok d => Ok (odict_set map_path d validation_details, maps_failed_processing)
          | Raise (FailedToProcessMapError e) =>
              Ok (validation_details, odict_set map_path e maps_failed_processing)
          | Raise e => Raise e
          end
        else Ok acc in
      validate_paths rest check_for_name_conflict expected_players_count acc
  end.

(** [validate_repo_map_list]: the value handed to [exit]. *)
Definition validate_repo_map_list (map_path_list : list string)
    (check_for_name_conflict : bool) (expected_players_count : option Z) : result Z :=
  let* (validation_details, maps_failed_processing) :=
    validate_paths map_path_list check_for_name_conflict expected_players_count ([], []) in
  let _ := print_multi_map_validation_details validation_details maps_failed_processing in
  let num_failing_maps :=
    Z.of_nat (length (List.filter (fun kv => negb (passed_validation (snd kv))) validation_details)) in
  Ok (if (Z.of_nat (length validation_details) >? 0)%Z then num_failing_maps else 1%Z).

(** [validate_single_map] *)
Definition validate_single_map (map_path : string) (check_for_name_conflict : bool)
    (expected_players_count : option Z) : result Z :=
  let* validation_details :=
    validate_map map_path check_for_name_conflict true expected_players_count
                 default_warning_options in
  Ok (if passed_validation validation_details then 0%Z else 1%Z).

End ValidateNewMap.

(** ** Specification-side definitions *)

(** The accepted date pattern, in the words of the specification: a year
    of at least four digits, a month 01-12 and a day 01-31, separated by
    [-]; anything may follow (the time is optional). *)
Definition decimal_digits : list ascii := list_ascii_of_string "0123456789".

Definition is_digits (s : string) : Prop :=
  Forall (fun c => In c decimal_digits) (list_ascii_of_string s).

Definition two_digits (n : nat) : string :=
  String (ascii_of_nat (48 + n / 10)) (String (ascii_of_nat (48 + n mod 10)) EmptyString).

Definition months : list string := map two_digits (seq 1 12).
Definition days : list string := map two_digits (seq 1 31).

Definition accepted_date (s y m d : string) : Prop :=
  exists rest,
    s = y +:+ "-" +:+ m +:+ "-" +:+ d +:+ rest
    /\ (4 <= String.length y)%nat /\ is_digits y /\ In m months /\ In d days.



(** ** Proof-side definitions *)

Fixpoint all_chars (p : ascii -> bool) (s : string) : bool :=
  match s with
  | EmptyString => true
  | String c s' => p c && all_chars p s'
  end.

(** The first character of [s], if any, is not in the class. *)
Definition stops (p : ascii -> bool) (s : string) : bool :=
  match s with
  | EmptyString => true
  | String c _ => negb (p c)
  end.

(** No named group occurs in [r]. *)
Fixpoint nameless (r : regex) : bool :=
  match r with
  | Seq a b => nameless a && nameless b
  | Alt a b => nameless a && nameless b
  | Opt a => nameless a
  | Group None a => nameless a
  | Group (Some _) _ => false
  | _ => true
  end.

Definition month_chars (m1 m2 : ascii) : bool :=
  (Ascii.eqb "0" m1 && between "1" "9" m2) || (Ascii.eqb "1" m1 && between "0" "2" m2).

Definition day_chars (d1 d2 : ascii) : bool :=
  (Ascii.eqb "0" d1 && between "1" "9" d2)
  || (between "1" "2" d1 && between "0" "9" d2)
  || (Ascii.eqb "3" d1 && between "0" "1" d2).

(** [DATE_FORMAT_RE] after the year. *)
Definition date_tail : regex :=
  seq_of [Chr "-"; re_month; Chr "-"; re_day; Opt re_time].

(** The end of a pattern: the match succeeds with the groups found. *)
Definition final : nat -> string -> groups -> option groups := fun _ _ g => Some g.

(** ** Sample inputs *)

(** [d[k] = v] and [del d[k]]. *)
Fixpoint dict_set (k : string) (v : json) (d : pydict) : pydict :=
  match d with
  | [] => [(k, v)]
  | (k', v') :: d' => if String.eqb k k' then (k, v) :: d' else (k', v') :: dict_set k v d'
  end.

Fixpoint dict_del (k : string) (d : pydict) : pydict :=
  match d with
  | [] => []
  | (k', v') :: d' => if String.eqb k k' then d' else (k', v') :: dict_del k d'
  end.

Definition sample_counts (n : Z) : json := JDict [("min", JInt n); ("max", JInt n)].

Definition sample_player_counts : json :=
  JDict [("units", sample_counts 4); ("structures", sample_counts 12);
         ("resourceExtractors", sample_counts 4); ("powerGenerators", sample_counts 1);
         ("regFactories", sample_counts 2); ("vtolFactories", sample_counts 0);
         ("cyborgFactories", sample_counts 1); ("researchCenters", sample_counts 1);
         ("defenseStructures", sample_counts 3)].

Definition sample_start_equality : json :=
  JDict [("units", JBool true); ("structures", JBool true);
         ("resourceExtractors", JBool true); ("powerGenerators", JBool true);
         ("regFactories", JBool true); ("vtolFactories", JBool true);
         ("cyborgFactories", JBool true); ("researchCenters", JBool true);
         ("defenseStructures", JBool true)].

Definition sample_hq_slot : json := JDict [("x", JInt 10); ("y", JInt 12)].

(** A map info document of a four-player map that meets every rule. *)
Definition sample_map_info : pydict :=
  [ ("name", JStr "Sk-Rush"); ("type", JStr "skirmish"); ("players", JInt 4);
    ("tileset", JStr "arizona"); ("license", JStr "CC0-1.0");
    ("author", JDict [("name", JStr "Al")]);
    ("created", JStr "2020-05-17 10:00:00");
    ("mapsize", JDict [("w", JInt 64); ("h", JInt 64)]);
    ("scavenger", JDict [("units", JInt 0); ("structures", JInt 0)]);
    ("oilWells", JInt 16);
    ("balance", JDict [("startEquality", sample_start_equality)]);
    ("player", sample_player_counts);
    ("hq", JList [sample_hq_slot; sample_hq_slot; sample_hq_slot; sample_hq_slot]);
    ("mapMod", JBool false);
    ("levelFormat", JStr "json"); ("mapFormat", JStr "script");
    ("flatMapPackage", JBool true) ].

(** A stand-in for the license library: the six expected expressions,
    written as in the source, are accepted; other strings parse but are
    not expected; anything else is an [ExpressionError]. *)
Definition sample_license_check (v : json) : license_verdict :=
  match v with
  | JStr s =>
      if existsb (String.eqb s) expected_license_expressions then LicenseExpected
      else LicenseNotExpected
  | _ => LicenseExpressionError "expression must be a string"
  end.

(** Noon of 2024-01-01. *)
Definition sample_now : datetime_t :=
  {| toordinal := 738886; microsecond_of_day := 43200000000 |}.

(** [ValidateMapWarningOptions] with every warning switched off. *)
Definition no_warning_options : ValidateMapWarningOptions :=
  {| short_name_warning := false; missing_created_date_warning := false;
     zero_oil_warning := false; player_structure_zero_warnings := false;
     mods_texture_overrides_warning := false; mods_auto_strip_warning := false;
     mods_no_modtypes_warning := false; format_warnings := false |}.

Definition author_named (n : string) : json := JDict [("name", JStr n)].

(** The sample document with a primary author and additional authors. *)
Definition sample_with_authors (primary : string) (additional : list string) : pydict :=
  dict_set "additionalAuthors" (JList (map author_named additional))
    (dict_set "author" (author_named primary) sample_map_info).

(** The number of records on each page, in page order. *)
Definition page_sizes (db : mapdb) : list nat :=
  map (fun np => length (maps (snd np))) (map_db_full_index_pages (pages db)).

(** The links of each page, in page order: self, prev, next. *)
Definition page_links (db : mapdb) : list (string * option string * option string) :=
  map (fun np => (links_self (snd np), links_prev (snd np), links_next (snd np)))
      (map_db_full_index_pages (pages db)).

(** An empty data root. *)
Definition empty_mapdb : mapdb :=
  {| pages := ∅; versions_json := None; clock_reads := 0 |}.

Definition sample_urls : MapDBPublicURLPaths :=
  {| map_db_data_root_relurl_components := ["api"];
     urls_asset_url_templates := JDict [("info", JStr "/assets/info/{hash}.json")] |}.

(** A clock that shows its k-th reading as the number k. *)
Definition sample_gmtime (k : nat) : string := Py.str_of_int (Z.of_nat k).

(** [n] records for the index. *)
Definition sample_records (n : nat) : list json :=
  map (fun i => JDict [("name", JStr ("map-" +:+ Py.str_of_int (Z.of_nat i)))]) (seq 0 n).

(** A map list of two paths: a flawless map folder, and one on which
    [maptools package info] fails. *)
Definition sample_probe (path : string) : map_probe :=
  if String.eqb path "maps/Sk-Rush" then
    {| probe_exists := true; maptools_returncode := 0;
       maptools_stdout := sample_map_info; maptools_stderr := [];
       name_unique_in_maprepos := true; probe_is_dir := true;
       probe_name := "Sk-Rush" |}
  else if String.eqb path "maps/Broken" then
    {| probe_exists := true; maptools_returncode := 1;
       maptools_stdout := []; maptools_stderr := ["unable to load map"];
       name_unique_in_maprepos := true; probe_is_dir := true;
       probe_name := "Broken" |}
  else
    {| probe_exists := false; maptools_returncode := 1;
       maptools_stdout := []; maptools_stderr := [];
       name_unique_in_maprepos := true; probe_is_dir := false;
       probe_name := path |}.

(** The number of assets and the commits of a release of the run. *)
Definition assets_of (tag : string) (b : builder) : option Z :=
  assets <$> (releasesGeneratedThisRun b !! tag).

Definition commits_of (tag : string) (b : builder) : option (list string) :=
  commits <$> (releasesGeneratedThisRun b !! tag).

(** The state a run ended in, or [b0] if it did not end in one. *)
Definition final_state {A} (r : option (result A)) (b0 : A) : A :=
  match r with
  | Some (Ok b) => b
  | _ => b0
  end.

Definition empty_builder : builder :=
  {| releasesGeneratedThisRun := ∅; MAP_REPO_NEW_RELEASE_TAGNAME := "";
     releaseList := []; archives := ∅; release_json := ∅; salts_drawn := 0 |}.

(** A repository history of two commits: [c1] changes 150 map folders and
    a file outside [maps/], [c2] changes one map folder.  Every map folder
    holds a flawless map named after its path. *)
Definition sample_changed_folders (commit : string) : list string :=
  if String.eqb commit "c1" then
    ("docs/" :: map (fun i => "maps/m" +:+ Py.str_of_int (Z.of_nat i) +:+ "/") (seq 0 150))%list
  else if String.eqb commit "c2" then ["maps/extra/"]
  else [].

Definition sample_maptools (mapFolderFullPath : string) : Z * pydict :=
  (0%Z, dict_set "name" (JStr (clean_name mapFolderFullPath)) sample_map_info).

(** A history in which the map folder [maps/Sk-Rush/] is changed by two
    commits. *)
Definition twice_changed_folders (commit : string) : list string :=
  if String.eqb commit "c1" then ["maps/Sk-Rush/"]
  else if String.eqb commit "c2" then ["maps/Sk-Rush/"]
  else [].

Definition same_maptools (mapFolderFullPath : string) : Z * pydict :=
  (0%Z, sample_map_info).

(** A packager and a hash that tell no two archives apart, and a salt
    source. *)
Definition sample_compress (mapFolderFullPath : string) (salt : option string) : archive := [].
Definition sample_sha256 (a : archive) : string := "e3b0c442".
Definition sample_salt (k : nat) : string := "saltsalt".

(** What packaging the maps of a commit leaves alone: the current tag,
    the list of releases, the [release.json] files, the salts drawn, the
    commits of every release, and every release but the current one. *)
Definition maps_frame (b b' : builder) : Prop :=
  MAP_REPO_NEW_RELEASE_TAGNAME b' = MAP_REPO_NEW_RELEASE_TAGNAME b
  /\ releaseList b' = releaseList b
  /\ release_json b' = release_json b
  /\ salts_drawn b' = salts_drawn b
  /\ (forall t, commits_of t b' = commits_of t b)
  /\ (forall t, t <> MAP_REPO_NEW_RELEASE_TAGNAME b ->
                releasesGeneratedThisRun b' !! t = releasesGeneratedThisRun b !! t).

(** The test of lines 95: the release has an asset and this commit would
    push it over the cap. *)
Definition over_cap (cap : Z) (current_assets : Z) (changedFolders : list string) : bool :=
  (current_assets >? 0)%Z && (Z.of_nat (length changedFolders) + current_assets >? cap)%Z.

(** The run of the release builder over the sample history, at the
    default cap of 100 assets per release. *)
Definition sample_run (commits : list string) : option (result builder) :=
  generate_releases_for_maprepo sample_license_check sample_now sample_changed_folders
    sample_maptools sample_compress sample_sha256 sample_salt "out" 100 0 "repo" commits "v0".

(** The run ended, and ended without an exception. *)
Definition ended_ok {A} (r : option (result A)) : Prop :=
  match r with
  | Some (Ok _) => True
  | _ => False
  end.

(** The [errors] list of [st'] extends that of [st]. *)
Definition errors_grow (st st' : vstate) : Prop :=
  exists added, v_errors st' = (v_errors st ++ added)%list.

(** The link of page [pagenum]. *)
Definition page_path_components (pagenum : Z) : list string :=
  if (pagenum >? 1)%Z then ["v1"; "full"; "page"; Py.str_of_int pagenum +:+ ".json"]
  else ["v1"; "full.json"].

Definition url_of (u : MapDBPublicURLPaths) (pagenum : nat) : string :=
  "/" +:+ join_strs "/"
            (prepend_data_root_relurl_components u (page_path_components (Z.of_nat pagenum))).

(** A list cut into runs of [cap] items, the last one possibly shorter. *)
Fixpoint chunks {A} (fuel cap : nat) (l : list A) : list (list A) :=
  match fuel with
  | O => []
  | S fuel' =>
      match l with
      | [] => []
      | _ :: _ => firstn cap l :: chunks fuel' cap (skipn cap l)
      end
  end.

(** What the claims say of a page: its number, its records and its
    links self, prev and next. *)
Definition page_summary (np : nat * index_page)
    : nat * list json * string * option string * option string :=
  (fst np, maps (snd np), links_self (snd np), links_prev (snd np), links_next (snd np)).

(** The pages that hold the runs [chs], numbered from [p] and chained
    by their links: the first page of an index has no prev link, the last
    page no next link. *)
Fixpoint expected_pages (u : MapDBPublicURLPaths) (p : nat) (chs : list (list json))
    : list (nat * list json * string * option string * option string) :=
  match chs with
  | [] => []
  | ch :: rest =>
      (p, ch, url_of u p,
       if (1 <? p)%nat then Some (url_of u (p - 1)) else None,
       match rest with [] => None | _ :: _ => Some (url_of u (S p)) end)
      :: expected_pages u (S p) rest
  end.

(** The tag of major version [n]. *)
Definition tag_of (n : Z) : string := "v" +:+ Py.str_of_int n.

(** A line feed, and the longest prefix of [s] within a character class. *)
Definition newline : string := String "010" EmptyString.

Fixpoint leading (p : ascii -> bool) (s : string) : string :=
  match s with
  | String c s' => if p c then String c (leading p s') else EmptyString
  | EmptyString => EmptyString
  end.

(** What [RELEASE_VERSION_RE] takes for the major version: the digits at
    the start of the tag, after one [v] if there is one. *)
Definition major_digits (tagname : string) : string :=
  match tagname with
  | String "v" s' => leading digit s'
  | _ => leading digit tagname
  end.

(** The state of the release builder between two commits of a run that
    started after release [v<N>]: the current tag is [v<N+c>]; the tags
    before it are listed, in order, and have assets; the current tag is
    listed once it has an asset; a release with an asset has a commit, and
    the [release.json] of a release with a commit names its last commit
    and lists its commits. *)
Definition numbered_from (N : Z) (c : nat) (b : builder) : Prop :=
  MAP_REPO_NEW_RELEASE_TAGNAME b = tag_of (N + Z.of_nat c)
  /\ (1 <= c)%nat
  /\ (exists e,
        releasesGeneratedThisRun b !! tag_of (N + Z.of_nat c) = Some e
        /\ (0 <= assets e)%Z
        /\ releaseList b
           = (map (fun i => tag_of (N + Z.of_nat i)) (seq 1 (c - 1))
              ++ (if (assets e >? 0)%Z then [tag_of (N + Z.of_nat c)] else []))%list)
  /\ (forall i, (1 <= i < c)%nat ->
        exists e', releasesGeneratedThisRun b !! tag_of (N + Z.of_nat i) = Some e'
                   /\ (0 < assets e')%Z)
  /\ (forall t e', releasesGeneratedThisRun b !! t = Some e' ->
        (0 < assets e')%Z -> commits e' <> [])
  /\ (forall t e', releasesGeneratedThisRun b !! t = Some e' -> commits e' <> [] ->
        exists c', last (commits e') = Some c'
                   /\ release_json b !! t = Some (c', commits e')).

(** ** The rules of [validate_map_info], in words

    What a map info document has to meet for the validator to report no
    error, rule by rule. *)

(** A name in the supported characters, with at most one line feed after
    them. *)
Definition name_ok (s : string) : Prop :=
  exists body, body <> "" /\ all_chars name_char body = true
               /\ (s = body \/ s = body +:+ newline).

Section Rules.
Variable license_check : json -> license_verdict.
Variable map_info_json : pydict.

(** The name is empty (or another value Python takes for false), or a
    string of at most 60 supported characters. *)
Definition name_rule : Prop :=
  exists name,
    Py.dict_get "name" map_info_json = Some name
    /\ (Py.truthy name = false
        \/ exists s, name = JStr s /\ (String.length s <= 60)%nat /\ name_ok s).

Definition type_rule : Prop :=
  Py.dict_get "type" map_info_json = Some (JStr "skirmish").

Definition players_rule : Prop :=
  exists n, Py.dict_get "players" map_info_json = Some (JInt n) /\ (2 <= n <= 10)%Z.

Definition tileset_rule : Prop :=
  exists t, Py.dict_get "tileset" map_info_json = Some (JStr t)
            /\ In t ["arizona"; "urban"; "rockies"].

(** The license is one of the expected expressions. *)
Definition license_rule : Prop :=
  exists l, Py.dict_get "license" map_info_json = Some l
            /\ license_check l = LicenseExpected.

(** There is an author with a name of at most 60 items; or there is no
    author and no additional author, under an expected license. *)
Definition author_rule : Prop :=
  match Py.dict_get "author" map_info_json with
  | Some author =>
      exists d name n,
        author = JDict d /\ Py.dict_get "name" d = Some name
        /\ Py.len name = Ok n /\ (n <= 60)%Z
  | None => Py.dict_has "additionalAuthors" map_info_json = false /\ license_rule
  end.

(** A created date, if there is one, starts with an accepted date. *)
Definition created_rule : Prop :=
  match Py.dict_get "created" map_info_json with
  | Some created => exists s y m d, created = JStr s /\ accepted_date s y m d
  | None => True
  end.

(** Width and height are between 1 and 256. *)
Definition mapsize_rule : Prop :=
  exists mapsize map_width map_height w h,
    Py.dict_get "mapsize" map_info_json = Some mapsize
    /\ Py.getitem mapsize "w" = Ok map_width /\ Py.as_int map_width = Ok w
    /\ Py.getitem mapsize "h" = Ok map_height /\ Py.as_int map_height = Ok h
    /\ (1 <= w <= 256)%Z /\ (1 <= h <= 256)%Z.

(** A map mod that lists its mod types does not have both game models and
    datasets among them. *)
Definition mods_rule : Prop :=
  forall modTypes,
    Py.dict_get "mapMod" map_info_json = Some (JBool true) ->
    Py.dict_get "modTypes" map_info_json = Some modTypes ->
    all_in ["gamemodels"; "datasets"] modTypes <> Ok true.

(** The level format, the map format and the packaging are modern. *)
Definition formats_rule : Prop :=
  Py.dict_get "levelFormat" map_info_json = Some (JStr "json")
  /\ (Py.dict_get "mapFormat" map_info_json = Some (JStr "script")
      \/ Py.dict_get "mapFormat" map_info_json = Some (JStr "jsonv2"))
  /\ Py.dict_get "flatMapPackage" map_info_json = Some (JBool true).

Definition meets_rules (enforce_format_checks : bool) : Prop :=
  name_rule /\ type_rule /\ players_rule /\ tileset_rule /\ license_rule
  /\ author_rule /\ created_rule /\ mapsize_rule /\ mods_rule
  /\ (enforce_format_checks = true -> formats_rule).

End Rules.

(** Two states of the validator that differ in their warnings at most. *)
Definition same_verdict (st1 st2 : vstate) : Prop :=
  v_errors st1 = v_errors st2
  /\ v_errors_non_fatal st1 = v_errors_non_fatal st2
  /\ v_passed st1 = v_passed st2.

(** The result of the validator on the sample document, under the
    default options with the format checks enforced. *)
Definition no_result : MapInfoValidationResult :=
  {| warnings := []; errors := []; passedFormatChecks := true; errors_non_fatal := [] |}.

Definition sample_result (map_info_json : pydict) : MapInfoValidationResult :=
  final_state
    (Some (validate_map_info sample_license_check sample_now map_info_json true
             default_warning_options))
    no_result.

(** The records of the index, in page order. *)
Definition index_records (db : mapdb) : list json :=
  concat (map (fun np => maps (snd np)) (map_db_full_index_pages (pages db))).

(** An index of three pages: seven records at a capacity of three. *)
Definition sample_index : mapdb :=
  final_state
    (add_to_mapdatabase_index sample_gmtime sample_urls 3 7 (sample_records 7) empty_mapdb)
    empty_mapdb.

(** ** [update_map_db.py]: the public URL paths *)

(** [s.split(sep)] for a separator of one character. *)
Fixpoint split_on (sep : ascii) (s : string) : list string :=
  match s with
  | EmptyString => [EmptyString]
  | String c s' =>
      if Ascii.eqb c sep then EmptyString :: split_on sep s'
      else match split_on sep s' with
           | piece :: rest => String c piece :: rest
           | [] => [String c EmptyString]
           end
  end.

(** [list(filter(None, map_db_data_root_relurl.split('/')))] *)
Definition relurl_components (map_db_data_root_relurl : string) : list string :=
  List.filter (fun piece => negb (String.eqb piece "")) (split_on "/" map_db_data_root_relurl).

(** [MapDBPublicURLPaths.__init__], on the document read from the file
    [map_db_urls_config_json]. *)
Definition MapDBPublicURLPaths_init (map_db_urls_config_json : string)
    (map_db_urls_json : json) (map_db_data_root_relurl : string)
    : result MapDBPublicURLPaths :=
  let components := relurl_components map_db_data_root_relurl in
  let* has_templates := Py.contains "asset-url-templates" map_db_urls_json in
  if negb has_templates then
    Raise (ValueError ("Invalid / unexpected contents in: " +:+ map_db_urls_config_json))
  else
    let* templates := Py.getitem map_db_urls_json "asset-url-templates" in
    Ok {| map_db_data_root_relurl_components := components;
          urls_asset_url_templates := templates |}.

(** A path component: not empty, without a slash. *)
Definition no_slash (c : ascii) : bool := negb (Ascii.eqb c "/").

Definition is_component (piece : string) : Prop :=
  piece <> "" /\ all_chars no_slash piece = true.

(** ** [process_map_repo.py]: the changed folders of a commit *)

(** [[\ 0-9.]] *)
Definition percent_char (c : ascii) : bool :=
  Ascii.eqb c " " || between "0" "9" c || Ascii.eqb c ".".

(** [^[\ 0-9.]+% ] *)
Definition DIRSTAT_PERCENT_RE : regex :=
  seq_of [Bol; Plus percent_char; Chr "%"; Chr " "].

(** [re.sub(pattern, '', s)] for a pattern anchored at the start of the
    string: the match at the start, if there is one, is cut off. *)
Definition re_sub_start (r : regex) (s : string) : string :=
  match rmatch s r 0 s [] (fun _ rest _ => Some rest) with
  | Some rest => rest
  | None => s
  end.

(** Lines 32-35 of [get_changed_folders_in_commit], on the lines [git diff
    --dirstat=files,0] printed. *)
Definition changed_folders_of_dirstat (changedFolders : list string) : list string :=
  map (re_sub_start DIRSTAT_PERCENT_RE) changedFolders.

(** ** [update_map_db.py]: merging and rebuilding *)

(** [merge_dicts_shallow], on two dicts: [c = a.copy(); c.update(b)]. *)
Definition merge_dicts_shallow (a b : pydict) : pydict :=
  fold_left (fun c kv => dict_set (fst kv) (snd kv) c) b a.

(** [generate_map_info_path_components] *)
Definition generate_map_info_path_components (map_hash additional_map_files_dir : string)
    : list string :=
  [additional_map_files_dir; substring 0 2 map_hash].

(** [os.path.join(path, b)] of [posixpath]. *)
Fixpoint ends_with_slash (s : string) : bool :=
  match s with
  | EmptyString => false
  | String c EmptyString => Ascii.eqb c "/"
  | String _ s' => ends_with_slash s'
  end.

Definition posix_join2 (path b : string) : string :=
  if String.prefix "/" b then b
  else if String.eqb path "" || ends_with_slash path then path +:+ b
  else path +:+ "/" +:+ b.

Definition posix_join (a : string) (p : list string) : string := fold_left posix_join2 p a.

Section Rebuild.

(** The clock; the JSON files under [map_db_assets_root], by path. *)
Variable gmtime : nat -> string.
Variable info_files : gmap string json.
Variable map_db_assets_root : string.

(** The path of the info file of a map hash (lines 356-357). *)
Definition map_info_file_path (map_hash : string) : string :=
  posix_join2 (posix_join map_db_assets_root
                 (generate_map_info_path_components map_hash "info"))
              (map_hash +:+ ".json").

(** Lines 354-366: the record that takes the place of [map_item]: the
    content of its info file, or the record itself when there is no such
    file.  A hash that is not a [str] cannot be sliced and joined into a
    path. *)
Definition latest_map_data (map_item : json) : result json :=
  let* download := Py.getitem map_item "download" in
  let* hash := Py.getitem download "hash" in
  let* map_hash := Py.as_str hash in
  match info_files !! map_info_file_path map_hash with
  | Some latest_map_data_json => Ok latest_map_data_json
  | None => Ok map_item
  end.

Fixpoint refresh_maps (items : list json) : result (list json) :=
  match items with
  | [] => Ok []
  | map_item :: rest =>
      let* latest := latest_map_data map_item in
      let* rest' := refresh_maps rest in
      Ok (latest :: rest')
  end.

(** Lines 347-373: the pages of the run, from [pagenum] on. *)
Fixpoint rebuild_from (fuel : nat) (pagenum : nat) (db : mapdb) : result mapdb :=
  match fuel with
  | O => Ok db
  | S fuel' =>
      match pages db !! pagenum with
      | None => Ok db
      | Some curr_index_page_json =>
          let* maps' := refresh_maps (maps curr_index_page_json) in
          let page' :=
            {| page_type := page_type curr_index_page_json;
               page_id := page_id curr_index_page_json;
               version := gmtime (clock_reads db);
               links_self := links_self curr_index_page_json;
               links_prev := links_prev curr_index_page_json;
               links_next := links_next curr_index_page_json;
               asset_url_templates := asset_url_templates curr_index_page_json;
               maps := maps' |} in
          rebuild_from fuel' (S pagenum)
            {| pages := <[pagenum := page']> (pages db);
               versions_json := versions_json db;
               clock_reads := S (clock_reads db) |}
      end
  end.

(** [rebuild_mapdatabase_index] *)
Definition rebuild_mapdatabase_index (db : mapdb) : result mapdb :=
  let* db' := rebuild_from (size (pages db)) 1 db in
  Ok (update_mapdatabase_versions_file db').

End Rebuild.

(** What a page keeps when it is rebuilt: everything but its version
    stamp and the content of its records. *)
Definition same_page_frame (p p' : index_page) : Prop :=
  page_type p' = page_type p /\ page_id p' = page_id p
  /\ links_self p' = links_self p /\ links_prev p' = links_prev p
  /\ links_next p' = links_next p
  /\ asset_url_templates p' = asset_url_templates p.

(** ** [process_new_maps.py]: the list of map repos *)

(** [a == b] between two documents read by [json.load]: [True] and [1]
    are equal, and two objects are equal when they have the same items in
    the same order ([OrderedDict]). *)
Fixpoint py_eq (a b : json) : bool :=
  match a, b with
  | JNull, JNull => true
  | JBool x, JBool y => Bool.eqb x y
  | JBool x, JInt n => ((if x then 1 else 0) =? n)%Z
  | JInt n, JBool y => (n =? (if y then 1 else 0))%Z
  | JInt n, JInt m => (n =? m)%Z
  | JStr s, JStr t => String.eqb s t
  | JList l, JList m =>
      (fix eq_items (l m : list json) : bool :=
         match l, m with
         | [], [] => true
         | x :: l', y :: m' => py_eq x y && eq_items l' m'
         | _, _ => false
         end) l m
  | JDict d, JDict e =>
      (fix eq_entries (d e : list (string * json)) : bool :=
         match d, e with
         | [], [] => true
         | (k, x) :: d', (k', y) :: e' => String.eqb k k' && py_eq x y && eq_entries d' e'
         | _, _ => false
         end) d e
  | _, _ => false
  end.

(** [any(d['github_repo'] == repo for d in map_repos)] *)
Fixpoint any_github_repo (repo : json) (map_repos : list json) : result bool :=
  match map_repos with
  | [] => Ok false
  | d :: rest =>
      let* github_repo := Py.getitem d "github_repo" in
      if py_eq github_repo repo then Ok true else any_github_repo repo rest
  end.

(** Line 40, for the repos of one entry of the config. *)
Fixpoint missing_among (repos : list json) (map_repos : list json) : result (list json) :=
  match repos with
  | [] => Ok []
  | repo :: rest =>
      let* found := any_github_repo repo map_repos in
      let* more := missing_among rest map_repos in
      Ok (if found then more else repo :: more)
  end.

(** Line 40: the repos of the config that no entry of [map_repos] names. *)
Fixpoint missing_new_repos (map_repos_config : pydict) (map_repos : list json)
    : result (list json) :=
  match map_repos_config with
  | [] => Ok []
  | (k, v) :: rest =>
      let* repos := py_iter v in
      let* missing := missing_among repos map_repos in
      let* more := missing_new_repos rest map_repos in
      Ok (missing ++ more)%list
  end.

Definition new_repo_entry (new_repo : json) : json :=
  JDict [("github_repo", new_repo); ("last_release", JStr "v0")].

(** [load_map_repos_list], on the config object and on the array read from
    [map-repos.json], [None] when that file does not exist. *)
Definition load_map_repos_list (map_repos_config : pydict)
    (map_db_repos_json : option (list json)) : result (list json) :=
  let map_repos := match map_db_repos_json with Some l => l | None => [] end in
  let* missing := missing_new_repos map_repos_config map_repos in
  Ok (map_repos ++ map new_repo_entry missing)%list.

(** A repo of the config. *)
Definition configured (map_repos_config : pydict) (repo : json) : Prop :=
  exists k v repos, In (k, v) map_repos_config /\ py_iter v = Ok repos /\ In repo repos.

(** A record of the index with a [str] under [download], [hash]. *)
Definition has_download_hash (map_item : json) : bool :=
  match Py.getitem map_item "download" with
  | Ok download =>
      match Py.getitem download "hash" with
      | Ok (JStr _) => true
      | _ => false
      end
  | Raise _ => false
  end.

(** [latest] is what a rebuild puts in the place of [map_item]. *)
Definition refreshed (info_files : gmap string json) (map_db_assets_root : string)
    (map_item latest : json) : Prop :=
  exists download map_hash,
    Py.getitem map_item "download" = Ok download
    /\ Py.getitem download "hash" = Ok (JStr map_hash)
    /\ latest = match info_files !! map_info_file_path map_db_assets_root map_hash with
                | Some latest_map_data_json => latest_map_data_json
                | None => map_item
                end.

(** An index of two pages: three records with a hash at a capacity of
    two, and the info file of the second record. *)
Definition sample_hashed_record (map_hash : string) : json :=
  JDict [("name", JStr ("map-" +:+ map_hash)); ("download", JDict [("hash", JStr map_hash)])].

Definition sample_hashed_index : mapdb :=
  final_state
    (add_to_mapdatabase_index sample_gmtime sample_urls 2 3
       (map sample_hashed_record ["ab01"; "cd02"; "ef03"]) empty_mapdb)
    empty_mapdb.

Definition sample_info_files : gmap string json :=
  {[ "assets/info/cd/cd02.json" :=
       JDict [("name", JStr "Renamed"); ("download", JDict [("hash", JStr "cd02")])] ]}.

(** ** [update_map_db.py]: the new releases of a map repo *)

(** What the requests of [get_github_releases] came to: every page had the
    status 200 and a list for its body, and [releases] is these lists put
    together; or the body of a page was no list; or a page had another
    status, which raises [GithubAPIFetchException]. *)
Inductive fetch_outcome : Type :=
| Fetched (releases : list json)
| NotAList
| FetchFailed (status_code : Z).

Section Releases.

(** [datetime.strptime(s, "%Y-%m-%dT%H:%M:%SZ")], as a point on the time
    line. *)
Variable strptime : string -> result Z.

(** The sort key: [datetime.strptime(x['published_at'], ...)]. *)
Definition published_at (x : json) : result Z :=
  let* p := Py.getitem x "published_at" in
  let* s := Py.as_str p in
  strptime s.

(** [sorted] computes the key of every item first. *)
Fixpoint with_keys (releases : list json) : result (list (Z * json)) :=
  match releases with
  | [] => Ok []
  | x :: rest =>
      let* k := published_at x in
      let* rest' := with_keys rest in
      Ok ((k, x) :: rest')
  end.

(** A stable sort: an item goes in front of the first item whose key is
    not smaller. *)
Fixpoint insert_by_key (kx : Z * json) (l : list (Z * json)) : list (Z * json) :=
  match l with
  | [] => [kx]
  | ky :: l' => if (fst ky <? fst kx)%Z then ky :: insert_by_key kx l' else kx :: l
  end.

Definition sort_by_key (l : list (Z * json)) : list (Z * json) :=
  fold_right insert_by_key [] l.

(** [sorted(releases, key=lambda x: datetime.strptime(x['published_at'], ...))] *)
Definition sorted_by_published_at (releases : list json) : result (list json) :=
  let* keyed := with_keys releases in
  Ok (map snd (sort_by_key keyed)).

(** [next((i for i, item in enumerate(releases) if item['tag_name'] ==
    since_release_tag), None)], with [releases[i+1:]] for the index: what
    follows the first release with the tag, [None] when no release has
    it. *)
Fixpoint releases_after (since_release_tag : json) (releases : list json)
    : result (option (list json)) :=
  match releases with
  | [] => Ok None
  | item :: rest =>
      let* tag_name := Py.getitem item "tag_name" in
      if py_eq tag_name since_release_tag then Ok (Some rest)
      else releases_after since_release_tag rest
  end.

(** Lines 187-196 of [get_github_releases]. *)
Definition releases_since (releases : list json) (since_release_tag : json)
    : result (list json) :=
  let* releases := sorted_by_published_at releases in
  if Py.truthy since_release_tag then
    let* since_release_tag_index := releases_after since_release_tag releases in
    match since_release_tag_index with
    | Some rest => Ok rest
    | None => Ok releases
    end
  else Ok releases.

(** [[release['tag_name'] for release in new_releases]] *)
Fixpoint tag_names (new_releases : list json) : result (list json) :=
  match new_releases with
  | [] => Ok []
  | release :: rest =>
      let* tag_name := Py.getitem release "tag_name" in
      let* rest' := tag_names rest in
      Ok (tag_name :: rest')
  end.

(** Lines 430-447 and 467-470 of [update_map_db], without [dry_run]: the
    tags of the new releases of one map repo. *)
Definition repo_new_release_tags (map_repo : json) (fetch : fetch_outcome)
    : result (list json) :=
  let* github_repo := Py.getitem map_repo "github_repo" in
  let* has_last_release := Py.contains "last_release" map_repo in
  let* map_repo_last_release_processed :=
    if has_last_release then Py.getitem map_repo "last_release" else Ok (JStr "v0") in
  let* _ := Py.as_str github_repo in
  match fetch with
  | Fetched releases =>
      let* new_releases := releases_since releases map_repo_last_release_processed in
      match new_releases with
      | [] => Ok []
      | _ :: _ =>
          let* new_releases := sorted_by_published_at new_releases in
          tag_names new_releases
      end
  | NotAList => Ok []
  | FetchFailed _ => Ok []
  end.

(** Lines 475-479: [item[-1] if item else None], and the entry of the repo
    with it as [last_release] unless it is [None]. *)
Definition update_last_release (map_repo : pydict) (item : list json) : pydict :=
  match last item with
  | Some JNull => map_repo
  | Some new_last_release => dict_set "last_release" new_last_release map_repo
  | None => map_repo
  end.

End Releases.

(** A tag that a repo entry can hold and that finds its release again: a
    [str] that is not empty. *)
Definition is_tag (t : json) : bool :=
  match t with
  | JStr s => negb (String.eqb s "")
  | _ => false
  end.

(** Three releases, in the order of the API: latest first. *)
Definition sample_release (tag published : string) : json :=
  JDict [("tag_name", JStr tag); ("published_at", JStr published)].

Definition sample_releases : list json :=
  [sample_release "v3" "2024-03-01T00:00:00Z";
   sample_release "v2" "2024-02-01T00:00:00Z";
   sample_release "v1" "2024-01-01T00:00:00Z"].

(** A clock reading for the samples: the month of the date. *)
Definition sample_strptime (s : string) : result Z :=
  Ok (Py.int_of_digits (substring 5 2 s)).

(** Points of time that never go back. *)
Fixpoint ascending (keys : list Z) : Prop :=
  match keys with
  | [] => True
  | k :: rest => Forall (fun k' => (k <= k')%Z) rest /\ ascending rest
  end.

(** The release has, or has not, the tag [since_release_tag]. *)
Definition tagged (since_release_tag : json) (item : json) : Prop :=
  exists tag_name,
    Py.getitem item "tag_name" = Ok tag_name /\ py_eq tag_name since_release_tag = true.

Definition not_tagged (since_release_tag : json) (item : json) : Prop :=
  exists tag_name,
    Py.getitem item "tag_name" = Ok tag_name /\ py_eq tag_name since_release_tag = false.

(** The tag of a release, when it is a [str]. *)
Definition tag_name_of (release : json) : string :=
  match Py.getitem release "tag_name" with
  | Ok (JStr s) => s
  | _ => ""
  end.

(** ** Tactics *)

Ltac absurd_class :=
  match goal with
  | H : between _ _ _ = _ |- _ => vm_compute in H; discriminate H
  end.

Ltac split_match :=
  match goal with
  | |- context [match ?s with EmptyString => _ | String _ _ => _ end] =>
      is_var s; destruct s
  | |- context [if Ascii.eqb ?c ?x then _ else _] =>
      destruct (Ascii.eqb_spec c x); subst
  | |- context [if between ?lo ?hi ?x then _ else _] =>
      destruct (between lo hi x) eqn:?
  | |- context [match ?k ?a ?b ?c with Some _ => _ | None => _ end] =>
      is_var k; destruct (k a b c)
  end.

Ltac split_all :=
  cbn -[substring between Ascii.eqb];
  repeat (split_match; cbn -[substring between Ascii.eqb];
          try reflexivity; try absurd_class).

Ltac enum_class cases H :=
  apply cases in H; vm_compute in H;
  repeat (destruct H as [<-|H]; [vm_compute; tauto|]); destruct H.

(** A conjunction of closed facts, each settled by evaluation. *)
Ltac vm_conj :=
  repeat match goal with
         | |- _ /\ _ => split
         | |- let _ := _ in _ => intro
         end;
  vm_compute; first [reflexivity | exact I].

(** Case analysis of the computations in the error monad that are known
    to have returned. *)
Ltac ok_cases :=
  repeat match goal with
         | H : bind ?m _ = Ok _ |- _ =>
             destruct m eqn:?; simpl in H; [|discriminate H]
         | H : (let (_, _) := ?p in _) = Ok _ |- _ => destruct p
         | H : (if ?c then _ else _) = Ok _ |- _ => destruct c eqn:?
         | H : match ?x with _ => _ end = Ok _ |- _ => destruct x eqn:?
         | H : Raise _ = Ok _ |- _ => discriminate H
         | H : Ok _ = Ok _ |- _ => inversion H; subst; clear H
         end.

(** Goals about a state built by nested conditionals. *)
Ltac split_ifs :=
  repeat match goal with
         | |- context [if ?c then _ else _] => destruct c
         end.

(** * Lemmas and theorems *)

(** ** Strings *)

Lemma append_nil (b : string) : "" +:+ b = b.
Proof. reflexivity. Qed.

Lemma append_cons (c : ascii) (a b : string) : String c a +:+ b = String c (a +:+ b).
Proof. reflexivity. Qed.

Lemma substring_app_skip (a b : string) (n m : nat) :
  substring (String.length a + n) m (a +:+ b) = substring n m b.
Proof.
  induction a as [|c a IH]; [reflexivity|].
  rewrite append_cons. simpl. apply IH.
Qed.

Lemma substring_prefix (a b : string) :
  substring 0 (String.length a) (a +:+ b) = a.
Proof.
  induction a as [|c a IH].
  - rewrite append_nil. destruct b; reflexivity.
  - rewrite append_cons. simpl. now rewrite IH.
Qed.

Lemma substring_0_0 s : substring 0 0 s = "".
Proof. destruct s; reflexivity. Qed.

Lemma append_assoc (a b c : string) : (a +:+ b) +:+ c = a +:+ (b +:+ c).
Proof.
  induction a as [|x a IH]; [reflexivity|].
  rewrite !append_cons. now rewrite IH.
Qed.

Lemma length_append (a b : string) :
  String.length (a +:+ b) = (String.length a + String.length b)%nat.
Proof.
  induction a as [|x a IH]; [reflexivity|].
  rewrite append_cons. simpl. now rewrite IH.
Qed.

Lemma all_chars_app p a b : all_chars p (a +:+ b) = all_chars p a && all_chars p b.
Proof.
  induction a as [|x a IH]; [reflexivity|].
  rewrite append_cons. simpl. rewrite IH. now rewrite andb_assoc.
Qed.

Lemma between_cases lo hi c :
  between lo hi c = true ->
  In c (map ascii_of_nat (seq (nat_of_ascii lo) (S (nat_of_ascii hi) - nat_of_ascii lo))).
Proof.
  unfold between. intros H. apply andb_prop in H as [H1 H2].
  apply Nat.leb_le in H1, H2.
  apply in_map_iff. exists (nat_of_ascii c). split; [apply ascii_nat_embedding|].
  apply in_seq. lia.
Qed.

(** ** The matcher on repeated character classes *)

Section MatcherLemmas.
Context {R : Type}.

Lemma rep_cls_inv p n pos s (k : nat -> string -> option R) r :
  rep_cls p n pos s k = Some r ->
  exists pre post, s = pre +:+ post /\ String.length pre = n /\ all_chars p pre = true
                   /\ k (pos + n)%nat post = Some r.
Proof.
  revert pos s. induction n as [|n IH]; intros pos s H; simpl in H.
  - exists "", s. rewrite Nat.add_0_r. auto.
  - destruct s as [|c s]; [discriminate|].
    destruct (p c) eqn:Hc; [|discriminate].
    apply IH in H as (pre & post & -> & Hl & Hp & Hk).
    exists (String c pre), post. rewrite append_cons. simpl. rewrite Hc, Hp, Hl.
    replace (pos + S n)%nat with (S pos + n)%nat by lia. auto.
Qed.

Lemma star_cls_inv p pos s (k : nat -> string -> option R) r :
  star_cls p pos s k = Some r ->
  exists pre post, s = pre +:+ post /\ all_chars p pre = true
                   /\ k (pos + String.length pre)%nat post = Some r.
Proof.
  revert pos. induction s as [|c s IH]; intros pos H; simpl in H.
  - exists "", "". rewrite Nat.add_0_r. auto.
  - destruct (p c) eqn:Hc.
    + destruct (star_cls p (S pos) s k) eqn:Hs.
      * inversion H; subst. apply IH in Hs as (pre & post & -> & Hp & Hk).
        exists (String c pre), post. rewrite append_cons. simpl. rewrite Hc, Hp.
        replace (pos + S (String.length pre))%nat with (S pos + String.length pre)%nat by lia.
        auto.
      * exists "", (String c s). rewrite Nat.add_0_r. auto.
    + exists "", (String c s). rewrite Nat.add_0_r. auto.
Qed.

(** Greedy: when the class stops after [pre] and the rest of the pattern
    matches there, that is the match. *)
Lemma star_cls_greedy p pre post pos (k : nat -> string -> option R) r :
  all_chars p pre = true -> stops p post = true ->
  k (pos + String.length pre)%nat post = Some r ->
  star_cls p pos (pre +:+ post) k = Some r.
Proof.
  revert pos. induction pre as [|c pre IH]; intros pos Hp Hs Hk.
  - rewrite append_nil. simpl in Hk. rewrite Nat.add_0_r in Hk.
    destruct post as [|c s]; simpl; [assumption|].
    simpl in Hs. apply negb_true_iff in Hs. now rewrite Hs.
  - rewrite append_cons. simpl in *. apply andb_prop in Hp as [Hc Hp]. rewrite Hc.
    rewrite (IH (S pos)); auto.
    now replace (S pos + String.length pre)%nat with (pos + S (String.length pre))%nat by lia.
Qed.

End MatcherLemmas.

Lemma rmatch_nameless {R} subject r :
  nameless r = true ->
  forall pos s g (k : nat -> string -> groups -> option R) x,
    rmatch subject r pos s g k = Some x -> exists pos' s', k pos' s' g = Some x.
Proof.
  induction r as [|c|p|r1 IH1 r2 IH2|r1 IH1 r2 IH2|r1 IH1|n p|p|p|name r1 IH1| |];
    intros Hn pos s g k x H; simpl in *.
  - eauto.
  - destruct s as [|c' s]; [discriminate|]. destruct (Ascii.eqb c c'); [eauto|discriminate].
  - destruct s as [|c' s]; [discriminate|]. destruct (p c'); [eauto|discriminate].
  - apply andb_prop in Hn as [H1 H2].
    apply (IH1 H1) in H as (pos' & s' & H). apply (IH2 H2) in H. exact H.
  - apply andb_prop in Hn as [H1 H2].
    destruct (rmatch subject r1 pos s g k) eqn:E.
    + inversion H; subst. apply (IH1 H1) in E. exact E.
    + apply (IH2 H2) in H. exact H.
  - destruct (rmatch subject r1 pos s g k) eqn:E.
    + inversion H; subst. apply (IH1 Hn) in E. exact E.
    + eauto.
  - apply rep_cls_inv in H as (pre & post & _ & _ & _ & H). eauto.
  - unfold plus_cls in H. destruct s as [|c s]; [discriminate|].
    destruct (p c); [|discriminate].
    apply star_cls_inv in H as (pre & post & _ & _ & H). eauto.
  - apply star_cls_inv in H as (pre & post & _ & _ & H). eauto.
  - destruct name as [n|]; [discriminate|].
    apply (IH1 Hn) in H as (pos' & s' & H). simpl in H. eauto.
  - destruct (pos =? 0)%nat; [eauto|discriminate].
  - destruct s as [|c [|c' s]]; [eauto| |discriminate].
    destruct (Ascii.eqb c "010"); [eauto|discriminate].
Qed.

(** An optional nameless tail in front of the end of the pattern changes
    nothing. *)
Lemma opt_nameless_final subject r pos s (g : groups) :
  nameless r = true ->
  rmatch subject (Opt r) pos s g final = Some g.
Proof.
  intros Hn. simpl.
  destruct (rmatch subject r pos s g final) eqn:E; [|reflexivity].
  apply (rmatch_nameless subject r Hn) in E as (p' & s' & E). unfold final in E. congruence.
Qed.

(** ** [DATE_FORMAT_RE] *)

Section DatePieces.
Context {R : Type}.
Variable subject : string.
Variable K : nat -> string -> groups -> option R.

Lemma month_match pos s g :
  rmatch subject re_month pos s g K =
  match s with
  | String m1 (String m2 rest) =>
      if month_chars m1 m2
      then K (S (S pos)) rest (("month", substring pos 2 subject) :: g)
      else None
  | _ => None
  end.
Proof.
  unfold re_month, month_chars.
  replace 2%nat with (S (S pos) - pos)%nat by lia.
  split_all.
Qed.

Lemma day_match pos s g :
  rmatch subject re_day pos s g K =
  match s with
  | String d1 (String d2 rest) =>
      if day_chars d1 d2
      then K (S (S pos)) rest (("day", substring pos 2 subject) :: g)
      else None
  | _ => None
  end.
Proof.
  unfold re_day, day_chars.
  replace 2%nat with (S (S pos) - pos)%nat by lia.
  split_all.
Qed.

End DatePieces.

Lemma date_tail_match subject pos post g :
  rmatch subject date_tail pos post g final =
  match post with
  | String a (String m1 (String m2 (String b (String d1 (String d2 rest))))) =>
      if Ascii.eqb "-" a && month_chars m1 m2 && Ascii.eqb "-" b && day_chars d1 d2
      then Some (("day", substring (pos + 4) 2 subject)
                 :: ("month", substring (pos + 1) 2 subject) :: g)
      else None
  | _ => None
  end.
Proof.
  replace (pos + 4)%nat with (S (S (S (S pos)))) by lia.
  replace (pos + 1)%nat with (S pos) by lia.
  unfold date_tail, seq_of.
  cbn [rmatch].
  destruct post as [|a post]; [reflexivity|].
  destruct (Ascii.eqb "-" a); cbn [andb];
    [|destruct post as [|? [|? [|? [|? [|? ?]]]]]; reflexivity].
  rewrite month_match.
  destruct post as [|m1 [|m2 post]]; try reflexivity.
  destruct (month_chars m1 m2); cbn [andb];
    [|destruct post as [|? [|? [|? ?]]]; reflexivity].
  destruct post as [|b post]; [reflexivity|].
  destruct (Ascii.eqb "-" b); cbn [andb];
    [|destruct post as [|? [|? ?]]; reflexivity].
  rewrite day_match.
  destruct post as [|d1 [|d2 post]]; try reflexivity.
  destruct (day_chars d1 d2); [|reflexivity].
  apply (opt_nameless_final subject re_time). reflexivity.
Qed.

Lemma digit_spec c : digit c = true <-> In c decimal_digits.
Proof.
  split.
  - intros H. apply between_cases in H. vm_compute in H. vm_compute. tauto.
  - intros H. vm_compute in H.
    repeat (destruct H as [<-|H]; [reflexivity|]). destruct H.
Qed.

Lemma all_digits_spec s : all_chars digit s = true <-> is_digits s.
Proof.
  unfold is_digits. induction s as [|c s IH]; simpl.
  - split; [constructor | reflexivity].
  - rewrite andb_true_iff, IH, digit_spec. split.
    + intros [H1 H2]. now constructor.
    + intros H. inversion H; subst. auto.
Qed.

Lemma month_chars_spec m1 m2 :
  month_chars m1 m2 = true <-> In (String m1 (String m2 "")) months.
Proof.
  split.
  - unfold month_chars. intros H.
    apply orb_prop in H as [H|H]; apply andb_prop in H as [H1 H2];
      apply Ascii.eqb_eq in H1; subst; enum_class between_cases H2.
  - intros H. vm_compute in H.
    repeat (destruct H as [H|H]; [inversion H; subst; reflexivity|]). destruct H.
Qed.

Lemma day_chars_spec d1 d2 :
  day_chars d1 d2 = true <-> In (String d1 (String d2 "")) days.
Proof.
  split.
  - unfold day_chars. intros H.
    apply orb_prop in H as [H|H]; [apply orb_prop in H as [H|H]|];
      apply andb_prop in H as [H1 H2].
    + apply Ascii.eqb_eq in H1; subst; enum_class between_cases H2.
    + apply between_cases in H1. vm_compute in H1.
      destruct H1 as [<-|[<-|[]]]; enum_class between_cases H2.
    + apply Ascii.eqb_eq in H1; subst; enum_class between_cases H2.
  - intros H. vm_compute in H.
    repeat (destruct H as [H|H]; [inversion H; subst; reflexivity|]). destruct H.
Qed.

Lemma in_two_chars (x : string) (l : list nat) :
  In x (map two_digits l) -> exists a b, x = String a (String b "").
Proof.
  intros H. apply in_map_iff in H as (n & <- & _). unfold two_digits. eauto.
Qed.

Lemma date_match_unfold s :
  re_match DATE_FORMAT_RE s =
  rep_cls digit 3 0 s (fun p1 s1 =>
    plus_cls digit p1 s1 (fun p2 s2 =>
      rmatch s date_tail p2 s2 [("year", substring 0 (p2 - 0) s)] final)).
Proof. reflexivity. Qed.

Lemma date_match_accepts s y m d :
  accepted_date s y m d ->
  re_match DATE_FORMAT_RE s = Some [("day", d); ("month", m); ("year", y)].
Proof.
  intros (rest & -> & Hlen & Hdig & Hm & Hd).
  apply all_digits_spec in Hdig.
  destruct (in_two_chars _ _ Hm) as (m1 & m2 & ->).
  destruct (in_two_chars _ _ Hd) as (d1 & d2 & ->).
  apply month_chars_spec in Hm. apply day_chars_spec in Hd.
  destruct y as [|c1 [|c2 [|c3 [|c4 y]]]]; simpl in Hlen; try lia.
  simpl in Hdig.
  apply andb_prop in Hdig as [H1 Hdig]. apply andb_prop in Hdig as [H2 Hdig].
  apply andb_prop in Hdig as [H3 Hdig]. apply andb_prop in Hdig as [H4 Hdig].
  rewrite date_match_unfold.
  set (s := String c1 (String c2 (String c3 (String c4 y))) +:+ "-" +:+ String m1 (String m2 "") +:+ "-" +:+ String d1 (String d2 "") +:+ rest).
  assert (Hs : s = String c1 (String c2 (String c3 (String c4
                 (y +:+ String "-" (String m1 (String m2 (String "-" (String d1 (String d2 rest)))))))))).
  { reflexivity. }
  rewrite Hs at 1. cbn [rep_cls plus_cls]. rewrite H1, H2, H3, H4.
  apply star_cls_greedy; [assumption|reflexivity|].
  rewrite date_tail_match. cbn [Ascii.eqb Bool.eqb andb]. rewrite Hm, Hd.
  cbn [andb].
  assert (Hy : s = String c1 (String c2 (String c3 (String c4 y))) +:+
                 String "-" (String m1 (String m2 (String "-" (String d1 (String d2 rest)))))).
  { reflexivity. }
  replace (4 + String.length y)%nat with
    (String.length (String c1 (String c2 (String c3 (String c4 y))))) by reflexivity.
  rewrite Nat.sub_0_r.
  rewrite Hy. rewrite substring_prefix, !substring_app_skip.
  cbn [substring]. now rewrite !substring_0_0.
Qed.

Lemma date_match_sound s g :
  re_match DATE_FORMAT_RE s = Some g ->
  exists y m d, accepted_date s y m d /\ g = [("day", d); ("month", m); ("year", y)].
Proof.
  rewrite date_match_unfold. intros H.
  apply rep_cls_inv in H as (pre & s1 & Hs & Hlen & Hpre & H).
  unfold plus_cls in H. destruct s1 as [|c s1]; [discriminate|].
  destruct (digit c) eqn:Hc; [|discriminate].
  apply star_cls_inv in H as (pre2 & post & -> & Hpre2 & H).
  set (y := pre +:+ String c pre2).
  assert (Hly : (S (0 + 3) + String.length pre2)%nat = String.length y).
  { unfold y. rewrite length_append. simpl. lia. }
  rewrite Hly, Nat.sub_0_r in H.
  rewrite date_tail_match in H.
  destruct post as [|a [|m1 [|m2 [|b [|d1 [|d2 rest]]]]]]; try discriminate.
  destruct (Ascii.eqb "-" a && month_chars m1 m2 && Ascii.eqb "-" b && day_chars d1 d2) eqn:E;
    [|discriminate].
  apply andb_prop in E as [E Hd]. apply andb_prop in E as [E Hb].
  apply andb_prop in E as [Ha Hm].
  apply Ascii.eqb_eq in Ha, Hb. subst a b.
  assert (Hsy : s = y +:+ String "-" (String m1 (String m2 (String "-" (String d1 (String d2 rest)))))).
  { rewrite Hs. unfold y. now rewrite append_assoc, append_cons. }
  exists y, (String m1 (String m2 "")), (String d1 (String d2 "")). split.
  - exists rest. repeat split.
    + exact Hsy.
    + lia.
    + apply all_digits_spec. unfold y. rewrite all_chars_app. simpl.
      now rewrite Hpre, Hc, Hpre2.
    + now apply month_chars_spec.
    + now apply day_chars_spec.
  - injection H as <-.
    rewrite Hsy. rewrite substring_prefix, !substring_app_skip.
    cbn [substring]. now rewrite !substring_0_0.
Qed.


(** ** [validate_map_info] *)

(** The sample document is found flawless. *)
Lemma sample_map_info_is_valid :
  validate_map_info sample_license_check sample_now sample_map_info true
                    default_warning_options
  = Ok {| warnings := []; errors := []; passedFormatChecks := true;
          errors_non_fatal := [] |}.
Proof. vm_compute. reflexivity. Qed.

(** C1.  A map info whose ['name'] is the empty string and which is
    otherwise flawless is returned with an empty [errors] list (and no
    other finding): the name rule of the publication rules is not
    enforced on an empty name. *)
Theorem empty_name_passes_validation :
  Py.dict_get "name" (dict_set "name" (JStr "") sample_map_info) = Some (JStr "")
  /\ validate_map_info sample_license_check sample_now
       (dict_set "name" (JStr "") sample_map_info) true default_warning_options
     = Ok {| warnings := []; errors := []; passedFormatChecks := true;
             errors_non_fatal := [] |}.
Proof. split; vm_compute; reflexivity. Qed.

(** A document with no ['name'] key is not given a result at all. *)
Lemma missing_name_raises :
  validate_map_info sample_license_check sample_now
    (dict_del "name" sample_map_info) true default_warning_options
  = Raise (KeyError "name").
Proof. vm_compute. reflexivity. Qed.

(** C4.  A ['created'] date that matches the pattern and lies before 1999,
    or more than one day after now, makes [validate_map_info] raise
    [TypeError]: no finding is appended and no result is returned. *)
Theorem created_out_of_range_raises_TypeError :
  (exists y m d, accepted_date "1998-05-17" y m d)
  /\ validate_map_info sample_license_check sample_now
       (dict_set "created" (JStr "1998-05-17") sample_map_info) true
       default_warning_options
     = Raise TypeError
  /\ (exists y m d, accepted_date "2024-01-03" y m d)
  /\ validate_map_info sample_license_check sample_now
       (dict_set "created" (JStr "2024-01-03") sample_map_info) true
       default_warning_options
     = Raise TypeError.
Proof.
  repeat split; try (vm_compute; reflexivity).
  - exists "1998", "05", "17", "". repeat split; try (vm_compute; tauto).
    + simpl. lia.
    + repeat constructor; vm_compute; tauto.
  - exists "2024", "01", "03", "". repeat split; try (vm_compute; tauto).
    + simpl. lia.
    + repeat constructor; vm_compute; tauto.
Qed.

(** ** [convert_map_info_json_to_map_database_json] *)

(** The example of the specification: primary author A, additional
    authors A, B, B. *)
Lemma authors_A_ABB :
  convert_authors (sample_with_authors "A" ["A"; "B"; "B"])
  = Ok (Some (JList [JStr "A"; JStr "B"])).
Proof. vm_compute. reflexivity. Qed.

(** C2.  With the primary author "Al" and the additional author "Al", the
    author list of the record is ["Al", "Al"]: the additional author is
    not recognised as the primary author (the set of authors seen starts
    as the set of the characters of the primary name). *)
Theorem primary_author_listed_twice :
  convert_authors (sample_with_authors "Al" ["Al"])
  = Ok (Some (JList [JStr "Al"; JStr "Al"]))
  /\ exists record,
       convert_map_info_json_to_map_database_json (sample_with_authors "Al" ["Al"])
       = Ok record
       /\ Py.dict_get "author" record = Some (JList [JStr "Al"; JStr "Al"]).
Proof.
  split; [vm_compute; reflexivity|].
  eexists. split; [vm_compute; reflexivity|]. vm_compute. reflexivity.
Qed.

(** An additional author whose name is one character of the primary name
    is dropped. *)
Lemma author_named_by_a_letter_is_dropped :
  convert_authors (sample_with_authors "Al" ["l"; "Bo"])
  = Ok (Some (JList [JStr "Al"; JStr "Bo"])).
Proof. vm_compute. reflexivity. Qed.

(** ** The HQ-coverage check *)









(** ** The paginated index *)

Section IndexLemmas.
Variable gmtime : nat -> string.
Variable map_db_urls : MapDBPublicURLPaths.
Variable max_maps_per_index_file : Z.



End IndexLemmas.

(** Seven records appended to an empty index at a capacity of three:
    pages of 3, 3 and 1 records, chained by their links. *)
Lemma seven_records_on_three_pages :
  let run :=
    add_to_mapdatabase_index sample_gmtime sample_urls 3 10 (sample_records 7) empty_mapdb in
  ended_ok run
  /\ page_sizes (final_state run empty_mapdb) = [3; 3; 1]%nat
  /\ page_links (final_state run empty_mapdb)
     = [ ("/api/v1/full.json", None, Some "/api/v1/full/page/2.json");
         ("/api/v1/full/page/2.json", Some "/api/v1/full.json",
          Some "/api/v1/full/page/3.json");
         ("/api/v1/full/page/3.json", Some "/api/v1/full/page/2.json", None) ].
Proof. vm_conj. Qed.

(** C3.  One record is appended to an empty index, then 3000 more, at the
    default capacity of 3000: both calls end, and page 1, the only page,
    then holds 3001 records.  The count of records already on the page
    ([num_maps_in_page]) is computed and never used. *)
Theorem page_filled_past_capacity :
  let first :=
    add_to_mapdatabase_index sample_gmtime sample_urls DEFAULT_MAX_MAPS_PER_INDEX_FILE
      1 (sample_records 1) empty_mapdb in
  let db1 := final_state first empty_mapdb in
  let second :=
    add_to_mapdatabase_index sample_gmtime sample_urls DEFAULT_MAX_MAPS_PER_INDEX_FILE
      1 (sample_records 3000) db1 in
  let db2 := final_state second empty_mapdb in
  ended_ok first /\ page_sizes db1 = [1]%nat
  /\ ended_ok second /\ page_sizes db2 = [3001]%nat.
Proof. vm_conj. Qed.

(** ** The map-list validation command *)

Lemma no_failing_maps (vd : list (string * MapValidationDetails)) :
  length (List.filter (fun kv => negb (passed_validation (snd kv))) vd) = 0%nat
  <-> Forall (fun kv => passed_validation (snd kv) = true) vd.
Proof.
  induction vd as [|kv vd IH]; simpl.
  - split; [constructor | reflexivity].
  - destruct (passed_validation (snd kv)) eqn:E; simpl.
    + rewrite IH. split; [now constructor | intros H; now inversion H].
    + split; [discriminate | intros H; inversion H; congruence].
Qed.

(** The value handed to [exit] is 0 exactly when at least one map was
    validated and every validated map passed; the maps that could not be
    processed play no part in it. *)
Lemma validate_repo_map_list_zero license_check now probe map_path_list conflict expected :
  validate_repo_map_list license_check now probe map_path_list conflict expected = Ok 0%Z
  <-> exists validation_details maps_failed_processing,
        validate_paths license_check now probe map_path_list conflict expected ([], [])
        = Ok (validation_details, maps_failed_processing)
        /\ validation_details <> []
        /\ Forall (fun kv => passed_validation (snd kv) = true) validation_details.
Proof.
  unfold validate_repo_map_list.
  destruct (validate_paths license_check now probe map_path_list conflict expected ([], []))
    as [[vd mf]|e]; simpl.
  - split.
    + intros H. exists vd, mf. split; [reflexivity|].
      destruct vd as [|kv vd']; [simpl in H; discriminate|].
      split; [discriminate|].
      apply no_failing_maps.
      destruct (Z.of_nat (length (kv :: vd')) >? 0)%Z eqn:E.
      * injection H as H. cbn [List.filter]. lia.
      * rewrite Z.gtb_ltb in E. apply Z.ltb_ge in E. cbn [length] in E. lia.
    + intros (vd' & mf' & Heq & Hne & Hall). injection Heq as <- <-.
      destruct vd as [|kv vd']; [congruence|].
      apply no_failing_maps in Hall. rewrite Hall.
      destruct (Z.of_nat (length (kv :: vd')) >? 0)%Z eqn:E; [reflexivity|].
      rewrite Z.gtb_ltb in E. apply Z.ltb_ge in E. cbn [length] in E. lia.
  - split; [discriminate|]. intros (vd & mf & H & _). discriminate.
Qed.

(** C9.  A map list with one passing map and one map that could not be
    processed: [validate_repo_map_list] hands 0 to [exit], while
    [print_multi_map_validation_details], whose value it drops, reports
    the run as failed (1). *)
Theorem unprocessable_map_exits_zero :
  validate_repo_map_list sample_license_check sample_now sample_probe
    ["maps/Sk-Rush"; "maps/Broken"] true (Some 4%Z) = Ok 0%Z
  /\ exists validation_details maps_failed_processing,
       validate_paths sample_license_check sample_now sample_probe
         ["maps/Sk-Rush"; "maps/Broken"] true (Some 4%Z) ([], [])
       = Ok (validation_details, maps_failed_processing)
       /\ map fst validation_details = ["maps/Sk-Rush"]
       /\ map fst maps_failed_processing = ["maps/Broken"]
       /\ print_multi_map_validation_details validation_details maps_failed_processing = 1%Z.
Proof.
  split; [vm_compute; reflexivity|].
  eexists. eexists. split; [vm_compute; reflexivity|].
  repeat split; vm_compute; reflexivity.
Qed.

(** With nothing to validate the value is 1. *)
Lemma empty_map_list_exits_one license_check now probe conflict expected :
  validate_repo_map_list license_check now probe [] conflict expected = Ok 1%Z.
Proof. reflexivity. Qed.

(** ** The release builder *)

Lemma in_release_list_In tag l : in_release_list tag l = true <-> In tag l.
Proof.
  unfold in_release_list. rewrite existsb_exists. split.
  - intros (x & Hx & He). apply String.eqb_eq in He. now subst.
  - intros H. exists tag. split; [assumption | apply String.eqb_refl].
Qed.

Lemma maps_frame_refl b : maps_frame b b.
Proof. unfold maps_frame. auto 10. Qed.

Lemma maps_frame_trans b1 b2 b3 : maps_frame b1 b2 -> maps_frame b2 b3 -> maps_frame b1 b3.
Proof.
  intros (Ht & Hl & Hj & Hs & Hc & Ho) (Ht' & Hl' & Hj' & Hs' & Hc' & Ho').
  unfold maps_frame.
  split; [congruence|]. split; [congruence|]. split; [congruence|].
  split; [congruence|]. split.
  - intros t. now rewrite Hc', Hc.
  - intros t Hne. rewrite Ho' by congruence. now apply Ho.
Qed.

Lemma count_asset_frame b b' : count_asset b = Ok b' -> maps_frame b b'.
Proof.
  unfold count_asset, release_of.
  destruct (releasesGeneratedThisRun b !! MAP_REPO_NEW_RELEASE_TAGNAME b) as [e|] eqn:E;
    simpl; [|discriminate].
  intros H. injection H as <-. unfold maps_frame, commits_of. simpl.
  split; [reflexivity|]. split; [reflexivity|]. split; [reflexivity|].
  split; [reflexivity|]. split.
  - intros t. destruct (decide (MAP_REPO_NEW_RELEASE_TAGNAME b = t)) as [<-|Hne].
    + now rewrite lookup_insert_eq, E.
    + now rewrite lookup_insert_ne.
  - intros t Hne. now rewrite lookup_insert_ne.
Qed.

Section BuilderLemmas.
Variable license_check : json -> license_verdict.
Variable now : datetime_t.
Variable get_changed_folders_in_commit : string -> list string.
Variable maptools_package_info : string -> Z * pydict.
Variable compress_map_folder : string -> option string -> archive.
Variable sha256 : archive -> string.
Variable random_salt : nat -> string.
Variable output_folder : string.
Variable max_assets_per_release : Z.

(** No collision is ever reported, so the salt loop ends at once, whatever
    its bound, and draws no salt. *)
Lemma repackage_never_runs fuel folder path h b :
  repackage_while_collision compress_map_folder sha256 random_salt fuel folder path (false, h) b
  = Some (Ok b).
Proof. destruct fuel; reflexivity. Qed.

Lemma map_has_hash_collision_false files path r :
  map_has_hash_collision sha256 files path = Ok r -> fst r = false.
Proof.
  unfold map_has_hash_collision. destruct (files !! path); [|discriminate].
  intros H. now injection H as <-.
Qed.

(** Packaging one map ends, whatever the bound of the salt loop. *)
Lemma process_map_ends fuel repo folder b :
  exists r,
    process_map license_check now maptools_package_info compress_map_folder sha256
      random_salt output_folder fuel repo folder b = Some r.
Proof.
  unfold process_map, obind, lift.
  destruct (maptools_package_info (path_join [repo; folder])) as [rc info].
  destruct (negb (rc =? 0)%Z); [eauto|].
  destruct (validate_map_info _ _ _ _ _) as [v|e]; [|eauto].
  destruct (_ >? 0)%Z; [eauto|].
  destruct (Py.dict_item info "players") as [players|e]; [|eauto].
  destruct (Py.dict_item info "name") as [name|e]; [|eauto].
  destruct (re_sub_clean name) as [clean|e]; [|eauto].
  unfold map_has_hash_collision. simpl. rewrite lookup_insert_eq.
  rewrite repackage_never_runs. eauto.
Qed.

(** Packaging one map leaves the frame alone and draws no salt. *)
Lemma process_map_frame fuel repo folder b b' :
  process_map license_check now maptools_package_info compress_map_folder sha256
    random_salt output_folder fuel repo folder b = Some (Ok b') ->
  maps_frame b b'.
Proof.
  unfold process_map, obind, lift.
  destruct (maptools_package_info (path_join [repo; folder])) as [rc info].
  destruct (negb (rc =? 0)%Z).
  { intros H. injection H as <-. apply maps_frame_refl. }
  destruct (validate_map_info _ _ _ _ _) as [v|e]; [|discriminate].
  destruct (_ >? 0)%Z.
  { intros H. injection H as <-. apply maps_frame_refl. }
  destruct (Py.dict_item info "players") as [players|e]; [|discriminate].
  destruct (Py.dict_item info "name") as [name|e]; [|discriminate].
  destruct (re_sub_clean name) as [clean|e]; [|discriminate].
  unfold map_has_hash_collision. simpl. rewrite lookup_insert_eq.
  rewrite repackage_never_runs.
  intros H. injection H as H. apply count_asset_frame in H.
  destruct H as (Ht & Hl & Hj & Hs & Hc & Ho). unfold maps_frame. simpl in *.
  auto 10.
Qed.

Lemma process_maps_frame fuel repo folders b b' :
  process_maps license_check now maptools_package_info compress_map_folder sha256
    random_salt output_folder fuel repo folders b = Some (Ok b') ->
  maps_frame b b'.
Proof.
  revert b. induction folders as [|f rest IH]; intros b; simpl.
  - intros H. injection H as <-. apply maps_frame_refl.
  - unfold obind at 1.
    destruct (process_map _ _ _ _ _ _ _ _ _ _ _) as [[b1|e]|] eqn:E; try discriminate.
    intros H. apply process_map_frame in E. apply IH in H.
    eapply maps_frame_trans; eassumption.
Qed.

Lemma process_maps_ends fuel repo folders b :
  exists r,
    process_maps license_check now maptools_package_info compress_map_folder sha256
      random_salt output_folder fuel repo folders b = Some r.
Proof.
  revert b. induction folders as [|f rest IH]; intros b; simpl; [eauto|].
  destruct (process_map_ends fuel repo f b) as ([b1|e] & ->); simpl; eauto.
Qed.

(** No run draws a salt: every archive is packaged without one. *)
Lemma process_commit_ends fuel repo commit b :
  exists r,
    process_commit license_check now get_changed_folders_in_commit maptools_package_info
      compress_map_folder sha256 random_salt output_folder max_assets_per_release
      fuel repo commit b = Some r.
Proof.
  unfold process_commit.
  destruct (map_folders (get_changed_folders_in_commit commit)) as [|f fs]; [eauto|].
  unfold obind, lift.
  destruct (start_commit _ _ _) as [b1|e]; [|eauto].
  destruct (record_commit _ _) as [b2|e]; [|eauto].
  destruct (process_maps_ends fuel repo (f :: fs) b2) as ([b3|e] & ->); eauto.
Qed.

End BuilderLemmas.

Lemma final_state_ok {A} (r : option (result A)) (b0 : A) :
  ended_ok r -> r = Some (Ok (final_state r b0)).
Proof. destruct r as [[b|e]|]; simpl; intros H; now try destruct H. Qed.

Lemma start_commit_spec cap folders b b1 e :
  releasesGeneratedThisRun b !! MAP_REPO_NEW_RELEASE_TAGNAME b = Some e ->
  start_commit cap folders b = Ok b1 ->
  if over_cap cap (assets e) folders then
    exists t',
      next_release_tagname (MAP_REPO_NEW_RELEASE_TAGNAME b) = Ok t'
      /\ MAP_REPO_NEW_RELEASE_TAGNAME b1 = t'
      /\ In (MAP_REPO_NEW_RELEASE_TAGNAME b) (releaseList b1)
      /\ releasesGeneratedThisRun b1
         = <[t' := {| commits := []; assets := 0 |}]> (releasesGeneratedThisRun b)
  else b1 = b.
Proof.
  intros He. unfold start_commit, release_of, over_cap. rewrite He. simpl.
  destruct ((assets e >? 0)%Z && (Z.of_nat (length folders) + assets e >? cap)%Z);
    [|intros H; now injection H as <-].
  unfold generate_next_release_details.
  destruct (in_release_list (MAP_REPO_NEW_RELEASE_TAGNAME b) (releaseList b)) eqn:Hin; simpl;
    destruct (next_release_tagname (MAP_REPO_NEW_RELEASE_TAGNAME b)) as [t'|err];
    simpl; try discriminate; intros H; injection H as <-; exists t'; simpl;
    (split; [reflexivity|]); (split; [reflexivity|]); (split; [|reflexivity]).
  - now apply in_release_list_In.
  - apply in_or_app. right. now left.
Qed.

Lemma record_commit_spec commit b b2 :
  record_commit commit b = Ok b2 ->
  exists e,
    releasesGeneratedThisRun b !! MAP_REPO_NEW_RELEASE_TAGNAME b = Some e
    /\ MAP_REPO_NEW_RELEASE_TAGNAME b2 = MAP_REPO_NEW_RELEASE_TAGNAME b
    /\ releaseList b2 = releaseList b
    /\ releasesGeneratedThisRun b2
       = <[MAP_REPO_NEW_RELEASE_TAGNAME b :=
             {| commits := (commits e ++ [commit])%list; assets := assets e |}]>
           (releasesGeneratedThisRun b).
Proof.
  unfold record_commit, release_of.
  destruct (releasesGeneratedThisRun b !! MAP_REPO_NEW_RELEASE_TAGNAME b) as [e|];
    simpl; [|discriminate].
  intros H. injection H as <-. exists e. auto.
Qed.

Lemma finish_commit_spec commit b b4 :
  finish_commit commit b = Ok b4 ->
  MAP_REPO_NEW_RELEASE_TAGNAME b4 = MAP_REPO_NEW_RELEASE_TAGNAME b
  /\ releasesGeneratedThisRun b4 = releasesGeneratedThisRun b
  /\ (forall t, In t (releaseList b) -> In t (releaseList b4)).
Proof.
  unfold finish_commit, release_of. simpl.
  destruct (releasesGeneratedThisRun b !! MAP_REPO_NEW_RELEASE_TAGNAME b) as [e|];
    simpl; [|discriminate].
  destruct ((assets e >? 0)%Z && _); intros H; injection H as <-; simpl.
  - split; [reflexivity|]. split; [reflexivity|]. intros t Ht. apply in_or_app. now left.
  - auto.
Qed.

(** C6.  A commit that changes map folders seals the current release and
    starts the release of the next major version exactly when the current
    release has an asset and the commit's changed map folders would push
    it over the cap: then the old tag is on the release list and the
    commit is the first of the new release; otherwise the tag stays and
    the commit joins the current release.  A commit that changes no map
    folder changes nothing.  At a cap of 100, one commit with 150 new maps
    gives the single release v1 with 150 assets, and a following commit
    with a new map starts v2. *)
Theorem release_sealed_exactly_when :
  (forall license_check now get_changed_folders_in_commit maptools_package_info
          compress_map_folder sha256 random_salt output_folder max_assets_per_release
          fuel repo commit b b' e,
     map_folders (get_changed_folders_in_commit commit) <> [] ->
     releasesGeneratedThisRun b !! MAP_REPO_NEW_RELEASE_TAGNAME b = Some e ->
     process_commit license_check now get_changed_folders_in_commit maptools_package_info
       compress_map_folder sha256 random_salt output_folder max_assets_per_release
       fuel repo commit b = Some (Ok b') ->
     if over_cap max_assets_per_release (assets e)
          (map_folders (get_changed_folders_in_commit commit))
     then
       exists t',
         next_release_tagname (MAP_REPO_NEW_RELEASE_TAGNAME b) = Ok t'
         /\ MAP_REPO_NEW_RELEASE_TAGNAME b' = t'
         /\ In (MAP_REPO_NEW_RELEASE_TAGNAME b) (releaseList b')
         /\ commits_of t' b' = Some [commit]
     else
       MAP_REPO_NEW_RELEASE_TAGNAME b' = MAP_REPO_NEW_RELEASE_TAGNAME b
       /\ commits_of (MAP_REPO_NEW_RELEASE_TAGNAME b) b' = Some (commits e ++ [commit])%list)
  /\ (forall license_check now get_changed_folders_in_commit maptools_package_info
             compress_map_folder sha256 random_salt output_folder max_assets_per_release
             fuel repo commit b,
        map_folders (get_changed_folders_in_commit commit) = [] ->
        process_commit license_check now get_changed_folders_in_commit maptools_package_info
          compress_map_folder sha256 random_salt output_folder max_assets_per_release
          fuel repo commit b = Some (Ok b))
  /\ (ended_ok (sample_run ["c1"])
      /\ length (map_folders (sample_changed_folders "c1")) = 150%nat
      /\ let b := final_state (sample_run ["c1"]) empty_builder in
         releaseList b = ["v1"]
         /\ MAP_REPO_NEW_RELEASE_TAGNAME b = "v1"
         /\ assets_of "v1" b = Some 150%Z
         /\ size (archives b) = 150%nat
         /\ release_json b !! "v1" = Some ("c1", ["c1"]))
  /\ (ended_ok (sample_run ["c1"; "c2"])
      /\ let b := final_state (sample_run ["c1"; "c2"]) empty_builder in
         releaseList b = ["v1"; "v2"]
         /\ MAP_REPO_NEW_RELEASE_TAGNAME b = "v2"
         /\ assets_of "v1" b = Some 150%Z
         /\ assets_of "v2" b = Some 1%Z
         /\ release_json b !! "v1" = Some ("c1", ["c1"])
         /\ release_json b !! "v2" = Some ("c2", ["c2"])).
Proof.
  split; [|split; [|split]].
  - intros lic now changed maptools compress sha salt out cap fuel repo commit b b' e
           Hne He Hrun.
    unfold process_commit in Hrun.
    destruct (map_folders (changed commit)) as [|f fs] eqn:Ef; [congruence|].
    unfold obind, lift in Hrun.
    destruct (start_commit cap (f :: fs) b) as [b1|err] eqn:Hstart; [|discriminate].
    destruct (record_commit commit b1) as [b2|err] eqn:Hrec; [|discriminate].
    destruct (process_maps _ _ _ _ _ _ _ _ _ _ _) as [[b3|err]|] eqn:Hmaps;
      try discriminate.
    injection Hrun as Hfin.
    apply (start_commit_spec _ _ _ _ e He) in Hstart.
    apply record_commit_spec in Hrec as (e1 & He1 & Ht2 & Hl2 & Hr2).
    apply process_maps_frame in Hmaps as (Ht3 & Hl3 & _ & _ & Hc3 & _).
    apply finish_commit_spec in Hfin as (Ht4 & Hr4 & Hl4).
    destruct (over_cap cap (assets e) (f :: fs)).
    + destruct Hstart as (t' & Hnext & Ht1 & Hin & Hr1).
      exists t'. split; [exact Hnext|]. split; [congruence|]. split.
      * apply Hl4. rewrite Hl3, Hl2. exact Hin.
      * unfold commits_of in *. rewrite Hr4, Hc3, Hr2, Ht1, lookup_insert_eq. simpl.
        rewrite Hr1, Ht1, lookup_insert_eq in He1. now injection He1 as <-.
    + subst b1. split; [congruence|].
      unfold commits_of in *. rewrite Hr4, Hc3, Hr2, lookup_insert_eq. simpl.
      congruence.
  - intros lic now changed maptools compress sha salt out cap fuel repo commit b Hnil.
    unfold process_commit. now rewrite Hnil.
  - vm_conj.
  - vm_conj.
Qed.

Lemma release_sealed_exactly_when_witness :
  let b := final_state (sample_run ["c1"]) empty_builder in
  let b' :=
    final_state
      (process_commit sample_license_check sample_now sample_changed_folders
         sample_maptools sample_compress sample_sha256 sample_salt "out" 100 0 "repo"
         "c2" b)
      empty_builder in
  if over_cap 100 (assets {| commits := ["c1"]; assets := 150 |})
       (map_folders (sample_changed_folders "c2"))
  then
    exists t',
      next_release_tagname (MAP_REPO_NEW_RELEASE_TAGNAME b) = Ok t'
      /\ MAP_REPO_NEW_RELEASE_TAGNAME b' = t'
      /\ In (MAP_REPO_NEW_RELEASE_TAGNAME b) (releaseList b')
      /\ commits_of t' b' = Some ["c2"]
  else
    MAP_REPO_NEW_RELEASE_TAGNAME b' = MAP_REPO_NEW_RELEASE_TAGNAME b
    /\ commits_of (MAP_REPO_NEW_RELEASE_TAGNAME b) b'
       = Some (commits {| commits := ["c1"]; assets := 150 |} ++ ["c2"])%list.
Proof.
  intros b b'.
  refine (proj1 release_sealed_exactly_when
            sample_license_check sample_now sample_changed_folders sample_maptools
            sample_compress sample_sha256 sample_salt "out" 100%Z 0%nat "repo" "c2" b b'
            {| commits := ["c1"]; assets := 150 |} _ _ _).
  - vm_compute. discriminate.
  - vm_compute. reflexivity.
  - refine (final_state_ok _ empty_builder _). vm_compute. exact I.
Defined.

(** C5.  The map folder [maps/Sk-Rush/] is changed by two commits and the
    cap is one asset per release: whatever the packager, the hash and the
    salt source are, and whatever the bound of the salt loop, the run
    ends with the releases v1 and v2, each holding the archive of the
    folder packaged without salt.  The two archives are equal byte for
    byte, [map_has_hash_collision] reports no collision with the same
    hash for both, and no salt was drawn. *)
Theorem same_map_twice_same_hash :
  forall (compress_map_folder : string -> option string -> archive)
         (sha256 : archive -> string) (random_salt : nat -> string) (fuel : nat),
  exists b,
    generate_releases_for_maprepo sample_license_check sample_now twice_changed_folders
      same_maptools compress_map_folder sha256 random_salt "out" 1 fuel "repo"
      ["c1"; "c2"] "v0" = Some (Ok b)
    /\ releaseList b = ["v1"; "v2"]
    /\ archives b !! "out/v1/assets/4p-Sk-Rush.wz"
       = Some (compress_map_folder "repo/maps/Sk-Rush/" None)
    /\ archives b !! "out/v2/assets/4p-Sk-Rush.wz"
       = Some (compress_map_folder "repo/maps/Sk-Rush/" None)
    /\ map_has_hash_collision sha256 (archives b) "out/v1/assets/4p-Sk-Rush.wz"
       = Ok (false, sha256 (compress_map_folder "repo/maps/Sk-Rush/" None))
    /\ map_has_hash_collision sha256 (archives b) "out/v2/assets/4p-Sk-Rush.wz"
       = Ok (false, sha256 (compress_map_folder "repo/maps/Sk-Rush/" None))
    /\ salts_drawn b = 0%nat.
Proof.
  intros compress sha salt fuel.
  exists (final_state
            (generate_releases_for_maprepo sample_license_check sample_now
               twice_changed_folders same_maptools compress sha salt "out" 1 fuel "repo"
               ["c1"; "c2"] "v0") empty_builder).
  destruct fuel; vm_conj.
Qed.

(** ** [validate_map_info]: what holds of every document *)

Lemma errors_grow_refl st : errors_grow st st.
Proof. exists []. now rewrite app_nil_r. Qed.

Lemma errors_grow_trans st1 st2 st3 :
  errors_grow st1 st2 -> errors_grow st2 st3 -> errors_grow st1 st3.
Proof.
  intros [a Ha] [b Hb]. exists (a ++ b)%list. now rewrite Hb, Ha, app_assoc.
Qed.

Lemma errors_grow_warn st st' f : errors_grow st st' -> errors_grow st (warn f st').
Proof. intros [a Ha]. now exists a. Qed.

Lemma errors_grow_warn_if st st' o f : errors_grow st st' -> errors_grow st (warn_if o f st').
Proof. destruct o; simpl; [apply errors_grow_warn | auto]. Qed.

Lemma errors_grow_error st st' f : errors_grow st st' -> errors_grow st (error f st').
Proof. intros [a Ha]. exists (a ++ [f])%list. simpl. now rewrite Ha, app_assoc. Qed.

Lemma errors_grow_error_non_fatal st st' f :
  errors_grow st st' -> errors_grow st (error_non_fatal f st').
Proof. intros [a Ha]. now exists a. Qed.

Lemma errors_grow_fail_format st st' : errors_grow st st' -> errors_grow st (fail_format st').
Proof. intros [a Ha]. now exists a. Qed.

Lemma errors_grow_failed_format_check st st' enforce opts f :
  errors_grow st st' -> errors_grow st (failed_format_check enforce opts f st').
Proof.
  intros H. unfold failed_format_check. destruct enforce.
  - now apply errors_grow_error, errors_grow_fail_format.
  - now apply errors_grow_warn_if, errors_grow_fail_format.
Qed.

Create HintDb grow.
#[local] Hint Resolve errors_grow_refl errors_grow_warn errors_grow_warn_if errors_grow_error
  errors_grow_error_non_fatal errors_grow_fail_format errors_grow_failed_format_check : grow.

Lemma errors_grow_nonempty st st' f :
  errors_grow (error f st) st' -> v_errors st' <> [].
Proof.
  intros [a Ha]. rewrite Ha. simpl. destruct (v_errors st); discriminate.
Qed.

Section ChecksGrow.
Variable license_check : json -> license_verdict.
Variable now : datetime_t.
Variable map_info_json : pydict.
Variable enforce_format_checks : bool.
Variable warning_options : ValidateMapWarningOptions.

Lemma check_name_grows st st' :
  check_name map_info_json warning_options st = Ok st' -> errors_grow st st'.
Proof. unfold check_name. intros H. ok_cases; split_ifs; auto 8 with grow. Qed.

Lemma check_type_grows st st' :
  check_type map_info_json st = Ok st' -> errors_grow st st'.
Proof. unfold check_type. intros H. ok_cases; split_ifs; auto 8 with grow. Qed.

Lemma check_players_grows st st' :
  check_players map_info_json st = Ok st' -> errors_grow st st'.
Proof. unfold check_players. intros H. ok_cases; split_ifs; auto 8 with grow. Qed.

Lemma check_tileset_grows st st' :
  check_tileset map_info_json st = Ok st' -> errors_grow st st'.
Proof. unfold check_tileset. intros H. ok_cases; split_ifs; auto 8 with grow. Qed.

Lemma check_license_grows st st' valid :
  check_license license_check map_info_json st = Ok (st', valid) -> errors_grow st st'.
Proof. unfold check_license. intros H. ok_cases; split_ifs; auto 8 with grow. Qed.

Lemma check_author_grows valid st st' :
  check_author map_info_json valid st = Ok st' -> errors_grow st st'.
Proof. unfold check_author. intros H. ok_cases; split_ifs; auto 8 with grow. Qed.

Lemma check_created_grows st st' :
  check_created now map_info_json warning_options st = Ok st' -> errors_grow st st'.
Proof.
  unfold check_created, append_two_arguments. intros H. ok_cases; split_ifs; auto 8 with grow.
Qed.

Lemma check_mapsize_grows st st' :
  check_mapsize map_info_json st = Ok st' -> errors_grow st st'.
Proof. unfold check_mapsize. intros H. ok_cases; split_ifs; auto 8 with grow. Qed.

Lemma check_oil_grows st st' :
  check_oil map_info_json warning_options st = Ok st' -> errors_grow st st'.
Proof. unfold check_oil. intros H. ok_cases; split_ifs; auto 8 with grow. Qed.

Lemma check_hq_slot_grows player_hqs i st st' :
  check_hq_slot player_hqs i st = Ok st' -> errors_grow st st'.
Proof.
  unfold check_hq_slot, try_except_Index_Type. intros H. ok_cases; split_ifs; auto 8 with grow.
Qed.

Lemma check_hq_slots_grows player_hqs indices st st' :
  check_hq_slots player_hqs indices st = Ok st' -> errors_grow st st'.
Proof.
  revert st. induction indices as [|i rest IH]; intros st H; simpl in H.
  - injection H as <-. apply errors_grow_refl.
  - destruct (check_hq_slot player_hqs i st) as [st1|e] eqn:E; simpl in H; [|discriminate].
    eapply errors_grow_trans; [eapply check_hq_slot_grows; eassumption | now apply IH].
Qed.

Lemma check_hq_grows st st' :
  check_hq map_info_json st = Ok st' -> errors_grow st st'.
Proof.
  unfold check_hq. intros H.
  destruct (item map_info_json "players") as [p|e]; simpl in H; [|discriminate].
  destruct (Py.as_int p) as [n|e]; simpl in H; [|discriminate].
  destruct (n >=? 2)%Z; [|injection H as <-; apply errors_grow_refl].
  destruct (item map_info_json "hq") as [hqs|e]; simpl in H; [|discriminate].
  eapply check_hq_slots_grows; eassumption.
Qed.

Lemma check_player_structures_grows st st' :
  check_player_structures map_info_json warning_options st = Ok st' -> errors_grow st st'.
Proof.
  unfold check_player_structures. intros H. ok_cases; split_ifs; auto 8 with grow.
Qed.

Lemma check_mods_grows st st' :
  check_mods map_info_json warning_options st = Ok st' -> errors_grow st st'.
Proof. unfold check_mods. intros H. ok_cases; split_ifs; auto 8 with grow. Qed.

Lemma check_formats_grows st st' :
  check_formats map_info_json enforce_format_checks warning_options st = Ok st' ->
  errors_grow st st'.
Proof. unfold check_formats. intros H. ok_cases; split_ifs; auto 8 with grow. Qed.

End ChecksGrow.

Section ValidatorFacts.
Variable license_check : json -> license_verdict.
Variable now : datetime_t.
Variable map_info_json : pydict.
Variable enforce_format_checks : bool.
Variable warning_options : ValidateMapWarningOptions.

(** The first three rules of a run that returned, and what the later
    rules leave of them. *)
Lemma validate_map_info_steps r :
  validate_map_info license_check now map_info_json enforce_format_checks warning_options
  = Ok r ->
  exists st1 st2 st3 st,
    check_name map_info_json warning_options vstate0 = Ok st1
    /\ check_type map_info_json st1 = Ok st2
    /\ check_players map_info_json st2 = Ok st3
    /\ errors_grow st3 st
    /\ errors r = v_errors st.
Proof.
  unfold validate_map_info. intros H.
  destruct (check_name _ _ _) as [st1|] eqn:E1; simpl in H; [|discriminate].
  destruct (check_type _ _) as [st2|] eqn:E2; simpl in H; [|discriminate].
  destruct (check_players _ _) as [st3|] eqn:E3; simpl in H; [|discriminate].
  destruct (check_tileset _ _) as [st4|] eqn:E4; simpl in H; [|discriminate].
  destruct (check_license _ _ _) as [[st5 valid]|] eqn:E5; simpl in H; [|discriminate].
  destruct (check_author _ _ _) as [st6|] eqn:E6; simpl in H; [|discriminate].
  destruct (check_created _ _ _ _) as [st7|] eqn:E7; simpl in H; [|discriminate].
  destruct (check_mapsize _ _) as [st8|] eqn:E8; simpl in H; [|discriminate].
  destruct (check_oil _ _ _) as [st9|] eqn:E9; simpl in H; [|discriminate].
  destruct (check_hq _ _) as [st10|] eqn:E10; simpl in H; [|discriminate].
  destruct (check_player_structures _ _ _) as [st11|] eqn:E11; simpl in H; [|discriminate].
  destruct (check_mods _ _ _) as [st12|] eqn:E12; simpl in H; [|discriminate].
  destruct (check_formats _ _ _ _) as [st13|] eqn:E13; simpl in H; [|discriminate].
  injection H as <-. exists st1, st2, st3, st13.
  do 3 (split; [first [reflexivity | assumption]|]).
  split; [|reflexivity].
  apply check_tileset_grows in E4. apply check_license_grows in E5.
  apply check_author_grows in E6. apply check_created_grows in E7.
  apply check_mapsize_grows in E8. apply check_oil_grows in E9.
  apply check_hq_grows in E10. apply check_player_structures_grows in E11.
  apply check_mods_grows in E12. apply check_formats_grows in E13.
  repeat (eapply errors_grow_trans; [eassumption|]). apply errors_grow_refl.
Qed.

(** A ['type'] other than "skirmish" is an error of every result. *)
Lemma wrong_type_is_an_error ty r :
  Py.dict_get "type" map_info_json = Some ty ->
  Py.is_str "skirmish" ty = false ->
  validate_map_info license_check now map_info_json enforce_format_checks warning_options
  = Ok r ->
  errors r <> [].
Proof.
  intros Hty Hne H.
  apply validate_map_info_steps in H as (st1 & st2 & st3 & st & _ & H2 & H3 & Hg & ->).
  unfold check_type, item, Py.dict_item in H2. rewrite Hty in H2. simpl in H2.
  rewrite Hne in H2. simpl in H2. injection H2 as <-.
  apply check_players_grows in H3.
  eapply errors_grow_nonempty. eapply errors_grow_trans; eassumption.
Qed.

(** A ['players'] value outside 2..10 is an error of every result. *)
Lemma wrong_players_is_an_error players r :
  Py.dict_get "players" map_info_json = Some players ->
  Py.in_range players 2 11 = false ->
  validate_map_info license_check now map_info_json enforce_format_checks warning_options
  = Ok r ->
  errors r <> [].
Proof.
  intros Hp Hne H.
  apply validate_map_info_steps in H as (st1 & st2 & st3 & st & _ & _ & H3 & Hg & ->).
  unfold check_players, item, Py.dict_item in H3. rewrite Hp in H3. simpl in H3.
  rewrite Hne in H3. simpl in H3. injection H3 as <-.
  eapply errors_grow_nonempty. eassumption.
Qed.

(** A document with no ['name'] key gets no result: [KeyError]. *)
Lemma no_name_key_raises :
  Py.dict_get "name" map_info_json = None ->
  validate_map_info license_check now map_info_json enforce_format_checks warning_options
  = Raise (KeyError "name").
Proof.
  intros H. unfold validate_map_info, check_name, item, Py.dict_item. now rewrite H.
Qed.

(** A falsy ['name'] (the empty string, null) adds no finding. *)
Lemma falsy_name_is_no_finding name st :
  Py.dict_get "name" map_info_json = Some name ->
  Py.truthy name = false ->
  check_name map_info_json warning_options st = Ok st.
Proof.
  intros H Hf. unfold check_name, item, Py.dict_item. rewrite H. simpl. now rewrite Hf.
Qed.

(** A ['created'] date that matches the pattern and lies before 1999, or
    more than a day after now, makes the created-date check raise. *)
Lemma check_created_raises s y m d st :
  Py.dict_get "created" map_info_json = Some (JStr s) ->
  accepted_date s y m d ->
  (Py.int_of_digits y < 1999)%Z
  \/ (exists created_datetime,
        datetime (Py.int_of_digits y) (Py.int_of_digits m) (Py.int_of_digits d)
        = Ok created_datetime
        /\ (timedelta_days now created_datetime < -1)%Z) ->
  raised (check_created now map_info_json warning_options st).
Proof.
  intros Hc Hacc Hout.
  unfold check_created, Py.dict_has, item, Py.dict_item. rewrite Hc. simpl.
  unfold py_match. simpl. rewrite (date_match_accepts s y m d Hacc). simpl.
  destruct (datetime _ _ _) as [dt|e] eqn:Edt; simpl; [|exact I].
  unfold append_two_arguments.
  destruct (timedelta_days now dt <? -1)%Z eqn:Ed; simpl; [exact I|].
  destruct (Py.int_of_digits y <? 1999)%Z eqn:Ey; [exact I|].
  exfalso. apply Z.ltb_ge in Ed, Ey.
  destruct Hout as [Hy|(dt' & Hdt & Hd)]; [lia|].
  assert (dt' = dt) by congruence. subst. lia.
Qed.

(** Then [validate_map_info] raises, and returns no [errors] list. *)
Lemma created_out_of_range_raises s y m d :
  Py.dict_get "created" map_info_json = Some (JStr s) ->
  accepted_date s y m d ->
  (Py.int_of_digits y < 1999)%Z
  \/ (exists created_datetime,
        datetime (Py.int_of_digits y) (Py.int_of_digits m) (Py.int_of_digits d)
        = Ok created_datetime
        /\ (timedelta_days now created_datetime < -1)%Z) ->
  raised (validate_map_info license_check now map_info_json enforce_format_checks
            warning_options).
Proof.
  intros Hc Hacc Hout. unfold validate_map_info.
  destruct (check_name _ _ _) as [st1|]; simpl; [|exact I].
  destruct (check_type _ _) as [st2|]; simpl; [|exact I].
  destruct (check_players _ _) as [st3|]; simpl; [|exact I].
  destruct (check_tileset _ _) as [st4|]; simpl; [|exact I].
  destruct (check_license _ _ _) as [[st5 valid]|]; simpl; [|exact I].
  destruct (check_author _ _ _) as [st6|]; simpl; [|exact I].
  pose proof (check_created_raises s y m d st6 Hc Hacc Hout) as Hr.
  destruct (check_created _ _ _ _) as [st7|]; simpl; [destruct Hr | exact I].
Qed.

End ValidatorFacts.

Lemma accepted_1998_05_17 : accepted_date "1998-05-17" "1998" "05" "17".
Proof.
  exists "". split; [reflexivity|]. split; [simpl; lia|]. split.
  - repeat constructor; vm_compute; tauto.
  - split; vm_compute; tauto.
Qed.

Lemma wrong_type_is_an_error_witness :
  errors
    (final_state
       (Some (validate_map_info sample_license_check sample_now
                (dict_set "type" (JStr "campaign") sample_map_info) true
                default_warning_options))
       {| warnings := []; errors := []; passedFormatChecks := true;
          errors_non_fatal := [] |})
  <> [].
Proof.
  refine (wrong_type_is_an_error sample_license_check sample_now
            (dict_set "type" (JStr "campaign") sample_map_info) true
            default_warning_options (JStr "campaign") _ _ _ _).
  - reflexivity.
  - reflexivity.
  - vm_compute. reflexivity.
Defined.

Lemma wrong_players_is_an_error_witness :
  errors
    (final_state
       (Some (validate_map_info sample_license_check sample_now
                (dict_set "players" (JInt 11) sample_map_info) true
                default_warning_options))
       {| warnings := []; errors := []; passedFormatChecks := true;
          errors_non_fatal := [] |})
  <> [].
Proof.
  refine (wrong_players_is_an_error sample_license_check sample_now
            (dict_set "players" (JInt 11) sample_map_info) true
            default_warning_options (JInt 11) _ _ _ _).
  - reflexivity.
  - reflexivity.
  - vm_compute. reflexivity.
Defined.

Lemma no_name_key_raises_witness :
  validate_map_info sample_license_check sample_now (dict_del "name" sample_map_info)
    true default_warning_options
  = Raise (KeyError "name").
Proof.
  apply (no_name_key_raises sample_license_check sample_now
           (dict_del "name" sample_map_info) true default_warning_options).
  reflexivity.
Defined.

Lemma created_out_of_range_raises_witness :
  raised (validate_map_info sample_license_check sample_now
            (dict_set "created" (JStr "1998-05-17") sample_map_info) true
            default_warning_options).
Proof.
  apply (created_out_of_range_raises sample_license_check sample_now
           (dict_set "created" (JStr "1998-05-17") sample_map_info) true
           default_warning_options "1998-05-17" "1998" "05" "17").
  - reflexivity.
  - exact accepted_1998_05_17.
  - left. vm_compute. reflexivity.
Defined.

(** ** Pagination of an index that starts empty *)

Lemma chunks_fuel {A} (cap : nat) (l : list A) f1 f2 :
  (1 <= cap)%nat -> (length l <= f1)%nat -> (length l <= f2)%nat ->
  chunks f1 cap l = chunks f2 cap l.
Proof.
  intros Hc. revert f2 l. induction f1 as [|f1 IH]; intros f2 l H1 H2.
  - destruct l; [|simpl in H1; lia]. destruct f2; reflexivity.
  - destruct l as [|x l]; [destruct f2; reflexivity|].
    destruct f2 as [|f2]; [simpl in H2; lia|].
    cbn [chunks]. f_equal.
    assert (Hs : (length (skipn cap (x :: l)) <= length l)%nat).
    { rewrite length_skipn. simpl. lia. }
    simpl in H1, H2. apply IH; lia.
Qed.

Lemma chunks_concat {A} (cap : nat) (l : list A) fuel :
  (1 <= cap)%nat -> (length l <= fuel)%nat -> concat (chunks fuel cap l) = l.
Proof.
  intros Hc. revert l. induction fuel as [|fuel IH]; intros l Hl.
  - destruct l; [reflexivity | simpl in Hl; lia].
  - destruct l as [|x l]; [reflexivity|].
    cbn [chunks concat].
    rewrite IH; [apply firstn_skipn|].
    rewrite length_skipn. simpl in *. lia.
Qed.

Lemma chunks_bounded {A} (cap : nat) (l : list A) fuel :
  Forall (fun c => (1 <= length c <= cap)%nat) (chunks fuel cap l) \/ cap = 0%nat.
Proof.
  destruct cap as [|cap]; [now right|]. left.
  revert l. induction fuel as [|fuel IH]; intros l; [constructor|].
  destruct l as [|x l]; [constructor|].
  cbn [chunks]. constructor; [|apply IH].
  rewrite length_firstn. simpl. lia.
Qed.

(** The number of runs is the length divided by the capacity, rounded up. *)
Lemma chunks_length {A} (cap : nat) (l : list A) fuel :
  (1 <= cap)%nat -> (length l <= fuel)%nat ->
  length (chunks fuel cap l) = ((length l + cap - 1) / cap)%nat.
Proof.
  intros Hc. revert l. induction fuel as [|fuel IH]; intros l Hl.
  - destruct l; [|simpl in Hl; lia]. simpl.
    symmetry. apply Nat.div_small. lia.
  - destruct l as [|x l].
    + simpl. symmetry. apply Nat.div_small. lia.
    + cbn [chunks length]. rewrite IH by (rewrite length_skipn; simpl in *; lia).
      rewrite length_skipn. cbn [length].
      destruct (Nat.le_gt_cases cap (S (length l))) as [Hle|Hgt].
      * replace (S (length l) + cap - 1)%nat with (S (length l) - cap + cap - 1 + 1 * cap)%nat
          by lia.
        rewrite Nat.div_add by lia. lia.
      * replace (S (length l) - cap)%nat with 0%nat by lia.
        replace ((0 + cap - 1) / cap)%nat with 0%nat
          by (symmetry; apply Nat.div_small; lia).
        replace (S (length l) + cap - 1)%nat with (length l + 1 * cap)%nat by lia.
        rewrite Nat.div_add by lia.
        rewrite Nat.div_small by lia. reflexivity.
Qed.

Lemma page_url_ok u (n : nat) : (1 <= n)%nat -> page_url u (Z.of_nat n) = Ok (url_of u n).
Proof.
  intros Hn. unfold page_url, url_of, generate_full_index_page_path_components,
    page_path_components.
  destruct (Z.of_nat n >? 1)%Z eqn:E; [reflexivity|].
  replace (Z.of_nat n =? 1)%Z with true; [reflexivity|].
  symmetry. apply Z.eqb_eq. rewrite Z.gtb_ltb in E. apply Z.ltb_ge in E. lia.
Qed.

Lemma slice_next_chunk {A} (done rest : list A) (cap : Z) :
  (0 < cap)%Z ->
  slice (done ++ rest) (Z.of_nat (length done))
        (Z.min (Z.of_nat (length done) + cap) (Z.of_nat (length (done ++ rest))))
  = firstn (Z.to_nat cap) rest.
Proof.
  intros Hc. unfold slice, slice_bound.
  set (n := Z.of_nat (length (done ++ rest))).
  assert (Hn : n = (Z.of_nat (length done) + Z.of_nat (length rest))%Z).
  { unfold n. rewrite length_app. lia. }
  clearbody n.
  replace (Z.of_nat (length done) <? 0)%Z with false by (symmetry; apply Z.ltb_ge; lia).
  replace (Z.min (Z.of_nat (length done) + cap) n <? 0)%Z with false
    by (symmetry; apply Z.ltb_ge; lia).
  replace (Z.to_nat (Z.min (Z.of_nat (length done)) n)) with (length done) by lia.
  rewrite skipn_app, Nat.sub_diag, skipn_all. simpl.
  change (drop 0 rest) with rest.
  destruct (Z.le_gt_cases (Z.of_nat (length rest)) cap) as [Hle|Hgt].
  - replace (Z.to_nat (Z.min (Z.min (Z.of_nat (length done) + cap) n) n) - length done)%nat
      with (length rest) by lia.
    rewrite firstn_all. symmetry. apply firstn_all2. lia.
  - f_equal. lia.
Qed.

Lemma pages_from_none fuel p (m : gmap nat index_page) :
  m !! p = None -> pages_from fuel p m = [].
Proof. intros H. destruct fuel; simpl; [reflexivity | now rewrite H]. Qed.

Lemma pages_from_same fuel p (m m' : gmap nat index_page) :
  (forall q, (p <= q)%nat -> m' !! q = m !! q) ->
  pages_from fuel p m' = pages_from fuel p m.
Proof.
  revert p. induction fuel as [|fuel IH]; intros p H; simpl; [reflexivity|].
  rewrite H by lia. destruct (m !! p); [|reflexivity].
  f_equal. apply IH. intros q Hq. apply H. lia.
Qed.

Section IndexFresh.
Variable gmtime : nat -> string.
Variable map_db_urls : MapDBPublicURLPaths.
Variable max_maps_per_index_file : Z.
Variable new_maps : list json.

Lemma add_pages_done fuel s p db :
  (Z.of_nat (length new_maps) <= s)%Z ->
  add_pages gmtime map_db_urls max_maps_per_index_file fuel new_maps s p db = Some (Ok db).
Proof.
  intros H. destruct fuel; cbn [add_pages];
    replace (s <? Z.of_nat (length new_maps))%Z with false
      by (symmetry; apply Z.ltb_ge; lia); reflexivity.
Qed.

(** One turn of the loop on a page that does not exist yet. *)
Lemma add_pages_step_fresh fuel s p db :
  (s < Z.of_nat (length new_maps))%Z -> pages db !! p = None -> (1 <= p)%nat ->
  add_pages gmtime map_db_urls max_maps_per_index_file (S fuel) new_maps s p db
  = add_pages gmtime map_db_urls max_maps_per_index_file fuel new_maps
      (Z.min (s + max_maps_per_index_file) (Z.of_nat (length new_maps))) (S p)
      {| pages :=
           <[p := {| page_type := "wz2100.mapdatabase.full.v1";
                     page_id := "full-page-" +:+ Py.str_of_int (Z.of_nat p);
                     version := gmtime (S (clock_reads db));
                     links_self := url_of map_db_urls p;
                     links_prev :=
                       if (1 <? p)%nat then Some (url_of map_db_urls (p - 1)) else None;
                     links_next :=
                       if (Z.min (s + max_maps_per_index_file) (Z.of_nat (length new_maps))
                           <? Z.of_nat (length new_maps))%Z
                       then Some (url_of map_db_urls (S p)) else None;
                     asset_url_templates := urls_asset_url_templates map_db_urls;
                     maps :=
                       slice new_maps s
                         (Z.min (s + max_maps_per_index_file)
                                (Z.of_nat (length new_maps))) |}]>
             (pages db);
         versions_json := versions_json db;
         clock_reads := S (S (clock_reads db)) |}.
Proof.
  intros Hs Hnone Hp. cbn [add_pages].
  replace (s <? Z.of_nat (length new_maps))%Z with true by (symmetry; apply Z.ltb_lt; lia).
  rewrite Hnone. unfold initialize_new_index_page.
  rewrite (page_url_ok map_db_urls p Hp). cbn [bind].
  assert (Hprev :
    (if (Z.of_nat p >? 1)%Z
     then bind (page_url map_db_urls (Z.of_nat p - 1)) (fun x => Ok (Some x))
     else Ok None)
    = Ok (if (1 <? p)%nat then Some (url_of map_db_urls (p - 1)) else None)).
  { destruct (1 <? p)%nat eqn:E.
    - apply Nat.ltb_lt in E.
      replace (Z.of_nat p >? 1)%Z with true by (symmetry; apply Z.gtb_lt; lia).
      replace (Z.of_nat p - 1)%Z with (Z.of_nat (p - 1)) by lia.
      now rewrite page_url_ok by lia.
    - apply Nat.ltb_ge in E.
      replace (Z.of_nat p >? 1)%Z with false; [reflexivity|].
      symmetry. rewrite Z.gtb_ltb. apply Z.ltb_ge. lia. }
  rewrite Hprev. cbn [bind maps links_next links_self links_prev page_type page_id
                      asset_url_templates app].
  replace (Z.of_nat p + 1)%Z with (Z.of_nat (S p)) by lia.
  rewrite page_url_ok by lia. cbn [bind].
  destruct (_ <? _)%Z; reflexivity.
Qed.

Hypothesis cap_positive : (0 < max_maps_per_index_file)%Z.

Lemma chunks_nil_iff (fuel : nat) (l : list json) :
  (length l <= fuel)%nat ->
  match chunks fuel (Z.to_nat max_maps_per_index_file) l with
  | [] => l = []
  | _ :: _ => l <> []
  end.
Proof.
  intros H. destruct fuel as [|fuel]; destruct l; simpl in *; try lia; congruence.
Qed.

(** The loop from a page number on which, and past which, no page exists:
    it ends, and writes the rest of the records in runs of the capacity on
    the pages that follow, chained by their links. *)
Lemma add_pages_fresh fuel : forall done rest p db,
  new_maps = (done ++ rest)%list -> (length rest <= fuel)%nat -> (1 <= p)%nat ->
  (forall q, (p <= q)%nat -> pages db !! q = None) ->
  exists db',
    add_pages gmtime map_db_urls max_maps_per_index_file fuel new_maps
      (Z.of_nat (length done)) p db = Some (Ok db')
    /\ versions_json db' = versions_json db
    /\ (forall q, (q < p)%nat -> pages db' !! q = pages db !! q)
    /\ dom (pages db')
       = dom (pages db)
         ∪ set_seq p (length (chunks (length rest) (Z.to_nat max_maps_per_index_file) rest))
    /\ (forall f,
          (length (chunks (length rest) (Z.to_nat max_maps_per_index_file) rest) <= f)%nat ->
          map page_summary (pages_from f p (pages db'))
          = expected_pages map_db_urls p
              (chunks (length rest) (Z.to_nat max_maps_per_index_file) rest)).
Proof.
  set (c := Z.to_nat max_maps_per_index_file).
  induction fuel as [|fuel IH]; intros done rest p db Hnew Hlen Hp Hnone.
  - destruct rest; [|simpl in Hlen; lia].
    exists db. rewrite add_pages_done by (rewrite Hnew, length_app; simpl; lia).
    split; [reflexivity|]. split; [reflexivity|]. split; [reflexivity|].
    split; [simpl; now rewrite union_empty_r_L|].
    intros f _. simpl. now rewrite pages_from_none by (apply Hnone; lia).
  - destruct rest as [|x r].
    + exists db. rewrite add_pages_done by (rewrite Hnew, length_app; simpl; lia).
      split; [reflexivity|]. split; [reflexivity|]. split; [reflexivity|].
      split; [simpl; now rewrite union_empty_r_L|].
      intros f _. simpl. now rewrite pages_from_none by (apply Hnone; lia).
    + set (rest := x :: r) in *.
      assert (Hc : (1 <= c)%nat) by (unfold c; lia).
      assert (Hrest : (1 <= length rest)%nat) by (unfold rest; simpl; lia).
      rewrite add_pages_step_fresh;
        [|rewrite Hnew, length_app; lia | apply Hnone; lia | exact Hp].
      set (done' := (done ++ firstn c rest)%list).
      set (rest' := skipn c rest).
      assert (Hnew' : new_maps = (done' ++ rest')%list).
      { unfold done', rest'. now rewrite <- app_assoc, firstn_skipn. }
      assert (He : Z.min (Z.of_nat (length done) + max_maps_per_index_file)
                         (Z.of_nat (length new_maps))
                   = Z.of_nat (length done')).
      { unfold done'. rewrite Hnew, !length_app, length_firstn. unfold c. lia. }
      assert (Hlen' : (length rest' <= length r)%nat).
      { unfold rest'. rewrite length_skipn. unfold rest. simpl. lia. }
      rewrite He.
      match goal with
      | |- context [add_pages _ _ _ fuel new_maps _ (S p) ?d] => set (db1 := d)
      end.
      destruct (IH done' rest' (S p) db1 Hnew') as (db' & Hrun & Hv & Hlow & Hdom & Hpages).
      { unfold rest in Hlen. simpl in Hlen. lia. }
      { lia. }
      { intros q Hq. unfold db1. cbn [pages].
        rewrite lookup_insert_ne by lia. apply Hnone. lia. }
      assert (Hch : chunks (length rest) c rest
                    = firstn c rest :: chunks (length rest') c rest').
      { unfold rest at 1 2. cbn [length chunks]. fold rest. f_equal.
        apply chunks_fuel; [exact Hc | exact Hlen' | lia]. }
      exists db'. split; [exact Hrun|]. split; [rewrite Hv; reflexivity|].
      assert (Hat : pages db' !! p = pages db1 !! p) by (apply Hlow; lia).
      unfold db1 in Hat. cbn [pages] in Hat. rewrite lookup_insert_eq in Hat.
      split; [|split].
      * intros q Hq. rewrite Hlow by lia. unfold db1. cbn [pages].
        now rewrite lookup_insert_ne by lia.
      * rewrite Hdom, Hch. unfold db1. cbn [pages length].
        rewrite dom_insert_L. apply set_eq. intros q.
        rewrite !elem_of_union, !elem_of_set_seq, elem_of_singleton.
        split; intros H; repeat destruct H as [H|H]; try (left; now auto);
          first [right; lia | left; left; lia | left; right; exact H
                | destruct (decide (q = p)); [left; left; assumption | right; lia]].
      * intros f Hf. rewrite Hch in Hf |- *. cbn [length] in Hf.
        destruct f as [|f]; [lia|].
        cbn [pages_from]. rewrite Hat. cbn [map expected_pages]. f_equal.
        -- unfold page_summary. cbn [fst snd maps links_self links_prev links_next].
           assert (Hslice : slice new_maps (Z.of_nat (length done)) (Z.of_nat (length done'))
                            = firstn c rest).
           { rewrite <- He, Hnew. now apply slice_next_chunk. }
           rewrite Hslice. f_equal.
           pose proof (chunks_nil_iff (length rest') rest' (Nat.le_refl _)) as Hnil.
           fold c in Hnil.
           destruct (chunks (length rest') c rest') as [|ch chs].
           ++ replace (Z.of_nat (length done') <? Z.of_nat (length new_maps))%Z with false;
                [reflexivity|].
              symmetry. apply Z.ltb_ge. rewrite Hnew', Hnil, app_nil_r. lia.
           ++ replace (Z.of_nat (length done') <? Z.of_nat (length new_maps))%Z with true;
                [reflexivity|].
              symmetry. apply Z.ltb_lt. rewrite Hnew', length_app.
              destruct rest'; [congruence | simpl; lia].
        -- apply Hpages. lia.
Qed.

End IndexFresh.

Lemma expected_pages_contents u p chs :
  map (fun s => snd (fst (fst (fst s)))) (expected_pages u p chs) = chs.
Proof.
  revert p. induction chs as [|ch chs IH]; intros p; simpl; [reflexivity|].
  now rewrite IH.
Qed.

(** The links of [expected_pages] form a chain: page [p + i] links to
    itself, to the page before it unless it is page 1, and to the page
    after it unless it is the last. *)
Lemma expected_pages_chain u p chs i n ch self prev next :
  nth_error (expected_pages u p chs) i = Some (n, ch, self, prev, next) ->
  n = (p + i)%nat
  /\ nth_error chs i = Some ch
  /\ self = url_of u (p + i)
  /\ prev = (if (1 <? p + i)%nat then Some (url_of u (p + i - 1)) else None)
  /\ next = (if (S i <? length chs)%nat then Some (url_of u (S (p + i))) else None).
Proof.
  revert p i. induction chs as [|c0 chs IH]; intros p i H.
  - destruct i; discriminate.
  - destruct i as [|i]; simpl in H.
    + injection H as <- <- <- <- <-. rewrite Nat.add_0_r.
      repeat split. destruct chs; reflexivity.
    + apply IH in H as (-> & Hch & -> & -> & ->).
      replace (S p + i)%nat with (p + S i)%nat by lia.
      repeat split; try assumption.
Qed.

(** An index that starts empty: the records are laid out in page order in
    runs of the capacity, on ceil(N / capacity) pages of at most the
    capacity each, chained by their links, and [versions.json] lists
    them. *)
Theorem empty_index_is_paginated gmtime map_db_urls max_maps_per_index_file
    (fuel : nat) (new_maps : list json) (db : mapdb) :
  (0 < max_maps_per_index_file)%Z ->
  pages db = ∅ ->
  (length new_maps <= fuel)%nat ->
  let c := Z.to_nat max_maps_per_index_file in
  exists db',
    add_to_mapdatabase_index gmtime map_db_urls max_maps_per_index_file fuel new_maps db
    = Some (Ok db')
    /\ map page_summary (map_db_full_index_pages (pages db'))
       = expected_pages map_db_urls 1 (chunks (length new_maps) c new_maps)
    /\ length (map_db_full_index_pages (pages db')) = ((length new_maps + c - 1) / c)%nat
    /\ Forall (fun np => (1 <= length (maps (snd np)) <= c)%nat)
              (map_db_full_index_pages (pages db'))
    /\ concat (map (fun np => maps (snd np)) (map_db_full_index_pages (pages db')))
       = new_maps
    /\ versions_json db' = Some (versions_of (pages db')).
Proof.
  intros Hcap Hempty Hfuel c.
  assert (Hc : (1 <= c)%nat) by (unfold c; lia).
  destruct (add_pages_fresh gmtime map_db_urls max_maps_per_index_file new_maps Hcap
              fuel [] new_maps 1%nat db eq_refl Hfuel (Nat.le_refl 1))
    as (db1 & Hrun & Hv & Hlow & Hdom & Hpages).
  { intros q _. rewrite Hempty. apply lookup_empty. }
  fold c in Hdom, Hpages.
  set (chs := chunks (length new_maps) c new_maps) in *.
  assert (Hsize : size (pages db1) = length chs).
  { rewrite <- size_dom, Hdom, Hempty, dom_empty_L, union_empty_l_L.
    apply size_set_seq. }
  assert (Hsum : map page_summary (map_db_full_index_pages (pages db1))
                 = expected_pages map_db_urls 1 chs).
  { unfold map_db_full_index_pages. apply Hpages. lia. }
  assert (Hcontents : map (fun np => maps (snd np)) (map_db_full_index_pages (pages db1))
                      = chs).
  { rewrite <- (expected_pages_contents map_db_urls 1 chs), <- Hsum, map_map.
    reflexivity. }
  exists (update_mapdatabase_versions_file db1).
  unfold add_to_mapdatabase_index.
  assert (Hcur : get_current_index_page (pages db) = 1%nat).
  { unfold get_current_index_page, map_db_full_index_pages.
    rewrite Hempty, map_size_empty. reflexivity. }
  rewrite Hcur. change 0%Z with (Z.of_nat (length (@nil json))). rewrite Hrun.
  cbn [update_mapdatabase_versions_file pages versions_json].
  split; [reflexivity|]. split; [exact Hsum|]. split; [|split; [|split]].
  - rewrite <- (length_map (fun np => maps (snd np))), Hcontents.
    unfold chs. apply chunks_length; [exact Hc | lia].
  - apply Forall_map with (f := fun np => maps (snd np))
                          (P := fun ch => (1 <= length ch <= c)%nat).
    rewrite Hcontents. destruct (chunks_bounded c new_maps (length new_maps)) as [H|H];
      [exact H | lia].
  - rewrite Hcontents. unfold chs. apply chunks_concat; [exact Hc | lia].
  - reflexivity.
Qed.

Lemma empty_index_is_paginated_witness :
  let c := Z.to_nat 3 in
  exists db',
    add_to_mapdatabase_index sample_gmtime sample_urls 3 7 (sample_records 7) empty_mapdb
    = Some (Ok db')
    /\ map page_summary (map_db_full_index_pages (pages db'))
       = expected_pages sample_urls 1
           (chunks (length (sample_records 7)) c (sample_records 7))
    /\ length (map_db_full_index_pages (pages db'))
       = ((length (sample_records 7) + c - 1) / c)%nat
    /\ Forall (fun np => (1 <= length (maps (snd np)) <= c)%nat)
              (map_db_full_index_pages (pages db'))
    /\ concat (map (fun np => maps (snd np)) (map_db_full_index_pages (pages db')))
       = sample_records 7
    /\ versions_json db' = Some (versions_of (pages db')).
Proof.
  apply (empty_index_is_paginated sample_gmtime sample_urls 3 7%nat (sample_records 7)
           empty_mapdb).
  - lia.
  - reflexivity.
  - vm_compute. lia.
Defined.

(** ** Decimal numerals: [str] then [int] *)

Lemma int_of_digits_uint (d : Decimal.uint) (acc : positive) :
  Py.int_of_digits_acc (Z.pos acc) (NilEmpty.string_of_uint d)
  = Z.pos (Pos.of_uint_acc d acc).
Proof.
  revert acc. induction d; intros acc; cbn [NilEmpty.string_of_uint Py.int_of_digits_acc
    Pos.of_uint_acc]; [reflexivity|..]; rewrite <- IHd; f_equal; vm_compute Py.digit_val; lia.
Qed.

Lemma int_of_digits_of_uint (d : Decimal.uint) :
  Py.int_of_digits_acc 0 (NilEmpty.string_of_uint d) = Z.of_N (Pos.of_uint d).
Proof.
  induction d; cbn [NilEmpty.string_of_uint Py.int_of_digits_acc Pos.of_uint];
    [reflexivity| |..];
    try (change (10 * 0 + Py.digit_val _)%Z with 0%Z; exact IHd);
    match goal with
    | |- Py.int_of_digits_acc ?a _ = Z.of_N (N.pos (Pos.of_uint_acc _ ?p)) =>
        change a with (Z.pos p); apply int_of_digits_uint
    end.
Qed.

Lemma string_of_uint_digits (d : Decimal.uint) :
  all_chars digit (NilEmpty.string_of_uint d) = true.
Proof. induction d; simpl; auto. Qed.

Lemma string_of_uint_nonnil (d : Decimal.uint) :
  d <> Decimal.Nil -> NilZero.string_of_uint d = NilEmpty.string_of_uint d.
Proof. destruct d; intros H; [now destruct H | reflexivity..]. Qed.

(** [int(str(n)) = n] for a natural number [n]. *)
Lemma int_of_str_of_int (n : Z) : (0 <= n)%Z -> Py.int_of_digits (Py.str_of_int n) = n.
Proof.
  intros Hn. unfold Py.int_of_digits, Py.str_of_int. destruct n as [|p|p]; [reflexivity| |lia].
  cbn [Z.to_int NilZero.string_of_int].
  rewrite string_of_uint_nonnil by apply Unsigned.to_uint_nonnil.
  now rewrite int_of_digits_of_uint, Unsigned.of_to.
Qed.

(** [str(n)] of a natural number is a non-empty string of digits. *)
Lemma str_of_int_digits (n : Z) :
  (0 <= n)%Z -> all_chars digit (Py.str_of_int n) = true /\ Py.str_of_int n <> "".
Proof.
  intros Hn. unfold Py.str_of_int. destruct n as [|p|p]; [split; [reflexivity|discriminate]| |lia].
  cbn [Z.to_int NilZero.string_of_int].
  rewrite string_of_uint_nonnil by apply Unsigned.to_uint_nonnil.
  split; [apply string_of_uint_digits|].
  pose proof (Unsigned.to_uint_nonnil p) as H.
  destruct (Pos.to_uint p); [now destruct H | discriminate..].
Qed.

Lemma str_of_int_inj (n m : Z) :
  (0 <= n)%Z -> (0 <= m)%Z -> Py.str_of_int n = Py.str_of_int m -> n = m.
Proof.
  intros Hn Hm H. rewrite <- (int_of_str_of_int n Hn), <- (int_of_str_of_int m Hm).
  now rewrite H.
Qed.

(** ** The patterns of the scripts *)

Lemma append_empty_r (s : string) : s +:+ "" = s.
Proof. induction s as [|c s IH]; [reflexivity|]. now rewrite append_cons, IH. Qed.

Lemma leading_split p s :
  exists rest, s = leading p s +:+ rest /\ all_chars p (leading p s) = true
               /\ stops p rest = true.
Proof.
  induction s as [|c s (rest & Hs & Ha & Hr)]; [exists ""; auto|].
  simpl. destruct (p c) eqn:Hc.
  - exists rest. rewrite append_cons, <- Hs. simpl. now rewrite Hc, Ha.
  - exists (String c s). simpl. now rewrite Hc.
Qed.

Lemma star_cls_const {R} p pos s (k : nat -> string -> option R) r :
  (forall pos' s', k pos' s' = Some r) -> star_cls p pos s k = Some r.
Proof.
  intros Hk. revert pos. induction s as [|c s IH]; intros pos; simpl; [apply Hk|].
  destruct (p c); [|apply Hk]. now rewrite IH.
Qed.

(** [NAME_FORMAT_RE] accepts the non-empty strings over [A-Za-z0-9-_],
    and those followed by one line feed: [$] also matches in front of a
    final line feed. *)
Lemma name_format_match s :
  re_match NAME_FORMAT_RE s <> None
  <-> exists body, body <> "" /\ all_chars name_char body = true
                   /\ (s = body \/ s = body +:+ newline).
Proof.
  unfold re_match, NAME_FORMAT_RE. cbn [seq_of rmatch Nat.eqb plus_cls]. split.
  - intros H. destruct s as [|c s]; [now destruct H|]. unfold plus_cls in H.
    destruct (name_char c) eqn:Hc; [|now destruct H].
    destruct (star_cls _ _ _ _) as [g|] eqn:E; [|now destruct H].
    apply star_cls_inv in E as (pre & post & -> & Hpre & E).
    exists (String c pre). split; [discriminate|]. split; [simpl; now rewrite Hc|].
    destruct post as [|c1 [|c2 post]]; [left| |discriminate].
    + now rewrite append_empty_r.
    + right. destruct (Ascii.eqb_spec c1 "010"); [now subst | discriminate].
  - intros (body & Hne & Hbody & Hs).
    destruct body as [|c body]; [now destruct Hne|].
    simpl in Hbody. apply andb_prop in Hbody as [Hc Hbody].
    assert (Hsplit : exists post, s = String c (body +:+ post)
                                  /\ (post = "" \/ post = newline)).
    { destruct Hs as [->| ->]; [exists ""|exists newline].
      - now rewrite append_empty_r; auto.
      - rewrite append_cons. auto. }
    destruct Hsplit as (post & -> & Hpost). unfold plus_cls. rewrite Hc.
    erewrite star_cls_greedy; [discriminate|exact Hbody| |].
    + destruct Hpost as [->| ->]; reflexivity.
    + destruct Hpost as [->| ->]; reflexivity.
Qed.

Lemma digit_not_v c : digit c = true -> Ascii.eqb "v" c = false.
Proof.
  intros H. destruct (Ascii.eqb_spec "v" c) as [<-|]; [discriminate H | reflexivity].
Qed.

(** The match of [RELEASE_VERSION_RE] on digits in front of anything that
    does not go on with a digit. *)
Lemma release_version_digits ds rest :
  ds <> "" -> all_chars digit ds = true -> stops digit rest = true ->
  re_match RELEASE_VERSION_RE (ds +:+ rest) = Some [("major", ds)].
Proof.
  intros Hne Hds Hrest. destruct ds as [|c ds]; [now destruct Hne|].
  simpl in Hds. apply andb_prop in Hds as [Hc Hds].
  unfold re_match, RELEASE_VERSION_RE. rewrite append_cons.
  cbn [seq_of rmatch Nat.eqb plus_cls]. rewrite (digit_not_v c Hc), Hc.
  erewrite star_cls_greedy; [reflexivity|exact Hds|exact Hrest|].
  rewrite star_cls_const with (r := [("major", String c ds)]); [reflexivity|].
  intros pos' s'. cbn [set_group]. do 3 f_equal.
  replace (1 + String.length ds - 0)%nat with (String.length (String c ds)) by (simpl; lia).
  rewrite <- append_cons. apply substring_prefix.
Qed.

Lemma release_version_v_digits ds rest :
  ds <> "" -> all_chars digit ds = true -> stops digit rest = true ->
  re_match RELEASE_VERSION_RE ("v" +:+ ds +:+ rest) = Some [("major", ds)].
Proof.
  intros Hne Hds Hrest. destruct ds as [|c ds]; [now destruct Hne|].
  simpl in Hds. apply andb_prop in Hds as [Hc Hds].
  unfold re_match, RELEASE_VERSION_RE. rewrite !append_cons, append_nil.
  cbn [seq_of rmatch Nat.eqb plus_cls Ascii.eqb Bool.eqb]. rewrite Hc.
  erewrite star_cls_greedy; [reflexivity|exact Hds|exact Hrest|].
  rewrite star_cls_const with (r := [("major", String c ds)]); [reflexivity|].
  intros pos' s'. cbn [set_group]. do 3 f_equal.
  replace (2 + String.length ds - 1)%nat with (String.length (String c ds)) by (simpl; lia).
  change (String "v" (String c (ds +:+ rest))) with ("v" +:+ (String c ds +:+ rest)).
  change 1%nat with (String.length "v" + 0)%nat.
  rewrite substring_app_skip. apply substring_prefix.
Qed.


Lemma release_version_major s :
  major_digits s <> "" ->
  re_match RELEASE_VERSION_RE s = Some [("major", major_digits s)].
Proof.
  intros Hne.
  assert (Hcases : (exists s1, s = "v" +:+ s1 /\ major_digits s = leading digit s1)
                   \/ major_digits s = leading digit s).
  { destruct s as [|c s]; [now right|].
    destruct (Ascii.eqb_spec "v" c) as [<-|Hc]; [left; now exists s|right].
    unfold major_digits. destruct c as [[] [] [] [] [] [] [] []]; try reflexivity.
    now destruct Hc. }
  destruct Hcases as [(s1 & -> & Hm)|Hm]; rewrite Hm in *.
  - destruct (leading_split digit s1) as (rest & Hs & Ha & Hr).
    rewrite Hs at 1. now apply release_version_v_digits.
  - destruct (leading_split digit s) as (rest & Hs & Ha & Hr).
    rewrite Hs at 1. now apply release_version_digits.
Qed.

Lemma leading_all p s : all_chars p s = true -> leading p s = s.
Proof.
  induction s as [|c s IH]; [reflexivity|]. simpl. intros H.
  apply andb_prop in H as [Hc H]. now rewrite Hc, IH.
Qed.

Lemma major_digits_tag_of n : (0 <= n)%Z -> major_digits (tag_of n) = Py.str_of_int n.
Proof.
  intros Hn. unfold tag_of. rewrite append_cons, append_nil. simpl.
  apply leading_all. now apply str_of_int_digits.
Qed.

Lemma next_release_tagname_tag_of n :
  (0 <= n)%Z -> next_release_tagname (tag_of n) = Ok (tag_of (n + 1)).
Proof.
  intros Hn. unfold next_release_tagname.
  rewrite release_version_major; rewrite major_digits_tag_of by assumption.
  - cbn [group String.eqb Ascii.eqb Bool.eqb]. now rewrite int_of_str_of_int.
  - now apply str_of_int_digits.
Qed.

Lemma tag_of_inj n m : (0 <= n)%Z -> (0 <= m)%Z -> tag_of n = tag_of m -> n = m.
Proof.
  unfold tag_of. rewrite !append_cons, !append_nil. intros Hn Hm H.
  injection H as H. now apply str_of_int_inj.
Qed.


(** ** The numbering of the releases of a run *)

Lemma tag_of_seq_notin N c :
  (0 <= N)%Z ->
  ~ In (tag_of (N + Z.of_nat c)) (map (fun i => tag_of (N + Z.of_nat i)) (seq 1 (c - 1))).
Proof.
  intros HN H. apply in_map_iff in H as (i & Hi & Hin). apply in_seq in Hin.
  apply tag_of_inj in Hi; lia.
Qed.

Lemma seq_snoc_tags N c :
  (1 <= c)%nat ->
  (map (fun i => tag_of (N + Z.of_nat i)) (seq 1 (c - 1)) ++ [tag_of (N + Z.of_nat c)])%list
  = map (fun i => tag_of (N + Z.of_nat i)) (seq 1 c).
Proof.
  intros Hc. replace c with (S (c - 1)) at 3 by lia. rewrite seq_S, map_app. simpl.
  do 4 f_equal. lia.
Qed.

Lemma record_commit_json commit b b2 :
  record_commit commit b = Ok b2 -> release_json b2 = release_json b.
Proof.
  unfold record_commit, release_of.
  destruct (releasesGeneratedThisRun b !! MAP_REPO_NEW_RELEASE_TAGNAME b); simpl;
    [|discriminate].
  intros H. now injection H as <-.
Qed.

Section ReleaseNumbering.
Variable license_check : json -> license_verdict.
Variable now : datetime_t.
Variable get_changed_folders_in_commit : string -> list string.
Variable maptools_package_info : string -> Z * pydict.
Variable compress_map_folder : string -> option string -> archive.
Variable sha256 : archive -> string.
Variable random_salt : nat -> string.
Variable output_folder : string.
Variable max_assets_per_release : Z.
Variable N : Z.
Hypothesis N_natural : (0 <= N)%Z.

Lemma count_asset_assets b b' e :
  releasesGeneratedThisRun b !! MAP_REPO_NEW_RELEASE_TAGNAME b = Some e ->
  count_asset b = Ok b' ->
  releasesGeneratedThisRun b' !! MAP_REPO_NEW_RELEASE_TAGNAME b
  = Some {| commits := commits e; assets := assets e + 1 |}.
Proof.
  unfold count_asset, release_of. intros ->. simpl. intros H. injection H as <-.
  simpl. apply lookup_insert_eq.
Qed.

Lemma process_map_assets fuel repo folder b b' e :
  releasesGeneratedThisRun b !! MAP_REPO_NEW_RELEASE_TAGNAME b = Some e ->
  process_map license_check now maptools_package_info compress_map_folder sha256
    random_salt output_folder fuel repo folder b = Some (Ok b') ->
  exists e', releasesGeneratedThisRun b' !! MAP_REPO_NEW_RELEASE_TAGNAME b = Some e'
             /\ (assets e <= assets e')%Z /\ commits e' = commits e.
Proof.
  intros He. unfold process_map, obind, lift.
  destruct (maptools_package_info (path_join [repo; folder])) as [rc info].
  destruct (negb (rc =? 0)%Z).
  { intros H. injection H as <-. exists e. split; [assumption|]. split; [lia|reflexivity]. }
  destruct (validate_map_info _ _ _ _ _) as [v|err]; [|discriminate].
  destruct (_ >? 0)%Z.
  { intros H. injection H as <-. exists e. split; [assumption|]. split; [lia|reflexivity]. }
  destruct (Py.dict_item info "players") as [players|err]; [|discriminate].
  destruct (Py.dict_item info "name") as [name|err]; [|discriminate].
  destruct (re_sub_clean name) as [clean|err]; [|discriminate].
  unfold map_has_hash_collision. simpl. rewrite lookup_insert_eq.
  rewrite repackage_never_runs.
  intros H. injection H as H.
  apply count_asset_assets with (e := e) in H; [|exact He].
  simpl in H. eexists. split; [exact H|]. simpl. split; [lia|reflexivity].
Qed.

Lemma process_maps_assets fuel repo folders b b' e :
  releasesGeneratedThisRun b !! MAP_REPO_NEW_RELEASE_TAGNAME b = Some e ->
  process_maps license_check now maptools_package_info compress_map_folder sha256
    random_salt output_folder fuel repo folders b = Some (Ok b') ->
  exists e', releasesGeneratedThisRun b' !! MAP_REPO_NEW_RELEASE_TAGNAME b = Some e'
             /\ (assets e <= assets e')%Z /\ commits e' = commits e.
Proof.
  revert b e. induction folders as [|f rest IH]; intros b e He; simpl.
  - intros H. injection H as <-. exists e. split; [assumption|]. split; [lia|reflexivity].
  - unfold obind at 1.
    destruct (process_map _ _ _ _ _ _ _ _ _ _ _) as [[b1|err]|] eqn:E; try discriminate.
    intros H.
    pose proof (process_map_frame _ _ _ _ _ _ _ _ _ _ _ _ E) as (Ht & _).
    destruct (process_map_assets _ _ _ _ _ _ He E) as (e1 & He1 & Hle & Hc).
    rewrite <- Ht in He1.
    destruct (IH _ _ He1 H) as (e2 & He2 & Hle2 & Hc2).
    exists e2. rewrite <- Ht. split; [assumption|]. split; [lia|congruence].
Qed.

(** Sealing a release keeps the numbering. *)
Lemma start_commit_numbered folders c b b1 :
  numbered_from N c b ->
  start_commit max_assets_per_release folders b = Ok b1 ->
  exists c1, numbered_from N c1 b1.
Proof.
  intros (Htag & Hc & (e & He & Hnn & Hlist) & Hold & Hassets & Hjson).
  rewrite <- Htag in He.
  unfold start_commit, release_of. rewrite He. simpl.
  destruct ((assets e >? 0)%Z && _) eqn:Hover.
  2:{ intros H. injection H as <-. exists c. unfold numbered_from.
      rewrite Htag in He. eauto 10. }
  apply andb_prop in Hover as [Hpos _].
  rewrite Hpos in Hlist.
  assert (Hin : in_release_list (MAP_REPO_NEW_RELEASE_TAGNAME b) (releaseList b) = true).
  { apply in_release_list_In. rewrite Hlist, Htag. apply in_or_app. right. now left. }
  rewrite Hin. simpl. unfold generate_next_release_details.
  rewrite Htag, next_release_tagname_tag_of by lia. simpl.
  intros H. injection H as <-. exists (S c).
  assert (Hnext : (N + Z.of_nat c + 1 = N + Z.of_nat (S c))%Z) by lia.
  rewrite Hnext.
  assert (Hfresh : forall i, (1 <= i <= c)%nat ->
            tag_of (N + Z.of_nat (S c)) <> tag_of (N + Z.of_nat i)).
  { intros i Hi Heq. apply tag_of_inj in Heq; lia. }
  unfold numbered_from. simpl.
  split; [reflexivity|]. split; [lia|]. split; [|split; [|split]].
  - eexists. rewrite lookup_insert_eq. split; [reflexivity|]. simpl. split; [lia|].
    rewrite Hlist, app_nil_r.
    match goal with |- _ = map _ (seq 1 ?k) => replace k with c by lia end.
    now apply seq_snoc_tags.
  - intros i Hi. rewrite lookup_insert_ne by (apply Hfresh; lia).
    destruct (decide (i = c)) as [->|Hne].
    + exists e. rewrite <- Htag. split; [assumption|]. apply Z.gtb_lt in Hpos. lia.
    + apply Hold. lia.
  - intros t e' Ht Hp. destruct (decide (tag_of (N + Z.of_nat (S c)) = t)) as [<-|Hne].
    + rewrite lookup_insert_eq in Ht. injection Ht as <-. simpl in Hp. lia.
    + rewrite lookup_insert_ne in Ht by assumption. eauto.
  - intros t e' Ht Hp. destruct (decide (tag_of (N + Z.of_nat (S c)) = t)) as [<-|Hne].
    + rewrite lookup_insert_eq in Ht. injection Ht as <-. now destruct Hp.
    + rewrite lookup_insert_ne in Ht by assumption. eauto.
Qed.

(** Recording the commit, packaging its maps and writing [release.json]
    keeps the numbering. *)
Lemma commit_body_numbered fuel repo commit folders c b1 b2 b3 b4 :
  numbered_from N c b1 ->
  record_commit commit b1 = Ok b2 ->
  process_maps license_check now maptools_package_info compress_map_folder sha256
    random_salt output_folder fuel repo folders b2 = Some (Ok b3) ->
  finish_commit commit b3 = Ok b4 ->
  numbered_from N c b4.
Proof.
  intros (Htag & Hc & (e & He & Hnn & Hlist) & Hold & Hassets & Hjson) Hrec Hmaps Hfin.
  pose proof (record_commit_json _ _ _ Hrec) as Hj2.
  apply record_commit_spec in Hrec as (e1 & He1 & Htag2 & Hlist2 & Hrel2).
  rewrite Htag in He1. rewrite He in He1. injection He1 as <-.
  pose proof (process_maps_frame _ _ _ _ _ _ _ _ _ _ _ _ Hmaps)
    as (Htag3 & Hlist3 & Hjson3 & _ & _ & Hother3).
  assert (He2 : releasesGeneratedThisRun b2 !! MAP_REPO_NEW_RELEASE_TAGNAME b2
                = Some {| commits := (commits e ++ [commit])%list; assets := assets e |}).
  { rewrite Hrel2, Htag2. apply lookup_insert_eq. }
  destruct (process_maps_assets _ _ _ _ _ _ He2 Hmaps) as (e3 & He3 & Hle & Hcommits).
  simpl in Hle, Hcommits. rewrite <- Htag3 in He3.
  revert Hfin. unfold finish_commit, release_of. rewrite He3. simpl. rewrite He3. simpl.
  assert (Hcur : MAP_REPO_NEW_RELEASE_TAGNAME b3 = tag_of (N + Z.of_nat c)) by congruence.
  assert (Hl3 : releaseList b3 = releaseList b1) by congruence.
  assert (Hlookup : forall t, t <> MAP_REPO_NEW_RELEASE_TAGNAME b3 ->
            releasesGeneratedThisRun b3 !! t = releasesGeneratedThisRun b1 !! t).
  { intros t Hne. rewrite Hother3 by congruence. rewrite Hrel2.
    apply lookup_insert_ne. congruence. }
  assert (Hj3 : release_json b3 = release_json b1).
  { congruence. }
  set (cur := MAP_REPO_NEW_RELEASE_TAGNAME b3) in *.
  assert (Hgoal : forall l,
            l = (map (fun i => tag_of (N + Z.of_nat i)) (seq 1 (c - 1))
                 ++ (if (assets e3 >? 0)%Z then [tag_of (N + Z.of_nat c)] else []))%list ->
            numbered_from N c
              {| releasesGeneratedThisRun := releasesGeneratedThisRun b3;
                 MAP_REPO_NEW_RELEASE_TAGNAME := cur;
                 releaseList := l;
                 archives := archives b3;
                 release_json := <[cur := (commit, commits e3)]> (release_json b3);
                 salts_drawn := salts_drawn b3 |}).
  { intros l ->. unfold numbered_from. simpl.
    split; [exact Hcur|]. split; [exact Hc|]. split; [|split; [|split]].
    - exists e3. rewrite <- Hcur. split; [exact He3|]. split; [lia|reflexivity].
    - intros i Hi. rewrite Hlookup; [now apply Hold|].
      rewrite Hcur. intros Heq. apply tag_of_inj in Heq; lia.
    - intros t e' Ht Hp. destruct (decide (t = cur)) as [->|Hne].
      + rewrite He3 in Ht. injection Ht as <-. rewrite Hcommits.
        destruct (commits e); discriminate.
      + rewrite Hlookup in Ht by assumption. eauto.
    - intros t e' Ht Hp. destruct (decide (t = cur)) as [->|Hne].
      + rewrite He3 in Ht. injection Ht as <-. exists commit.
        rewrite lookup_insert_eq. split; [|reflexivity].
        rewrite Hcommits. apply last_snoc.
      + rewrite lookup_insert_ne by congruence. rewrite Hj3.
        rewrite Hlookup in Ht by assumption. eauto. }
  destruct ((assets e3 >? 0)%Z && negb (in_release_list cur (releaseList b3))) eqn:Hif;
    intros H; injection H as <-; apply Hgoal; simpl; rewrite Hl3, Hlist.
  - apply andb_prop in Hif as [Hpos Hnotin]. rewrite Hpos.
    destruct (assets e >? 0)%Z eqn:Hpos1; [|now rewrite app_nil_r, Hcur].
    exfalso. apply negb_true_iff in Hnotin.
    assert (Hin : in_release_list cur (releaseList b3) = true); [|congruence].
    apply in_release_list_In. rewrite Hl3, Hlist, Hcur. apply in_or_app. right. now left.
  - apply andb_false_iff in Hif as [Hpos|Hin].
    + rewrite Hpos. destruct (assets e >? 0)%Z eqn:Hpos1; [|reflexivity].
      apply Z.gtb_lt in Hpos1. rewrite Z.gtb_ltb in Hpos. apply Z.ltb_ge in Hpos. lia.
    + apply negb_false_iff, in_release_list_In in Hin.
      rewrite Hl3, Hlist, Hcur in Hin. apply in_app_or in Hin as [Hin|Hin].
      * now apply tag_of_seq_notin in Hin.
      * destruct (assets e >? 0)%Z eqn:Hpos1; [|now destruct Hin].
        replace (assets e3 >? 0)%Z with true; [reflexivity|].
        symmetry. apply Z.gtb_lt. apply Z.gtb_lt in Hpos1. lia.
Qed.

Lemma process_commit_numbered fuel repo commit c b b' :
  numbered_from N c b ->
  process_commit license_check now get_changed_folders_in_commit maptools_package_info
    compress_map_folder sha256 random_salt output_folder max_assets_per_release
    fuel repo commit b = Some (Ok b') ->
  exists c', numbered_from N c' b'.
Proof.
  intros Hinv. unfold process_commit.
  destruct (map_folders (get_changed_folders_in_commit commit)) as [|f fs].
  { intros H. injection H as <-. eauto. }
  unfold obind, lift.
  destruct (start_commit _ _ _) as [b1|err] eqn:Hstart; [|discriminate].
  destruct (record_commit _ _) as [b2|err] eqn:Hrec; [|discriminate].
  destruct (process_maps _ _ _ _ _ _ _ _ _ _ _) as [[b3|err]|] eqn:Hmaps; try discriminate.
  intros Hfin. injection Hfin as Hfin.
  destruct (start_commit_numbered _ _ _ _ Hinv Hstart) as (c1 & Hinv1).
  exists c1. eapply commit_body_numbered; eassumption.
Qed.

Lemma process_commits_numbered fuel repo commits c b b' :
  numbered_from N c b ->
  process_commits license_check now get_changed_folders_in_commit maptools_package_info
    compress_map_folder sha256 random_salt output_folder max_assets_per_release
    fuel repo commits b = Some (Ok b') ->
  exists c', numbered_from N c' b'.
Proof.
  revert c b. induction commits as [|commit rest IH]; intros c b Hinv; simpl.
  - intros H. injection H as <-. eauto.
  - unfold obind at 1.
    destruct (process_commit _ _ _ _ _ _ _ _ _ _ _ _ _) as [[b1|err]|] eqn:E;
      try discriminate.
    intros H. destruct (process_commit_numbered _ _ _ _ _ _ Hinv E) as (c1 & Hinv1).
    eapply IH; eassumption.
Qed.

End ReleaseNumbering.

(** X8.  The releases [generate_releases_for_maprepo] returns after
    release [v<N>] are [v<N+1>], [v<N+2>], ... without a gap or a
    repetition; each has at least one asset, and its [release.json] names
    the last of its commits as the target and lists its commits. *)
Theorem releases_numbered_consecutively license_check now get_changed_folders_in_commit
    maptools_package_info compress_map_folder sha256 random_salt output_folder
    max_assets_per_release (N : Z) fuel repo history b :
  (0 <= N)%Z ->
  generate_releases_for_maprepo license_check now get_changed_folders_in_commit
    maptools_package_info compress_map_folder sha256 random_salt output_folder
    max_assets_per_release fuel repo history (tag_of N) = Some (Ok b) ->
  exists k : nat,
    releaseList b = map (fun i => tag_of (N + Z.of_nat i)) (seq 1 k)
    /\ NoDup (releaseList b)
    /\ forall t, In t (releaseList b) ->
         exists e c, releasesGeneratedThisRun b !! t = Some e
                     /\ (0 < assets e)%Z
                     /\ last (commits e) = Some c
                     /\ release_json b !! t = Some (c, commits e).
Proof.
  intros HN. unfold generate_releases_for_maprepo, generate_next_release_details.
  rewrite next_release_tagname_tag_of by assumption. simpl.
  intros Hrun.
  apply process_commits_numbered with (N := N) (c := 1%nat) in Hrun; [|assumption|].
  2:{ unfold numbered_from. simpl. replace (N + 1)%Z with (N + Z.of_nat 1)%Z by lia.
      split; [reflexivity|]. split; [lia|]. split; [|split; [|split]].
      - eexists. rewrite lookup_insert_eq. split; [reflexivity|]. simpl. split; [lia|reflexivity].
      - intros i Hi. lia.
      - intros t e' Ht Hp. destruct (decide (tag_of (N + Z.of_nat 1) = t)) as [<-|Hne].
        + rewrite lookup_insert_eq in Ht. injection Ht as <-. simpl in Hp. lia.
        + rewrite lookup_insert_ne in Ht by assumption. now rewrite lookup_empty in Ht.
      - intros t e' Ht Hp. destruct (decide (tag_of (N + Z.of_nat 1) = t)) as [<-|Hne].
        + rewrite lookup_insert_eq in Ht. injection Ht as <-. now destruct Hp.
        + rewrite lookup_insert_ne in Ht by assumption. now rewrite lookup_empty in Ht. }
  destruct Hrun as (c & Htag & Hc & (e & He & Hnn & Hlist) & Hold & Hassets & Hjson).
  assert (Hk : exists k, (k = c - 1 \/ (k = c /\ (0 < assets e)%Z))%nat
                         /\ releaseList b = map (fun i => tag_of (N + Z.of_nat i)) (seq 1 k)).
  { destruct (assets e >? 0)%Z eqn:Hpos.
    - exists c. split; [right; split; [reflexivity|now apply Z.gtb_lt]|].
      rewrite Hlist. now apply seq_snoc_tags.
    - exists (c - 1)%nat. split; [now left|]. now rewrite Hlist, app_nil_r. }
  destruct Hk as (k & Hk & Hl). exists k. split; [exact Hl|]. split.
  - rewrite Hl. apply NoDup_fmap_2_strong; [|apply NoDup_seq].
    intros i j Hi Hj Heq. apply tag_of_inj in Heq; lia.
  - intros t Ht. rewrite Hl in Ht. apply in_map_iff in Ht as (i & <- & Hi).
    apply in_seq in Hi.
    assert (Hentry : exists e', releasesGeneratedThisRun b !! tag_of (N + Z.of_nat i) = Some e'
                                /\ (0 < assets e')%Z).
    { destruct Hk as [->|[-> Hpos]].
      - apply Hold. lia.
      - destruct (decide (i = c)) as [->|Hne]; [eauto|]. apply Hold. lia. }
    destruct Hentry as (e' & He' & Hpos).
    destruct (Hjson _ _ He' (Hassets _ _ He' Hpos)) as (c' & Hlast & Hj).
    exists e', c'. auto.
Qed.

Lemma releases_numbered_consecutively_witness :
  exists k : nat,
    releaseList (final_state (sample_run ["c1"; "c2"]) empty_builder)
    = map (fun i => tag_of (0 + Z.of_nat i)) (seq 1 k)
    /\ NoDup (releaseList (final_state (sample_run ["c1"; "c2"]) empty_builder))
    /\ forall t, In t (releaseList (final_state (sample_run ["c1"; "c2"]) empty_builder)) ->
         exists e c,
           releasesGeneratedThisRun (final_state (sample_run ["c1"; "c2"]) empty_builder) !! t
           = Some e
           /\ (0 < assets e)%Z
           /\ last (commits e) = Some c
           /\ release_json (final_state (sample_run ["c1"; "c2"]) empty_builder) !! t
              = Some (c, commits e).
Proof.
  refine (releases_numbered_consecutively sample_license_check sample_now
            sample_changed_folders sample_maptools sample_compress sample_sha256 sample_salt
            "out" 100 0 0 "repo" ["c1"; "c2"] _ _ _).
  - lia.
  - refine (final_state_ok _ empty_builder _). vm_compute. exact I.
Defined.

(** ** [validate_map_info]: the errors, rule by rule *)

Lemma v_errors_warn_if o f st : v_errors (warn_if o f st) = v_errors st.
Proof. now destruct o. Qed.

Lemma v_errors_failed_format_check enforce opts f st :
  v_errors (failed_format_check enforce opts f st)
  = (v_errors st ++ (if enforce then [f] else []))%list.
Proof.
  unfold failed_format_check. destruct enforce; simpl.
  - reflexivity.
  - now rewrite v_errors_warn_if, app_nil_r.
Qed.

Lemma app_one_ne {A} (l : list A) (x : A) : (l ++ [x])%list <> l.
Proof.
  intros H. apply (f_equal (@length A)) in H. rewrite length_app in H. simpl in H. lia.
Qed.

Lemma app_two_ne {A} (l : list A) (x y : A) : ((l ++ [x]) ++ [y])%list <> l.
Proof.
  intros H. apply (f_equal (@length A)) in H. rewrite !length_app in H. simpl in H. lia.
Qed.

Lemma grow_nil st st' :
  errors_grow st st' -> v_errors st' = [] -> v_errors st = [] /\ v_errors st' = v_errors st.
Proof.
  intros [a Ha] H. rewrite Ha in H. apply app_eq_nil in H as [H1 H2].
  split; [assumption|]. rewrite Ha, H2. apply app_nil_r.
Qed.

Lemma in_str_list_In v l :
  Py.in_str_list v l = true <-> exists s, v = JStr s /\ In s l.
Proof.
  unfold Py.in_str_list. rewrite existsb_exists. split.
  - intros (s & Hs & Hv). destruct v; try discriminate. simpl in Hv.
    apply String.eqb_eq in Hv. subst. eauto.
  - intros (s & -> & Hs). exists s. split; [assumption|]. simpl. apply String.eqb_refl.
Qed.

Lemma in_range_int v lo hi :
  (2 <= lo)%Z ->
  Py.in_range v lo hi = true <-> exists n, v = JInt n /\ (lo <= n < hi)%Z.
Proof.
  intros Hlo. split.
  - destruct v as [| [] |n| | |]; simpl; try discriminate.
    + intros H. apply andb_prop in H as [H _]. apply Z.leb_le in H. lia.
    + intros H. apply andb_prop in H as [H _]. apply Z.leb_le in H. lia.
    + intros H. apply andb_prop in H as [H1 H2]. apply Z.leb_le in H1.
      apply Z.ltb_lt in H2. eauto.
  - intros (n & -> & H1 & H2). simpl. apply andb_true_intro.
    split; [now apply Z.leb_le | now apply Z.ltb_lt].
Qed.

Section ChecksRules.
Variable license_check : json -> license_verdict.
Variable now : datetime_t.
Variable map_info_json : pydict.
Variable enforce_format_checks : bool.
Variable warning_options : ValidateMapWarningOptions.

Lemma check_name_rule st st' :
  check_name map_info_json warning_options st = Ok st' ->
  (v_errors st' = v_errors st <-> name_rule map_info_json).
Proof.
  unfold check_name, item, Py.dict_item, name_rule. intros H.
  destruct (Py.dict_get "name" map_info_json) as [name|] eqn:Hn; simpl in H; [|discriminate].
  destruct (Py.truthy name) eqn:Ht.
  2:{ injection H as <-. split; [intros _; exists name; auto | reflexivity]. }
  destruct (Py.len name) as [n|] eqn:Hlen; simpl in H; [|discriminate].
  unfold py_match in H. destruct (Py.as_str name) as [s|] eqn:Hs; simpl in H; [|discriminate].
  destruct name; try discriminate. injection Hs as ->. simpl in Hlen. injection Hlen as <-.
  assert (Hrule : (exists name, Some (JStr s) = Some name
                     /\ (Py.truthy name = false
                         \/ exists s0, name = JStr s0 /\ (String.length s0 <= 60)%nat
                                       /\ name_ok s0))
                  <-> (String.length s <= 60)%nat /\ re_match NAME_FORMAT_RE s <> None).
  { split.
    - intros (name & Hname & [Hf|(s0 & -> & Hl & Hm)]); injection Hname as <-.
      + congruence.
      + split; [assumption|]. now apply name_format_match.
    - intros [Hl Hm]. exists (JStr s). split; [reflexivity|]. right.
      exists s. split; [reflexivity|]. split; [assumption|]. now apply name_format_match. }
  rewrite Hrule. clear Hrule.
  unfold MAX_ALLOWED_MAP_NAME_LENGTH, MAX_SUGGESTED_MAP_NAME_LENGTH in H.
  destruct (Z.of_nat (String.length s) >? 60)%Z eqn:Hlong.
  - apply Z.gtb_lt in Hlong.
    destruct (re_match NAME_FORMAT_RE s); injection H as <-; simpl;
      rewrite ?v_errors_warn_if; destruct (_ <? 6)%Z; rewrite ?v_errors_warn_if;
      (split; [intros Heq; first [now apply app_one_ne in Heq | now apply app_two_ne in Heq]
              | intros [Hl _]; lia]).
  - rewrite Z.gtb_ltb in Hlong. apply Z.ltb_ge in Hlong.
    destruct (re_match NAME_FORMAT_RE s); injection H as <-;
      destruct (_ >? 30)%Z; destruct (_ <? 6)%Z; simpl; rewrite ?v_errors_warn_if.
    all: try (split; [intros _; split; [lia | discriminate] | reflexivity]).
    all: split; [intros Heq; now apply app_one_ne in Heq | intros [_ Hm]; now destruct Hm].
Qed.

Lemma check_type_rule st st' :
  check_type map_info_json st = Ok st' ->
  (v_errors st' = v_errors st <-> type_rule map_info_json).
Proof.
  unfold check_type, item, Py.dict_item, type_rule. intros H.
  destruct (Py.dict_get "type" map_info_json) as [ty|] eqn:Hty; cbn [bind] in H; [|discriminate].
  destruct (Py.in_str_list ty allowed_types) eqn:Hin; cbn [negb] in H; injection H as <-.
  - apply in_str_list_In in Hin as (s & -> & [<-|[]]). tauto.
  - simpl. split; [intros Heq; now apply app_one_ne in Heq|].
    intros Heq. injection Heq as ->. discriminate Hin.
Qed.

Lemma check_players_rule st st' :
  check_players map_info_json st = Ok st' ->
  (v_errors st' = v_errors st <-> players_rule map_info_json).
Proof.
  unfold check_players, item, Py.dict_item, players_rule. intros H.
  destruct (Py.dict_get "players" map_info_json) as [p|] eqn:Hp; cbn [bind] in H; [|discriminate].
  destruct (Py.in_range p 2 11) eqn:Hin; cbn [negb] in H; injection H as <-.
  - apply in_range_int in Hin as (n & -> & Hn); [|lia].
    split; [intros _; exists n; split; [reflexivity | lia] | reflexivity].
  - simpl. split; [intros Heq; now apply app_one_ne in Heq|].
    intros (n & Heq & Hn). injection Heq as ->.
    assert (Py.in_range (JInt n) 2 11 = true); [|congruence].
    apply in_range_int; [lia|]. exists n. split; [reflexivity | lia].
Qed.

Lemma check_tileset_rule st st' :
  check_tileset map_info_json st = Ok st' ->
  (v_errors st' = v_errors st <-> tileset_rule map_info_json).
Proof.
  unfold check_tileset, item, Py.dict_item, tileset_rule. intros H.
  destruct (Py.dict_get "tileset" map_info_json) as [ts|] eqn:Hts; cbn [bind] in H; [|discriminate].
  destruct (Py.in_str_list ts allowed_tilesets) eqn:Hin; cbn [negb] in H; injection H as <-.
  - apply in_str_list_In in Hin as (s & -> & Hs).
    split; [intros _; exists s; auto | reflexivity].
  - simpl. split; [intros Heq; now apply app_one_ne in Heq|].
    intros (t & Heq & Ht). injection Heq as ->.
    assert (Py.in_str_list (JStr t) allowed_tilesets = true); [|congruence].
    apply in_str_list_In. eauto.
Qed.

Lemma dict_has_get k (d : pydict) :
  Py.dict_has k d = match Py.dict_get k d with Some _ => true | None => false end.
Proof. reflexivity. Qed.

Lemma check_license_rule st st' valid :
  check_license license_check map_info_json st = Ok (st', valid) ->
  (v_errors st' = v_errors st <-> license_rule license_check map_info_json)
  /\ (valid = true <-> license_rule license_check map_info_json)
  /\ v_errors_non_fatal st' = v_errors_non_fatal st /\ v_passed st' = v_passed st.
Proof.
  unfold check_license, item, Py.dict_item, license_rule. rewrite dict_has_get. intros H.
  destruct (Py.dict_get "license" map_info_json) as [l|] eqn:Hl; simpl in H.
  - destruct (license_check l) eqn:Hc; injection H as <- <-; simpl;
      (split; [|split; [|split; reflexivity]]).
    all: try (split; [intros Heq; first [now apply app_one_ne in Heq | discriminate Heq]
                     | intros (l' & Heq & Hl'); injection Heq as <-; congruence]).
    all: split; [intros _; eauto | reflexivity].
  - injection H as <- <-. simpl. split; [|split; [|split; reflexivity]].
    + split; [intros Heq; now apply app_one_ne in Heq | intros (l' & Heq & _); discriminate].
    + split; [discriminate | intros (l' & Heq & _); discriminate].
Qed.

Lemma contains_name_dict author :
  Py.contains "name" author = Ok true ->
  forall name, Py.getitem author "name" = Ok name ->
  exists d, author = JDict d /\ Py.dict_get "name" d = Some name.
Proof.
  intros _ name H. destruct author; try discriminate. simpl in H.
  unfold Py.dict_item in H. destruct (Py.dict_get "name" d) eqn:E; [|discriminate].
  injection H as <-. eauto.
Qed.

Lemma check_author_rule valid st st' :
  (valid = true <-> license_rule license_check map_info_json) ->
  check_author map_info_json valid st = Ok st' ->
  (v_errors st' = v_errors st <-> author_rule license_check map_info_json).
Proof.
  intros Hvalid. unfold check_author, item, Py.dict_item, author_rule.
  rewrite (dict_has_get "author"). intros H.
  destruct (Py.dict_get "author" map_info_json) as [author|] eqn:Ha; simpl in H.
  - destruct (Py.contains "name" author) as [has|] eqn:Hc; simpl in H; [|discriminate].
    destruct has; simpl in H.
    + destruct (Py.getitem author "name") as [name|] eqn:Hg; simpl in H; [|discriminate].
      destruct (Py.len name) as [n|] eqn:Hlen; simpl in H; [|discriminate].
      destruct (contains_name_dict _ Hc _ Hg) as (d & -> & Hd).
      assert (Hrule : (exists d0 name0 n0, JDict d = JDict d0
                         /\ Py.dict_get "name" d0 = Some name0
                         /\ Py.len name0 = Ok n0 /\ (n0 <= 60)%Z) <-> (n <= 60)%Z).
      { split.
        - intros (d0 & name0 & n0 & Heq & Hd0 & Hl0 & Hn0). injection Heq as <-. congruence.
        - intros Hn. exists d, name, n. auto. }
      rewrite Hrule. clear Hrule. unfold MAX_ALLOWED_AUTHOR_NAME_LENGTH in H.
      destruct (n =? 0)%Z eqn:Hz.
      * injection H as <-. apply Z.eqb_eq in Hz. simpl. split; [lia | reflexivity].
      * destruct (n >? 60)%Z eqn:Hlong; injection H as <-; simpl.
        -- apply Z.gtb_lt in Hlong.
           split; [intros Heq; now apply app_one_ne in Heq | lia].
        -- rewrite Z.gtb_ltb in Hlong. apply Z.ltb_ge in Hlong. split; [lia | reflexivity].
    + injection H as <-. simpl. split; [intros Heq; now apply app_one_ne in Heq|].
      intros (d & name & n & -> & Hd & _). simpl in Hc. unfold Py.dict_has in Hc.
      rewrite Hd in Hc. discriminate.
  - destruct (Py.dict_has "additionalAuthors" map_info_json); simpl in H.
    + injection H as <-. simpl.
      split; [intros Heq; now apply app_one_ne in Heq | intros [Hf _]; discriminate].
    + destruct valid; injection H as <-; simpl.
      * split; [intros _; split; [reflexivity | now apply Hvalid] | reflexivity].
      * split; [intros Heq; now apply app_one_ne in Heq|].
        intros [_ Hl]. apply Hvalid in Hl. discriminate.
Qed.

Lemma check_created_rule st st' :
  check_created now map_info_json warning_options st = Ok st' ->
  (v_errors st' = v_errors st <-> created_rule map_info_json).
Proof.
  unfold check_created, item, Py.dict_item, created_rule, append_two_arguments, py_match.
  rewrite dict_has_get. intros H.
  destruct (Py.dict_get "created" map_info_json) as [created|] eqn:Hc; simpl in H.
  2:{ injection H as <-. rewrite v_errors_warn_if. tauto. }
  destruct (Py.as_str created) as [s|] eqn:Hs; simpl in H; [|discriminate].
  destruct created; try discriminate. injection Hs as ->.
  destruct (re_match DATE_FORMAT_RE s) as [g|] eqn:Hm.
  - destruct (datetime _ _ _) as [dt|]; simpl in H; [|discriminate].
    destruct (_ <? -1)%Z; simpl in H; [discriminate|].
    destruct (_ <? 1999)%Z; [discriminate|]. injection H as <-.
    apply date_match_sound in Hm as (y & m & d & Hacc & _).
    split; [intros _; exists s, y, m, d; auto | reflexivity].
  - injection H as <-. simpl. split; [intros Heq; now apply app_one_ne in Heq|].
    intros (s0 & y & m & d & Heq & Hacc). injection Heq as <-.
    apply date_match_accepts in Hacc. congruence.
Qed.

Lemma check_mapsize_rule st st' :
  check_mapsize map_info_json st = Ok st' ->
  (v_errors st' = v_errors st <-> mapsize_rule map_info_json).
Proof.
  unfold check_mapsize, item, Py.dict_item, mapsize_rule. intros H.
  destruct (Py.dict_get "mapsize" map_info_json) as [ms|] eqn:Hms; simpl in H; [|discriminate].
  destruct (Py.getitem ms "w") as [mw|] eqn:Hw; simpl in H; [|discriminate].
  destruct (Py.getitem ms "h") as [mh|] eqn:Hh; simpl in H; [|discriminate].
  destruct (Py.as_int mw) as [w|] eqn:Hiw; simpl in H; [|discriminate].
  destruct (Py.as_int mh) as [h|] eqn:Hih; simpl in H; [|discriminate].
  injection H as <-.
  assert (Hrule : (exists mapsize map_width map_height w0 h0,
                     Some ms = Some mapsize
                     /\ Py.getitem mapsize "w" = Ok map_width /\ Py.as_int map_width = Ok w0
                     /\ Py.getitem mapsize "h" = Ok map_height /\ Py.as_int map_height = Ok h0
                     /\ (1 <= w0 <= 256)%Z /\ (1 <= h0 <= 256)%Z)
                  <-> (1 <= w <= 256)%Z /\ (1 <= h <= 256)%Z).
  { split.
    - intros (ms0 & mw0 & mh0 & w0 & h0 & Heq & Hw0 & Hiw0 & Hh0 & Hih0 & Hbw & Hbh).
      injection Heq as <-. rewrite Hw in Hw0. injection Hw0 as <-.
      rewrite Hh in Hh0. injection Hh0 as <-. split; congruence.
    - intros [Hbw Hbh]. exists ms, mw, mh, w, h. auto 10. }
  rewrite Hrule. clear Hrule.
  destruct ((1 <=? w)%Z && (w <=? 256)%Z) eqn:Ew; destruct ((1 <=? h)%Z && (h <=? 256)%Z) eqn:Eh;
    simpl.
  - apply andb_prop in Ew as [E1 E2]. apply andb_prop in Eh as [E3 E4].
    apply Z.leb_le in E1, E2, E3, E4. split; [lia | reflexivity].
  - apply andb_false_iff in Eh. split; [intros Heq; now apply app_one_ne in Heq|].
    intros [_ [H1 H2]]. destruct Eh as [E|E]; apply Z.leb_gt in E; lia.
  - apply andb_false_iff in Ew. split; [intros Heq; now apply app_one_ne in Heq|].
    intros [[H1 H2] _]. destruct Ew as [E|E]; apply Z.leb_gt in E; lia.
  - apply andb_false_iff in Ew. split; [intros Heq; now apply app_two_ne in Heq|].
    intros [[H1 H2] _]. destruct Ew as [E|E]; apply Z.leb_gt in E; lia.
Qed.

End ChecksRules.

Lemma Ok_inj {A} (a b : A) : Ok a = Ok b -> a = b.
Proof. intros H. now injection H. Qed.

Lemma v_errors_non_fatal_warn_if o f st :
  v_errors_non_fatal (warn_if o f st) = v_errors_non_fatal st.
Proof. now destruct o. Qed.

Lemma v_passed_warn_if o f st : v_passed (warn_if o f st) = v_passed st.
Proof. now destruct o. Qed.

Lemma v_errors_non_fatal_failed_format_check enforce opts f st :
  v_errors_non_fatal (failed_format_check enforce opts f st) = v_errors_non_fatal st.
Proof.
  unfold failed_format_check. destruct enforce; simpl; [reflexivity|].
  now rewrite v_errors_non_fatal_warn_if.
Qed.

Lemma v_passed_failed_format_check enforce opts f st :
  v_passed (failed_format_check enforce opts f st) = false.
Proof.
  unfold failed_format_check. destruct enforce; simpl; [reflexivity|].
  now rewrite v_passed_warn_if.
Qed.

(** What a check that can only warn leaves alone. *)
Ltac only_warns :=
  repeat split; rewrite ?v_errors_warn_if, ?v_errors_non_fatal_warn_if, ?v_passed_warn_if;
  simpl; rewrite ?v_errors_warn_if, ?v_errors_non_fatal_warn_if, ?v_passed_warn_if;
  reflexivity.

Section ChecksFrame.
Variable license_check : json -> license_verdict.
Variable now : datetime_t.
Variable map_info_json : pydict.
Variable enforce_format_checks : bool.
Variable warning_options : ValidateMapWarningOptions.

Lemma check_name_frame st st' :
  check_name map_info_json warning_options st = Ok st' ->
  v_errors_non_fatal st' = v_errors_non_fatal st /\ v_passed st' = v_passed st.
Proof. unfold check_name. intros H. ok_cases; split_ifs; only_warns. Qed.

Lemma check_type_frame st st' :
  check_type map_info_json st = Ok st' ->
  v_errors_non_fatal st' = v_errors_non_fatal st /\ v_passed st' = v_passed st.
Proof. unfold check_type. intros H. ok_cases; split_ifs; only_warns. Qed.

Lemma check_players_frame st st' :
  check_players map_info_json st = Ok st' ->
  v_errors_non_fatal st' = v_errors_non_fatal st /\ v_passed st' = v_passed st.
Proof. unfold check_players. intros H. ok_cases; split_ifs; only_warns. Qed.

Lemma check_tileset_frame st st' :
  check_tileset map_info_json st = Ok st' ->
  v_errors_non_fatal st' = v_errors_non_fatal st /\ v_passed st' = v_passed st.
Proof. unfold check_tileset. intros H. ok_cases; split_ifs; only_warns. Qed.

Lemma check_created_frame st st' :
  check_created now map_info_json warning_options st = Ok st' ->
  v_errors_non_fatal st' = v_errors_non_fatal st /\ v_passed st' = v_passed st.
Proof.
  unfold check_created, append_two_arguments. intros H. ok_cases; split_ifs; only_warns.
Qed.

Lemma check_mapsize_frame st st' :
  check_mapsize map_info_json st = Ok st' ->
  v_errors_non_fatal st' = v_errors_non_fatal st /\ v_passed st' = v_passed st.
Proof. unfold check_mapsize. intros H. ok_cases; split_ifs; only_warns. Qed.

Lemma check_oil_frame st st' :
  check_oil map_info_json warning_options st = Ok st' ->
  v_errors st' = v_errors st
  /\ v_errors_non_fatal st' = v_errors_non_fatal st /\ v_passed st' = v_passed st.
Proof. unfold check_oil. intros H. ok_cases; split_ifs; only_warns. Qed.

Lemma check_hq_slots_frame player_hqs indices st st' :
  check_hq_slots player_hqs indices st = Ok st' ->
  v_errors st' = v_errors st
  /\ v_errors_non_fatal st' = v_errors_non_fatal st /\ v_passed st' = v_passed st.
Proof.
  revert st. induction indices as [|i rest IH]; intros st H; simpl in H.
  - injection H as <-. auto.
  - destruct (check_hq_slot player_hqs i st) as [st1|e] eqn:E; simpl in H; [|discriminate].
    apply IH in H as (H1 & H2 & H3). rewrite H1, H2, H3.
    unfold check_hq_slot, try_except_Index_Type in E. ok_cases; split_ifs; only_warns.
Qed.

Lemma check_hq_frame st st' :
  check_hq map_info_json st = Ok st' ->
  v_errors st' = v_errors st
  /\ v_errors_non_fatal st' = v_errors_non_fatal st /\ v_passed st' = v_passed st.
Proof.
  unfold check_hq. intros H.
  destruct (item map_info_json "players") as [p|e]; simpl in H; [|discriminate].
  destruct (Py.as_int p) as [n|e]; simpl in H; [|discriminate].
  destruct (n >=? 2)%Z; [|injection H as <-; auto].
  destruct (item map_info_json "hq") as [hqs|e]; simpl in H; [|discriminate].
  eapply check_hq_slots_frame; eassumption.
Qed.

Lemma check_player_structures_frame st st' :
  check_player_structures map_info_json warning_options st = Ok st' ->
  v_errors st' = v_errors st
  /\ v_errors_non_fatal st' = v_errors_non_fatal st /\ v_passed st' = v_passed st.
Proof. unfold check_player_structures. intros H. ok_cases; split_ifs; only_warns. Qed.

Lemma check_mods_frame st st' :
  check_mods map_info_json warning_options st = Ok st' ->
  v_errors_non_fatal st' = v_errors_non_fatal st /\ v_passed st' = v_passed st.
Proof. unfold check_mods. intros H. ok_cases; split_ifs; only_warns. Qed.

Lemma check_author_frame valid st st' :
  check_author map_info_json valid st = Ok st' -> v_passed st' = v_passed st.
Proof. unfold check_author. intros H. ok_cases; split_ifs; only_warns. Qed.

Lemma check_formats_frame st st' :
  check_formats map_info_json enforce_format_checks warning_options st = Ok st' ->
  v_errors_non_fatal st' = v_errors_non_fatal st.
Proof.
  unfold check_formats. intros H. ok_cases; split_ifs;
    now rewrite ?v_errors_non_fatal_failed_format_check.
Qed.

Lemma is_True_spec v : Py.is_True v = true <-> v = JBool true.
Proof. destruct v as [|[]| | | |]; simpl; split; congruence. Qed.

Lemma check_mods_rule st st' :
  check_mods map_info_json warning_options st = Ok st' ->
  (v_errors st' = v_errors st <-> mods_rule map_info_json).
Proof.
  clear license_check now enforce_format_checks.
  unfold check_mods, item, Py.dict_item, mods_rule. rewrite dict_has_get. intros H.
  destruct (Py.dict_get "mapMod" map_info_json) as [mapMod|] eqn:Hm; cbn [bind] in H;
    [|discriminate].
  destruct (Py.is_True mapMod) eqn:Ht.
  2:{ injection H as <-. split; [|reflexivity]. intros _ mt Heq. injection Heq as ->.
      discriminate Ht. }
  apply is_True_spec in Ht. subst mapMod.
  destruct (Py.dict_get "modTypes" map_info_json) as [mt|] eqn:Hmt; cbn [bind] in H.
  2:{ injection H as <-. rewrite v_errors_warn_if. split; [|reflexivity].
      intros _ mt' _ Heq. discriminate. }
  destruct (all_in ["gamemodels"; "datasets"] mt) as [both|] eqn:Hboth; cbn [bind] in H;
    [|discriminate].
  destruct (all_in ["textures"] mt) as [tex|] eqn:Htex; cbn [bind] in H; [|discriminate].
  assert (Hrule : (forall modTypes, Some (JBool true) = Some (JBool true) ->
                     Some mt = Some modTypes ->
                     all_in ["gamemodels"; "datasets"] modTypes <> Ok true)
                  <-> both = false).
  { split.
    - intros Hr. specialize (Hr mt eq_refl eq_refl). rewrite Hboth in Hr.
      destruct both; [now destruct Hr | reflexivity].
    - intros -> mt' _ Heq. injection Heq as <-. rewrite Hboth. discriminate. }
  rewrite Hrule. clear Hrule.
  destruct both; cbn [negb andb] in H.
  - injection H as <-. destruct tex; rewrite ?v_errors_warn_if; simpl;
      (split; [intros Heq; now apply app_one_ne in Heq | discriminate]).
  - destruct (mods_auto_strip_warning warning_options).
    + destruct (py_join "," mt); simpl in H; [|discriminate]. injection H as <-.
      destruct tex; simpl; rewrite ?v_errors_warn_if; tauto.
    + injection H as <-. destruct tex; rewrite ?v_errors_warn_if; tauto.
Qed.

Lemma check_formats_rule st st' :
  check_formats map_info_json enforce_format_checks warning_options st = Ok st' ->
  (v_passed st' = true <-> v_passed st = true /\ formats_rule map_info_json)
  /\ (v_errors st' = v_errors st
      <-> (enforce_format_checks = true -> formats_rule map_info_json)).
Proof.
  clear license_check now.
  unfold check_formats, item, Py.dict_item, formats_rule. intros H.
  destruct (Py.dict_get "levelFormat" map_info_json) as [lf|] eqn:Hlf; cbn [bind] in H;
    [|discriminate].
  destruct (Py.dict_get "mapFormat" map_info_json) as [mf|] eqn:Hmf; cbn [bind] in H;
    [|discriminate].
  destruct (Py.dict_get "flatMapPackage" map_info_json) as [fp|] eqn:Hfp; cbn [bind] in H;
    [|discriminate].
  apply Ok_inj in H. subst st'.
  assert (Hrule : (Some lf = Some (JStr "json")
                   /\ (Some mf = Some (JStr "script") \/ Some mf = Some (JStr "jsonv2"))
                   /\ Some fp = Some (JBool true))
                  <-> Py.in_str_list lf allowed_levelformats = true
                      /\ Py.in_str_list mf allowed_mapformats = true
                      /\ Py.is_True fp = true).
  { rewrite !in_str_list_In, is_True_spec. split.
    - intros (H1 & H2 & H3). injection H1 as ->. injection H3 as ->.
      split; [exists "json"; simpl; auto|]. split; [|reflexivity].
      destruct H2 as [H2|H2]; injection H2 as ->; eexists; split; try reflexivity;
        simpl; auto.
    - intros ((s1 & -> & [<-|[]]) & (s2 & -> & [<-|[<-|[]]]) & ->); auto. }
  rewrite Hrule. clear Hrule.
  destruct (Py.in_str_list lf allowed_levelformats);
    destruct (Py.in_str_list mf allowed_mapformats);
    destruct (Py.is_True fp); cbn [negb];
    rewrite ?v_passed_failed_format_check, ?v_errors_failed_format_check;
    destruct enforce_format_checks; rewrite ?app_nil_r; (split; split); intros Hx;
    try tauto; try (intuition congruence);
    try (exfalso; rewrite <- ?app_assoc in Hx;
         apply (f_equal (@length finding)) in Hx;
         rewrite ?length_app in Hx; simpl in Hx; lia);
    try (exfalso; destruct (Hx eq_refl) as (? & ? & ?); discriminate).
Qed.

End ChecksFrame.

Section ValidatorRun.
Variable license_check : json -> license_verdict.
Variable now : datetime_t.
Variable map_info_json : pydict.
Variable enforce_format_checks : bool.
Variable warning_options : ValidateMapWarningOptions.

(** The states between the checks of a run that returned. *)
Lemma validate_map_info_run r :
  validate_map_info license_check now map_info_json enforce_format_checks warning_options
  = Ok r ->
  exists st1 st2 st3 st4 st5 valid st6 st7 st8 st9 st10 st11 st12 st13,
    check_name map_info_json warning_options vstate0 = Ok st1
    /\ check_type map_info_json st1 = Ok st2
    /\ check_players map_info_json st2 = Ok st3
    /\ check_tileset map_info_json st3 = Ok st4
    /\ check_license license_check map_info_json st4 = Ok (st5, valid)
    /\ check_author map_info_json valid st5 = Ok st6
    /\ check_created now map_info_json warning_options st6 = Ok st7
    /\ check_mapsize map_info_json st7 = Ok st8
    /\ check_oil map_info_json warning_options st8 = Ok st9
    /\ check_hq map_info_json st9 = Ok st10
    /\ check_player_structures map_info_json warning_options st10 = Ok st11
    /\ check_mods map_info_json warning_options st11 = Ok st12
    /\ check_formats map_info_json enforce_format_checks warning_options st12 = Ok st13
    /\ r = {| warnings := v_warnings st13; errors := v_errors st13;
              passedFormatChecks := v_passed st13;
              errors_non_fatal := v_errors_non_fatal st13 |}.
Proof.
  unfold validate_map_info. intros H.
  destruct (check_name _ _ _) as [st1|] eqn:E1; simpl in H; [|discriminate].
  destruct (check_type _ _) as [st2|] eqn:E2; simpl in H; [|discriminate].
  destruct (check_players _ _) as [st3|] eqn:E3; simpl in H; [|discriminate].
  destruct (check_tileset _ _) as [st4|] eqn:E4; simpl in H; [|discriminate].
  destruct (check_license _ _ _) as [[st5 valid]|] eqn:E5; simpl in H; [|discriminate].
  destruct (check_author _ _ _) as [st6|] eqn:E6; simpl in H; [|discriminate].
  destruct (check_created _ _ _ _) as [st7|] eqn:E7; simpl in H; [|discriminate].
  destruct (check_mapsize _ _) as [st8|] eqn:E8; simpl in H; [|discriminate].
  destruct (check_oil _ _ _) as [st9|] eqn:E9; simpl in H; [|discriminate].
  destruct (check_hq _ _) as [st10|] eqn:E10; simpl in H; [|discriminate].
  destruct (check_player_structures _ _ _) as [st11|] eqn:E11; simpl in H; [|discriminate].
  destruct (check_mods _ _ _) as [st12|] eqn:E12; simpl in H; [|discriminate].
  destruct (check_formats _ _ _ _) as [st13|] eqn:E13; simpl in H; [|discriminate].
  injection H as <-.
  exists st1, st2, st3, st4, st5, valid, st6, st7, st8, st9, st10, st11, st12, st13.
  auto 20.
Qed.

(** The errors of a run that returned, against the rules. *)
Lemma errors_nil_iff_rules r :
  validate_map_info license_check now map_info_json enforce_format_checks warning_options
  = Ok r ->
  (errors r = [] <-> meets_rules license_check map_info_json enforce_format_checks).
Proof.
  intros H.
  destruct (validate_map_info_run r H)
    as (st1 & st2 & st3 & st4 & st5 & valid & st6 & st7 & st8 & st9 & st10 & st11 & st12
        & st13 & E1 & E2 & E3 & E4 & E5 & E6 & E7 & E8 & E9 & E10 & E11 & E12 & E13 & ->).
  simpl.
  pose proof (check_name_rule _ _ _ _ E1) as R1.
  pose proof (check_type_rule _ _ _ E2) as R2.
  pose proof (check_players_rule _ _ _ E3) as R3.
  pose proof (check_tileset_rule _ _ _ E4) as R4.
  pose proof (check_license_rule _ _ _ _ _ E5) as (R5 & Hvalid & _).
  pose proof (check_author_rule _ _ _ _ _ Hvalid E6) as R6.
  pose proof (check_created_rule _ _ _ _ _ E7) as R7.
  pose proof (check_mapsize_rule _ _ _ E8) as R8.
  pose proof (check_oil_frame _ _ _ _ E9) as (R9 & _).
  pose proof (check_hq_frame _ _ _ E10) as (R10 & _).
  pose proof (check_player_structures_frame _ _ _ _ E11) as (R11 & _).
  pose proof (check_mods_rule _ _ _ _ E12) as R12.
  pose proof (check_formats_rule _ _ _ _ _ E13) as (_ & R13).
  unfold meets_rules. rewrite <- R1, <- R2, <- R3, <- R4, <- R5, <- R6, <- R7, <- R8,
    <- R12, <- R13.
  split.
  - intros H13.
    apply (grow_nil st12) in H13 as (H12 & Q13); [|eapply check_formats_grows; eassumption].
    apply (grow_nil st11) in H12 as (H11 & Q12); [|eapply check_mods_grows; eassumption].
    rewrite R11, R10, R9 in H11.
    apply (grow_nil st7) in H11 as (H7 & Q8); [|eapply check_mapsize_grows; eassumption].
    apply (grow_nil st6) in H7 as (H6 & Q7); [|eapply check_created_grows; eassumption].
    apply (grow_nil st5) in H6 as (H5 & Q6); [|eapply check_author_grows; eassumption].
    apply (grow_nil st4) in H5 as (H4 & Q5); [|eapply check_license_grows; eassumption].
    apply (grow_nil st3) in H4 as (H3 & Q4); [|eapply check_tileset_grows; eassumption].
    apply (grow_nil st2) in H3 as (H2 & Q3); [|eapply check_players_grows; eassumption].
    apply (grow_nil st1) in H2 as (H1 & Q2); [|eapply check_type_grows; eassumption].
    apply (grow_nil vstate0) in H1 as (_ & Q1); [|eapply check_name_grows; eassumption].
    auto 12.
  - intros (Q1 & Q2 & Q3 & Q4 & Q5 & Q6 & Q7 & Q8 & Q12 & Q13).
    rewrite Q13, Q12, R11, R10, R9, Q8, Q7, Q6, Q5, Q4, Q3, Q2, Q1. reflexivity.
Qed.


(** The format flag of a run that returned. *)
Lemma passed_iff_formats_rule r :
  validate_map_info license_check now map_info_json enforce_format_checks warning_options
  = Ok r ->
  (passedFormatChecks r = true <-> formats_rule map_info_json).
Proof.
  intros H.
  destruct (validate_map_info_run r H)
    as (st1 & st2 & st3 & st4 & st5 & valid & st6 & st7 & st8 & st9 & st10 & st11 & st12
        & st13 & E1 & E2 & E3 & E4 & E5 & E6 & E7 & E8 & E9 & E10 & E11 & E12 & E13 & ->).
  simpl.
  pose proof (check_name_frame _ _ _ _ E1) as (_ & P1).
  pose proof (check_type_frame _ _ _ E2) as (_ & P2).
  pose proof (check_players_frame _ _ _ E3) as (_ & P3).
  pose proof (check_tileset_frame _ _ _ E4) as (_ & P4).
  pose proof (check_license_rule _ _ _ _ _ E5) as (_ & _ & _ & P5).
  pose proof (check_author_frame _ _ _ _ E6) as P6.
  pose proof (check_created_frame _ _ _ _ _ E7) as (_ & P7).
  pose proof (check_mapsize_frame _ _ _ E8) as (_ & P8).
  pose proof (check_oil_frame _ _ _ _ E9) as (_ & _ & P9).
  pose proof (check_hq_frame _ _ _ E10) as (_ & _ & P10).
  pose proof (check_player_structures_frame _ _ _ _ E11) as (_ & _ & P11).
  pose proof (check_mods_frame _ _ _ _ E12) as (_ & P12).
  pose proof (check_formats_rule _ _ _ _ _ E13) as (R13 & _).
  rewrite R13, P12, P11, P10, P9, P8, P7, P6, P5, P4, P3, P2, P1. simpl. tauto.
Qed.

(** X10.  The flag [passedFormatChecks] of a result is set exactly when
    the level format is "json", the map format is "script" or "jsonv2" and
    the package is flat, whether the format checks are enforced or not. *)
Theorem passedFormatChecks_exactly r :
  validate_map_info license_check now map_info_json enforce_format_checks warning_options
  = Ok r ->
  (passedFormatChecks r = true <-> formats_rule map_info_json).
Proof. intros H. now apply passed_iff_formats_rule. Qed.

Lemma check_author_non_fatal valid st st' :
  (valid = true <-> license_rule license_check map_info_json) ->
  check_author map_info_json valid st = Ok st' ->
  (Py.dict_get "author" map_info_json = None
   /\ Py.dict_has "additionalAuthors" map_info_json = false
   /\ license_rule license_check map_info_json
   /\ v_errors_non_fatal st' = (v_errors_non_fatal st ++ [Msg "Missing 'author' key" []])%list)
  \/ (~ (Py.dict_get "author" map_info_json = None
         /\ Py.dict_has "additionalAuthors" map_info_json = false
         /\ license_rule license_check map_info_json)
      /\ v_errors_non_fatal st' = v_errors_non_fatal st).
Proof.
  intros Hvalid. unfold check_author, item, Py.dict_item. rewrite (dict_has_get "author").
  intros H.
  destruct (Py.dict_get "author" map_info_json) as [author|] eqn:Ha; cbn [negb bind] in H.
  - right. split; [intros (Hx & _); discriminate|]. ok_cases; split_ifs; reflexivity.
  - destruct (Py.dict_has "additionalAuthors" map_info_json); simpl in H.
    + right. injection H as <-. split; [intros (_ & Hx & _); discriminate | reflexivity].
    + destruct valid; injection H as <-; simpl.
      * left. split; [reflexivity|]. split; [reflexivity|]. split; [now apply Hvalid|reflexivity].
      * right. split; [|reflexivity]. intros (_ & _ & Hl). apply Hvalid in Hl. discriminate.
Qed.

(** X11.  The only non-fatal error is the missing author: the list
    [errors_non_fatal] of a result holds "Missing 'author' key" when the
    document has no author, no additional authors and an expected license,
    and is empty otherwise. *)
Theorem errors_non_fatal_exactly r :
  validate_map_info license_check now map_info_json enforce_format_checks warning_options
  = Ok r ->
  (Py.dict_get "author" map_info_json = None
   /\ Py.dict_has "additionalAuthors" map_info_json = false
   /\ license_rule license_check map_info_json
   /\ errors_non_fatal r = [Msg "Missing 'author' key" []])
  \/ (~ (Py.dict_get "author" map_info_json = None
         /\ Py.dict_has "additionalAuthors" map_info_json = false
         /\ license_rule license_check map_info_json)
      /\ errors_non_fatal r = []).
Proof.
  intros H.
  destruct (validate_map_info_run r H)
    as (st1 & st2 & st3 & st4 & st5 & valid & st6 & st7 & st8 & st9 & st10 & st11 & st12
        & st13 & E1 & E2 & E3 & E4 & E5 & E6 & E7 & E8 & E9 & E10 & E11 & E12 & E13 & ->).
  simpl.
  pose proof (check_name_frame _ _ _ _ E1) as (P1 & _).
  pose proof (check_type_frame _ _ _ E2) as (P2 & _).
  pose proof (check_players_frame _ _ _ E3) as (P3 & _).
  pose proof (check_tileset_frame _ _ _ E4) as (P4 & _).
  pose proof (check_license_rule _ _ _ _ _ E5) as (_ & Hvalid & P5 & _).
  pose proof (check_author_non_fatal _ _ _ Hvalid E6) as P6.
  pose proof (check_created_frame _ _ _ _ _ E7) as (P7 & _).
  pose proof (check_mapsize_frame _ _ _ E8) as (P8 & _).
  pose proof (check_oil_frame _ _ _ _ E9) as (_ & P9 & _).
  pose proof (check_hq_frame _ _ _ E10) as (_ & P10 & _).
  pose proof (check_player_structures_frame _ _ _ _ E11) as (_ & P11 & _).
  pose proof (check_mods_frame _ _ _ _ E12) as (P12 & _).
  pose proof (check_formats_frame _ _ _ _ _ E13) as P13.
  rewrite P13, P12, P11, P10, P9, P8, P7.
  rewrite P5, P4, P3, P2, P1 in P6. simpl in P6. exact P6.
Qed.

End ValidatorRun.


Lemma passedFormatChecks_exactly_witness :
  passedFormatChecks (sample_result (dict_set "mapFormat" (JStr "mixed") sample_map_info)) = true
  <-> formats_rule (dict_set "mapFormat" (JStr "mixed") sample_map_info).
Proof.
  refine (passedFormatChecks_exactly sample_license_check sample_now
            (dict_set "mapFormat" (JStr "mixed") sample_map_info)
            true default_warning_options
            (sample_result (dict_set "mapFormat" (JStr "mixed") sample_map_info)) _).
  vm_compute. reflexivity.
Defined.

Lemma errors_non_fatal_exactly_witness :
  (Py.dict_get "author" (dict_del "author" sample_map_info) = None
   /\ Py.dict_has "additionalAuthors" (dict_del "author" sample_map_info) = false
   /\ license_rule sample_license_check (dict_del "author" sample_map_info)
   /\ errors_non_fatal (sample_result (dict_del "author" sample_map_info))
      = [Msg "Missing 'author' key" []])
  \/ (~ (Py.dict_get "author" (dict_del "author" sample_map_info) = None
         /\ Py.dict_has "additionalAuthors" (dict_del "author" sample_map_info) = false
         /\ license_rule sample_license_check (dict_del "author" sample_map_info))
      /\ errors_non_fatal (sample_result (dict_del "author" sample_map_info)) = []).
Proof.
  refine (errors_non_fatal_exactly sample_license_check sample_now
            (dict_del "author" sample_map_info) true default_warning_options
            (sample_result (dict_del "author" sample_map_info)) _).
  vm_compute. reflexivity.
Defined.

(** ** [validate_map_info]: enforcement and warning options *)

Lemma check_formats_unenforced map_info_json warning_options st st1 :
  check_formats map_info_json true warning_options st = Ok st1 ->
  exists st2,
    check_formats map_info_json false warning_options st = Ok st2
    /\ v_errors st2 = v_errors st
    /\ v_passed st2 = v_passed st1
    /\ v_errors_non_fatal st2 = v_errors_non_fatal st1
    /\ (v_errors st1 = v_errors st -> st2 = st1).
Proof.
  unfold check_formats, item, Py.dict_item. intros H.
  destruct (Py.dict_get "levelFormat" map_info_json) as [lf|]; cbn [bind] in H |- *;
    [|discriminate].
  destruct (Py.dict_get "mapFormat" map_info_json) as [mf|]; cbn [bind] in H |- *;
    [|discriminate].
  destruct (Py.dict_get "flatMapPackage" map_info_json) as [fp|]; cbn [bind] in H |- *;
    [|discriminate].
  apply Ok_inj in H. subst st1. eexists. split; [reflexivity|].
  destruct (Py.in_str_list lf allowed_levelformats);
    destruct (Py.in_str_list mf allowed_mapformats);
    destruct (Py.is_True fp); cbn [negb];
    rewrite ?v_passed_failed_format_check, ?v_errors_failed_format_check,
      ?v_errors_non_fatal_failed_format_check, ?app_nil_r;
    (split; [reflexivity|]); (split; [reflexivity|]); (split; [reflexivity|]);
    intros Heq; try reflexivity; exfalso;
    rewrite <- ?app_assoc in Heq; apply (f_equal (@length finding)) in Heq;
    rewrite ?length_app in Heq; simpl in Heq; lia.
Qed.

(** X12.  Without enforcement the format checks never give an error:
    the run with [enforce_format_checks=False] returns whenever the
    enforced run does, with the same flag and non-fatal errors, and the
    errors of the enforced run are its errors followed by the format
    errors; when the formats pass, the two results are the same. *)
Theorem unenforced_format_checks license_check now map_info_json warning_options r1 :
  validate_map_info license_check now map_info_json true warning_options = Ok r1 ->
  exists r2 format_errors,
    validate_map_info license_check now map_info_json false warning_options = Ok r2
    /\ errors r1 = (errors r2 ++ format_errors)%list
    /\ (format_errors = [] <-> passedFormatChecks r1 = true)
    /\ passedFormatChecks r2 = passedFormatChecks r1
    /\ errors_non_fatal r2 = errors_non_fatal r1
    /\ (passedFormatChecks r1 = true -> r2 = r1).
Proof.
  intros H.
  pose proof (passed_iff_formats_rule _ _ _ _ _ _ H) as Hpassed.
  destruct (validate_map_info_run _ _ _ _ _ r1 H)
    as (st1 & st2 & st3 & st4 & st5 & valid & st6 & st7 & st8 & st9 & st10 & st11 & st12
        & st13 & E1 & E2 & E3 & E4 & E5 & E6 & E7 & E8 & E9 & E10 & E11 & E12 & E13 & ->).
  simpl in Hpassed |- *.
  destruct (check_formats_unenforced _ _ _ _ E13) as (st2' & E13' & He & Hp & Hn & Hsame).
  pose proof (check_formats_grows _ _ _ _ _ E13) as [fmt Hfmt].
  pose proof (check_formats_rule _ _ _ _ _ E13) as (_ & R13).
  eexists. exists fmt. unfold validate_map_info.
  rewrite E1. cbn [bind]. rewrite E2. cbn [bind]. rewrite E3. cbn [bind].
  rewrite E4. cbn [bind]. rewrite E5. cbn [bind]. rewrite E6. cbn [bind].
  rewrite E7. cbn [bind]. rewrite E8. cbn [bind]. rewrite E9. cbn [bind].
  rewrite E10. cbn [bind]. rewrite E11. cbn [bind]. rewrite E12. cbn [bind].
  rewrite E13'. cbn [bind]. split; [reflexivity|]. simpl.
  assert (Hnil : fmt = [] <-> v_errors st13 = v_errors st12).
  { rewrite Hfmt. split; [intros ->; apply app_nil_r|].
    intros Heq. rewrite <- (app_nil_r (v_errors st12)) in Heq at 2.
    now apply app_inv_head in Heq. }
  split; [now rewrite He|]. split; [|split; [assumption|split; [assumption|]]].
  - rewrite Hnil, R13, Hpassed. tauto.
  - intros Hok. rewrite Hsame; [reflexivity|]. apply R13. intros _. now apply Hpassed.
Qed.

Lemma unenforced_format_checks_witness :
  exists r2 format_errors,
    validate_map_info sample_license_check sample_now
      (dict_set "levelFormat" (JStr "old") sample_map_info) false default_warning_options
    = Ok r2
    /\ errors (sample_result (dict_set "levelFormat" (JStr "old") sample_map_info))
       = (errors r2 ++ format_errors)%list
    /\ (format_errors = []
        <-> passedFormatChecks
              (sample_result (dict_set "levelFormat" (JStr "old") sample_map_info)) = true)
    /\ passedFormatChecks r2
       = passedFormatChecks
           (sample_result (dict_set "levelFormat" (JStr "old") sample_map_info))
    /\ errors_non_fatal r2
       = errors_non_fatal
           (sample_result (dict_set "levelFormat" (JStr "old") sample_map_info))
    /\ (passedFormatChecks
          (sample_result (dict_set "levelFormat" (JStr "old") sample_map_info)) = true ->
        r2 = sample_result (dict_set "levelFormat" (JStr "old") sample_map_info)).
Proof.
  refine (unenforced_format_checks sample_license_check sample_now
            (dict_set "levelFormat" (JStr "old") sample_map_info) default_warning_options
            (sample_result (dict_set "levelFormat" (JStr "old") sample_map_info)) _).
  vm_compute. reflexivity.
Defined.

(** *** Warning options *)

Ltac same_verdict_leaf :=
  unfold same_verdict in *;
  repeat match goal with H : _ /\ _ |- _ => destruct H end;
  rewrite ?v_errors_warn_if, ?v_errors_non_fatal_warn_if, ?v_passed_warn_if,
    ?v_passed_failed_format_check, ?v_errors_failed_format_check,
    ?v_errors_non_fatal_failed_format_check;
  simpl;
  rewrite ?v_errors_warn_if, ?v_errors_non_fatal_warn_if, ?v_passed_warn_if,
    ?v_passed_failed_format_check, ?v_errors_failed_format_check,
    ?v_errors_non_fatal_failed_format_check;
  repeat split; congruence.

(** The case analysis of [ok_cases], carried out on the goal as well. *)
Ltac ok_cases_both :=
  repeat (cbn [bind];
          match goal with
          | H : bind ?m _ = Ok _ |- _ =>
              destruct m eqn:?; cbn [bind] in H |- *; [|discriminate H]
          | H : (let (_, _) := ?p in _) = Ok _ |- _ => destruct p
          | H : (if ?c then _ else _) = Ok _ |- _ => destruct c eqn:?
          | H : match ?x with _ => _ end = Ok _ |- _ => destruct x eqn:?
          | H : Raise _ = Ok _ |- _ => discriminate H
          | H : Ok _ = Ok _ |- _ => apply Ok_inj in H; subst
          | H : (?a, ?b) = (?c, ?d) |- _ =>
              assert (a = c) by congruence; assert (b = d) by congruence; clear H; subst
          end).

Ltac same_verdict_check :=
  intros H Hsv; ok_cases_both;
  eexists; (split; [reflexivity|]); split_ifs; same_verdict_leaf.

Section WarningOptions.
Variable license_check : json -> license_verdict.
Variable now : datetime_t.
Variable map_info_json : pydict.
Variable enforce_format_checks : bool.
Variable o1 o2 : ValidateMapWarningOptions.

Lemma check_name_options st1 st1' st2 :
  check_name map_info_json o1 st1 = Ok st1' -> same_verdict st1 st2 ->
  exists st2', check_name map_info_json o2 st2 = Ok st2' /\ same_verdict st1' st2'.
Proof. unfold check_name. same_verdict_check. Qed.

Lemma check_type_options st1 st1' st2 :
  check_type map_info_json st1 = Ok st1' -> same_verdict st1 st2 ->
  exists st2', check_type map_info_json st2 = Ok st2' /\ same_verdict st1' st2'.
Proof. unfold check_type. same_verdict_check. Qed.

Lemma check_players_options st1 st1' st2 :
  check_players map_info_json st1 = Ok st1' -> same_verdict st1 st2 ->
  exists st2', check_players map_info_json st2 = Ok st2' /\ same_verdict st1' st2'.
Proof. unfold check_players. same_verdict_check. Qed.

Lemma check_tileset_options st1 st1' st2 :
  check_tileset map_info_json st1 = Ok st1' -> same_verdict st1 st2 ->
  exists st2', check_tileset map_info_json st2 = Ok st2' /\ same_verdict st1' st2'.
Proof. unfold check_tileset. same_verdict_check. Qed.

Lemma check_license_options st1 st1' valid st2 :
  check_license license_check map_info_json st1 = Ok (st1', valid) -> same_verdict st1 st2 ->
  exists st2', check_license license_check map_info_json st2 = Ok (st2', valid)
               /\ same_verdict st1' st2'.
Proof. unfold check_license. same_verdict_check. Qed.

Lemma check_author_options valid st1 st1' st2 :
  check_author map_info_json valid st1 = Ok st1' -> same_verdict st1 st2 ->
  exists st2', check_author map_info_json valid st2 = Ok st2' /\ same_verdict st1' st2'.
Proof. unfold check_author. same_verdict_check. Qed.

Lemma check_created_options st1 st1' st2 :
  check_created now map_info_json o1 st1 = Ok st1' -> same_verdict st1 st2 ->
  exists st2', check_created now map_info_json o2 st2 = Ok st2' /\ same_verdict st1' st2'.
Proof. unfold check_created, append_two_arguments. same_verdict_check. Qed.

Lemma check_mapsize_options st1 st1' st2 :
  check_mapsize map_info_json st1 = Ok st1' -> same_verdict st1 st2 ->
  exists st2', check_mapsize map_info_json st2 = Ok st2' /\ same_verdict st1' st2'.
Proof. unfold check_mapsize. same_verdict_check. Qed.

Lemma check_oil_options st1 st1' st2 :
  check_oil map_info_json o1 st1 = Ok st1' -> same_verdict st1 st2 ->
  exists st2', check_oil map_info_json o2 st2 = Ok st2' /\ same_verdict st1' st2'.
Proof. unfold check_oil. same_verdict_check. Qed.

Lemma check_hq_slots_options player_hqs indices st1 st1' st2 :
  check_hq_slots player_hqs indices st1 = Ok st1' -> same_verdict st1 st2 ->
  exists st2', check_hq_slots player_hqs indices st2 = Ok st2' /\ same_verdict st1' st2'.
Proof.
  revert st1 st2. induction indices as [|i rest IH]; intros st1 st2 H Hsv; simpl in H |- *.
  - injection H as <-. eauto.
  - destruct (check_hq_slot player_hqs i st1) as [st1a|e] eqn:E; simpl in H; [|discriminate].
    assert (Hslot : exists st2a, check_hq_slot player_hqs i st2 = Ok st2a
                                 /\ same_verdict st1a st2a).
    { revert E. unfold check_hq_slot, try_except_Index_Type.
      destruct (hq_slot_lacks player_hqs i) as [[]|[]]; simpl; intros E;
        try discriminate; injection E as <-; eexists; (split; [reflexivity|]);
        same_verdict_leaf. }
    destruct Hslot as (st2a & -> & Hsv'). simpl. eapply IH; eassumption.
Qed.

Lemma check_hq_options st1 st1' st2 :
  check_hq map_info_json st1 = Ok st1' -> same_verdict st1 st2 ->
  exists st2', check_hq map_info_json st2 = Ok st2' /\ same_verdict st1' st2'.
Proof.
  unfold check_hq. intros H Hsv.
  destruct (item map_info_json "players") as [p|e]; simpl in H |- *; [|discriminate].
  destruct (Py.as_int p) as [n|e]; simpl in H |- *; [|discriminate].
  destruct (n >=? 2)%Z; [|injection H as <-; eauto].
  destruct (item map_info_json "hq") as [hqs|e]; simpl in H |- *; [|discriminate].
  eapply check_hq_slots_options; eassumption.
Qed.

Lemma check_player_structures_options st1 st1' st2 :
  check_player_structures map_info_json o1 st1 = Ok st1' -> same_verdict st1 st2 ->
  exists st2', check_player_structures map_info_json o2 st2 = Ok st2'
               /\ same_verdict st1' st2'.
Proof. unfold check_player_structures. same_verdict_check. Qed.

Lemma check_formats_options st1 st1' st2 :
  check_formats map_info_json enforce_format_checks o1 st1 = Ok st1' -> same_verdict st1 st2 ->
  exists st2', check_formats map_info_json enforce_format_checks o2 st2 = Ok st2'
               /\ same_verdict st1' st2'.
Proof. unfold check_formats. same_verdict_check. Qed.

(** The text of the auto-strip warning is built only when the warning is
    on: with it off, a list of mod types that cannot be joined goes
    unnoticed. *)
Hypothesis auto_strip : mods_auto_strip_warning o2 = true -> mods_auto_strip_warning o1 = true.

Lemma check_mods_options st1 st1' st2 :
  check_mods map_info_json o1 st1 = Ok st1' -> same_verdict st1 st2 ->
  exists st2', check_mods map_info_json o2 st2 = Ok st2' /\ same_verdict st1' st2'.
Proof.
  unfold check_mods. intros H Hsv.
  destruct (item map_info_json "mapMod") as [mapMod|]; cbn [bind] in H |- *; [|discriminate].
  destruct (Py.is_True mapMod); [|injection H as <-; eauto].
  destruct (Py.dict_has "modTypes" map_info_json).
  2:{ injection H as <-. eexists. split; [reflexivity|]. same_verdict_leaf. }
  destruct (item map_info_json "modTypes") as [mt|]; cbn [bind] in H |- *; [|discriminate].
  destruct (all_in ["gamemodels"; "datasets"] mt) as [both|]; cbn [bind] in H |- *;
    [|discriminate].
  destruct (all_in ["textures"] mt) as [tex|]; cbn [bind] in H |- *; [|discriminate].
  destruct both; cbn [negb andb] in H |- *.
  { injection H as <-. eexists. split; [reflexivity|]. destruct tex; same_verdict_leaf. }
  destruct (mods_auto_strip_warning o2) eqn:A2.
  - rewrite auto_strip in H by reflexivity.
    destruct (py_join "," mt); cbn [bind] in H |- *; [|discriminate].
    injection H as <-. eexists. split; [reflexivity|]. destruct tex; same_verdict_leaf.
  - eexists. split; [reflexivity|]. destruct (mods_auto_strip_warning o1).
    + destruct (py_join "," mt); cbn [bind] in H; [|discriminate].
      injection H as <-. destruct tex; same_verdict_leaf.
    + injection H as <-. destruct tex; same_verdict_leaf.
Qed.

(** X13.  The warning options change the warnings only: a document that
    is validated under some options is validated under any others (that
    do not switch the auto-strip warning on), with the same errors, the
    same non-fatal errors and the same format flag. *)
Theorem warning_options_change_warnings_only r1 :
  validate_map_info license_check now map_info_json enforce_format_checks o1 = Ok r1 ->
  exists r2,
    validate_map_info license_check now map_info_json enforce_format_checks o2 = Ok r2
    /\ errors r2 = errors r1
    /\ errors_non_fatal r2 = errors_non_fatal r1
    /\ passedFormatChecks r2 = passedFormatChecks r1.
Proof.
  intros H.
  destruct (validate_map_info_run _ _ _ _ _ r1 H)
    as (st1 & st2 & st3 & st4 & st5 & valid & st6 & st7 & st8 & st9 & st10 & st11 & st12
        & st13 & E1 & E2 & E3 & E4 & E5 & E6 & E7 & E8 & E9 & E10 & E11 & E12 & E13 & ->).
  assert (H0 : same_verdict vstate0 vstate0) by (unfold same_verdict; auto).
  destruct (check_name_options _ _ _ E1 H0) as (t1 & F1 & H1).
  destruct (check_type_options _ _ _ E2 H1) as (t2 & F2 & H2).
  destruct (check_players_options _ _ _ E3 H2) as (t3 & F3 & H3).
  destruct (check_tileset_options _ _ _ E4 H3) as (t4 & F4 & H4).
  destruct (check_license_options _ _ _ _ E5 H4) as (t5 & F5 & H5).
  destruct (check_author_options _ _ _ _ E6 H5) as (t6 & F6 & H6).
  destruct (check_created_options _ _ _ E7 H6) as (t7 & F7 & H7).
  destruct (check_mapsize_options _ _ _ E8 H7) as (t8 & F8 & H8).
  destruct (check_oil_options _ _ _ E9 H8) as (t9 & F9 & H9).
  destruct (check_hq_options _ _ _ E10 H9) as (t10 & F10 & H10).
  destruct (check_player_structures_options _ _ _ E11 H10) as (t11 & F11 & H11).
  destruct (check_mods_options _ _ _ E12 H11) as (t12 & F12 & H12).
  destruct (check_formats_options _ _ _ E13 H12) as (t13 & F13 & (He & Hn & Hp)).
  eexists. unfold validate_map_info.
  rewrite F1. cbn [bind]. rewrite F2. cbn [bind]. rewrite F3. cbn [bind].
  rewrite F4. cbn [bind]. rewrite F5. cbn [bind]. rewrite F6. cbn [bind].
  rewrite F7. cbn [bind]. rewrite F8. cbn [bind]. rewrite F9. cbn [bind].
  rewrite F10. cbn [bind]. rewrite F11. cbn [bind]. rewrite F12. cbn [bind].
  rewrite F13. cbn [bind]. split; [reflexivity|]. simpl. auto.
Qed.

End WarningOptions.

Lemma warning_options_change_warnings_only_witness :
  exists r2,
    validate_map_info sample_license_check sample_now
      (dict_set "players" (JInt 11) sample_map_info) true no_warning_options = Ok r2
    /\ errors r2 = errors (sample_result (dict_set "players" (JInt 11) sample_map_info))
    /\ errors_non_fatal r2
       = errors_non_fatal (sample_result (dict_set "players" (JInt 11) sample_map_info))
    /\ passedFormatChecks r2
       = passedFormatChecks (sample_result (dict_set "players" (JInt 11) sample_map_info)).
Proof.
  refine (warning_options_change_warnings_only sample_license_check sample_now
            (dict_set "players" (JInt 11) sample_map_info) true
            default_warning_options no_warning_options _
            (sample_result (dict_set "players" (JInt 11) sample_map_info)) _).
  - discriminate.
  - vm_compute. reflexivity.
Defined.

(** ** The normaliser *)

(** X14.  The date [convert_map_info_date_to_yyyy_mm_dd] returns is the
    start of its argument, and converting it again gives it back. *)
Theorem convert_date_idempotent s d :
  convert_map_info_date_to_yyyy_mm_dd s = Ok d ->
  (exists rest, s = d +:+ rest) /\ convert_map_info_date_to_yyyy_mm_dd d = Ok d.
Proof.
  unfold convert_map_info_date_to_yyyy_mm_dd at 1.
  destruct (re_match DATE_FORMAT_RE s) as [g|] eqn:E; [|discriminate].
  apply date_match_sound in E as (y & m & dd & Hacc & ->).
  cbn [group String.eqb Ascii.eqb Bool.eqb]. intros H. injection H as <-.
  destruct Hacc as (rest & Hs & Hlen & Hy & Hm & Hd). split.
  - exists rest. rewrite Hs. now rewrite !append_assoc.
  - unfold convert_map_info_date_to_yyyy_mm_dd.
    rewrite (date_match_accepts _ y m dd).
    + reflexivity.
    + exists "". rewrite append_empty_r. auto.
Qed.

Lemma convert_date_idempotent_witness :
  (exists rest, "2020-05-17 10:00:00" = "2020-05-17" +:+ rest)
  /\ convert_map_info_date_to_yyyy_mm_dd "2020-05-17" = Ok "2020-05-17".
Proof.
  apply (convert_date_idempotent "2020-05-17 10:00:00" "2020-05-17"). reflexivity.
Defined.






(** ** The index pages *)

Lemma pages_from_run (m : gmap nat index_page) k : forall p fuel,
  (forall q, (p <= q < p + k)%nat -> is_Some (m !! q)) ->
  m !! (p + k)%nat = None -> (k <= fuel)%nat ->
  Forall2 (fun np q => fst np = q /\ m !! q = Some (snd np)) (pages_from fuel p m) (seq p k).
Proof.
  induction k as [|k IH]; intros p fuel Hrun Hend Hfuel.
  - rewrite Nat.add_0_r in Hend. rewrite pages_from_none by assumption. constructor.
  - destruct fuel as [|fuel]; [lia|]. cbn [pages_from seq].
    destruct (Hrun p) as [pg Hpg]; [lia|]. rewrite Hpg. constructor; [auto|].
    apply IH; [|now replace (S p + k)%nat with (p + S k)%nat by lia|lia].
    intros q Hq. apply Hrun. lia.
Qed.

Lemma run_within_size (m : gmap nat index_page) n :
  (forall q, (1 <= q <= n)%nat -> is_Some (m !! q)) -> (n <= size m)%nat.
Proof.
  intros Hrun.
  assert (Hsub : (set_seq 1 n : gset nat) ⊆ dom m).
  { intros q Hq. apply elem_of_set_seq in Hq. apply elem_of_dom. apply Hrun. lia. }
  apply subseteq_size in Hsub. now rewrite size_set_seq, size_dom in Hsub.
Qed.

Lemma last_cons_default {A} (l : list A) x d d' :
  List.last (x :: l) d = List.last (x :: l) d'.
Proof.
  revert x. induction l as [|y l IH]; intros x; [reflexivity|].
  change (List.last (y :: l) d = List.last (y :: l) d'). apply IH.
Qed.

Lemma fold_left_last_fst {A} (l : list (nat * A)) (qs : list nat) d :
  Forall2 (fun np q => fst np = q /\ True) l qs ->
  fold_left (fun _ np => fst np) l d = List.last qs d.
Proof.
  intros H. revert d. induction H as [|np q l qs [Hq _] Hrest IH]; intros d; [reflexivity|].
  cbn [fold_left]. rewrite IH, Hq. destruct qs as [|q' qs]; [reflexivity|].
  change (List.last (q :: q' :: qs) d) with (List.last (q' :: qs) d).
  apply last_cons_default.
Qed.

Lemma last_seq p k d : List.last (seq p k) d = if (k =? 0)%nat then d else (p + k - 1)%nat.
Proof.
  revert p. induction k as [|k IH]; intros p; [reflexivity|].
  cbn [seq]. destruct k as [|k]; [simpl; lia|].
  change (List.last (p :: seq (S p) (S k)) d) with (List.last (seq (S p) (S k)) d).
  rewrite IH. simpl. lia.
Qed.

(** X16.  The index is the run of pages 1, 2, ... up to the first page
    number without a file: with pages 1 to n and no page n+1,
    [map_db_full_index_pages] yields exactly the pages 1 to n, in order,
    whatever files there are past the gap, and the current page is n (page
    1 in an index without pages). *)
Theorem index_is_the_first_run_of_pages (m : gmap nat index_page) (n : nat) :
  (forall q, (1 <= q <= n)%nat -> is_Some (m !! q)) ->
  m !! S n = None ->
  Forall2 (fun np q => fst np = q /\ m !! q = Some (snd np))
          (map_db_full_index_pages m) (seq 1 n)
  /\ get_current_index_page m = Nat.max 1 n.
Proof.
  intros Hrun Hend.
  assert (Hpages : Forall2 (fun np q => fst np = q /\ m !! q = Some (snd np))
                           (map_db_full_index_pages m) (seq 1 n)).
  { apply pages_from_run; [intros q Hq; apply Hrun; lia|exact Hend|].
    now apply run_within_size. }
  split; [exact Hpages|].
  unfold get_current_index_page.
  rewrite (fold_left_last_fst _ (seq 1 n)).
  - rewrite last_seq. destruct n; simpl; lia.
  - eapply Forall2_impl; [exact Hpages|]. simpl. tauto.
Qed.

Lemma index_is_the_first_run_of_pages_witness :
  Forall2 (fun np q => fst np = q
                       /\ delete 2%nat (pages sample_index) !! q = Some (snd np))
          (map_db_full_index_pages (delete 2%nat (pages sample_index))) (seq 1 1)
  /\ get_current_index_page (delete 2%nat (pages sample_index)) = Nat.max 1 1.
Proof.
  apply (index_is_the_first_run_of_pages (delete 2%nat (pages sample_index)) 1).
  - intros q Hq. assert (q = 1%nat) as -> by lia. vm_compute. eauto.
  - vm_compute. reflexivity.
Defined.

Lemma pages_from_split (m : gmap nat index_page) a : forall p fuel,
  (forall q, (p <= q < p + a)%nat -> is_Some (m !! q)) -> (a <= fuel)%nat ->
  pages_from fuel p m = (pages_from a p m ++ pages_from (fuel - a) (p + a) m)%list.
Proof.
  induction a as [|a IH]; intros p fuel Hrun Hfuel.
  - simpl. now rewrite Nat.sub_0_r, Nat.add_0_r.
  - destruct fuel as [|fuel]; [lia|]. cbn [pages_from].
    destruct (Hrun p) as [pg Hpg]; [lia|]. rewrite Hpg. cbn [app]. f_equal.
    rewrite (IH (S p) fuel); [|intros q Hq; apply Hrun; lia|lia].
    now replace (S p + a)%nat with (p + S a)%nat by lia.
Qed.

Lemma pages_from_agree (m m' : gmap nat index_page) a : forall p,
  (forall q, (p <= q < p + a)%nat -> m' !! q = m !! q) ->
  pages_from a p m' = pages_from a p m.
Proof.
  induction a as [|a IH]; intros p H; [reflexivity|]. cbn [pages_from].
  rewrite H by lia. destruct (m !! p); [|reflexivity]. f_equal.
  apply IH. intros q Hq. apply H. lia.
Qed.

Lemma summaries_contents (l : list (nat * index_page)) :
  map (fun np => maps (snd np)) l
  = map (fun s => snd (fst (fst (fst s)))) (map page_summary l).
Proof. rewrite map_map. reflexivity. Qed.

Lemma dom_run_lookup (m : gmap nat index_page) n q :
  dom m = set_seq 1 n -> (is_Some (m !! q) <-> (1 <= q <= n)%nat).
Proof.
  intros Hdom. rewrite <- elem_of_dom, Hdom, elem_of_set_seq. lia.
Qed.

Section IndexAppend.
Variable gmtime : nat -> string.
Variable map_db_urls : MapDBPublicURLPaths.
Variable max_maps_per_index_file : Z.
Variable new_maps : list json.

(** One turn of the loop on a page that exists. *)
Lemma add_pages_step_existing fuel s p db pg :
  (s < Z.of_nat (length new_maps))%Z -> pages db !! p = Some pg -> (1 <= p)%nat ->
  add_pages gmtime map_db_urls max_maps_per_index_file (S fuel) new_maps s p db
  = add_pages gmtime map_db_urls max_maps_per_index_file fuel new_maps
      (Z.min (s + max_maps_per_index_file) (Z.of_nat (length new_maps))) (S p)
      {| pages :=
           <[p := {| page_type := page_type pg;
                     page_id := page_id pg;
                     version := gmtime (clock_reads db);
                     links_self := links_self pg;
                     links_prev := links_prev pg;
                     links_next :=
                       if (Z.min (s + max_maps_per_index_file) (Z.of_nat (length new_maps))
                           <? Z.of_nat (length new_maps))%Z
                       then Some (url_of map_db_urls (S p)) else links_next pg;
                     asset_url_templates := asset_url_templates pg;
                     maps :=
                       (maps pg
                        ++ slice new_maps s
                             (Z.min (s + max_maps_per_index_file)
                                    (Z.of_nat (length new_maps))))%list |}]>
             (pages db);
         versions_json := versions_json db;
         clock_reads := S (clock_reads db) |}.
Proof.
  intros Hs Hpg Hp. cbn [add_pages].
  replace (s <? Z.of_nat (length new_maps))%Z with true by (symmetry; apply Z.ltb_lt; lia).
  rewrite Hpg.
  replace (Z.of_nat p + 1)%Z with (Z.of_nat (S p)) by lia.
  rewrite page_url_ok by lia. cbn [bind].
  destruct (_ <? _)%Z; reflexivity.
Qed.


Hypothesis cap_positive : (0 < max_maps_per_index_file)%Z.

(** The loop from the last page of an index of [n] pages, [n] at least 1. *)
Lemma add_pages_last_page fuel n db :
  (1 <= n)%nat -> dom (pages db) = set_seq 1 n -> (length new_maps <= fuel)%nat ->
  exists db',
    add_pages gmtime map_db_urls max_maps_per_index_file fuel new_maps 0 n db = Some (Ok db')
    /\ (forall q, (q < n)%nat -> pages db' !! q = pages db !! q)
    /\ index_records db' = (index_records db ++ new_maps)%list.
Proof.
  intros Hn Hdom Hfuel.
  destruct (proj2 (dom_run_lookup (pages db) n n Hdom)) as [pg Hpg]; [lia|].
  assert (Hrecords : index_records db
                     = (concat (map (fun np => maps (snd np))
                                    (pages_from (n - 1) 1 (pages db))) ++ maps pg)%list).
  { unfold index_records, map_db_full_index_pages.
    assert (Hsize : size (pages db) = n) by (rewrite <- size_dom, Hdom; apply size_set_seq).
    rewrite Hsize. rewrite (pages_from_split _ (n - 1) 1 n);
      [|intros q Hq; apply (dom_run_lookup _ n q Hdom); lia|lia].
    replace (n - (n - 1))%nat with 1%nat by lia.
    replace (1 + (n - 1))%nat with n by lia.
    cbn [pages_from]. rewrite Hpg. rewrite map_app, concat_app. simpl.
    now rewrite app_nil_r. }
  destruct new_maps as [|x r] eqn:Hnew.
  { exists db. rewrite add_pages_done by (simpl; lia).
    split; [reflexivity|]. split; [reflexivity|]. now rewrite app_nil_r. }
  rewrite <- Hnew in *. destruct fuel as [|fuel]; [rewrite Hnew in Hfuel; simpl in Hfuel; lia|].
  set (c := Z.to_nat max_maps_per_index_file).
  assert (Hc : (1 <= c)%nat) by (unfold c; lia).
  rewrite (add_pages_step_existing fuel 0 n db pg);
    [|rewrite Hnew; simpl; lia|exact Hpg|exact Hn].
  set (done := firstn c new_maps). set (rest := skipn c new_maps).
  assert (Hsplit : new_maps = (done ++ rest)%list) by (symmetry; apply firstn_skipn).
  assert (He : Z.min (0 + max_maps_per_index_file) (Z.of_nat (length new_maps))
               = Z.of_nat (length done)).
  { unfold done. rewrite length_firstn. unfold c. lia. }
  assert (Hslice : slice new_maps 0 (Z.min (0 + max_maps_per_index_file)
                                            (Z.of_nat (length new_maps))) = done).
  { pose proof (slice_next_chunk (@nil json) new_maps max_maps_per_index_file cap_positive)
      as Hs. simpl in Hs. exact Hs. }
  rewrite Hslice, He.
  match goal with
  | |- context [add_pages _ _ _ fuel new_maps _ (S n) ?d] => set (db1 := d)
  end.
  destruct (add_pages_fresh gmtime map_db_urls max_maps_per_index_file new_maps cap_positive
              fuel done rest (S n) db1 Hsplit)
    as (db' & Hrun & _ & Hlow & Hdom' & Hpages).
  { unfold rest. rewrite length_skipn. rewrite Hnew in Hfuel |- *. simpl in *. lia. }
  { lia. }
  { intros q Hq. unfold db1. cbn [pages]. rewrite lookup_insert_ne by lia.
    apply eq_None_not_Some. rewrite (dom_run_lookup _ n q Hdom). lia. }
  fold c in Hdom', Hpages.
  set (chs := chunks (length rest) c rest) in *.
  exists db'. split; [exact Hrun|].
  assert (Hbelow : forall q, (q < n)%nat -> pages db' !! q = pages db !! q).
  { intros q Hq. rewrite Hlow by lia. unfold db1. cbn [pages].
    now rewrite lookup_insert_ne by lia. }
  split; [exact Hbelow|].
  assert (Hat : pages db' !! n = pages db1 !! n) by (apply Hlow; lia).
  unfold db1 in Hat. cbn [pages] in Hat. rewrite lookup_insert_eq in Hat.
  assert (Hsize' : size (pages db') = (n + length chs)%nat).
  { rewrite <- size_dom, Hdom'. unfold db1. cbn [pages]. rewrite dom_insert_L, Hdom.
    assert (Heq : ({[n]} ∪ set_seq 1 n ∪ set_seq (S n) (length chs) : gset nat)
                  = set_seq 1 (n + length chs)).
    { apply set_eq. intros q.
      rewrite !elem_of_union, !elem_of_set_seq, elem_of_singleton. lia. }
    rewrite Heq. apply size_set_seq. }
  unfold index_records at 1, map_db_full_index_pages. rewrite Hsize'.
  rewrite (pages_from_split _ (n - 1) 1);
    [|intros q Hq; rewrite Hbelow by lia; apply (dom_run_lookup _ n q Hdom); lia|lia].
  replace (n + length chs - (n - 1))%nat with (S (length chs)) by lia.
  replace (1 + (n - 1))%nat with n by lia.
  cbn [pages_from]. rewrite Hat.
  rewrite (pages_from_agree (pages db) (pages db') (n - 1) 1)
    by (intros q Hq; apply Hbelow; lia).
  rewrite map_app, concat_app. cbn [map concat snd maps].
  rewrite (summaries_contents (pages_from (length chs) (S n) (pages db'))).
  rewrite (Hpages (length chs)) by lia.
  rewrite expected_pages_contents. unfold chs.
  rewrite chunks_concat by (auto; lia).
  rewrite Hrecords, Hsplit, <- !app_assoc. reflexivity.
Qed.

(** X17.  Appending to an index whose page files are the pages 1 to n
    loses nothing and keeps the order: afterwards the records of the
    index, read in page order, are the old records followed by the new
    ones, and the pages before the last one are untouched. *)
Theorem append_keeps_every_record fuel (n : nat) (db : mapdb) :
  dom (pages db) = set_seq 1 n -> (length new_maps <= fuel)%nat ->
  exists db',
    add_to_mapdatabase_index gmtime map_db_urls max_maps_per_index_file fuel new_maps db
    = Some (Ok db')
    /\ index_records db' = (index_records db ++ new_maps)%list
    /\ (forall q, (q < n)%nat -> pages db' !! q = pages db !! q).
Proof.
  intros Hdom Hfuel. unfold add_to_mapdatabase_index.
  assert (Hcur : get_current_index_page (pages db) = Nat.max 1 n).
  { unfold get_current_index_page.
    rewrite (fold_left_last_fst _ (seq 1 n)).
    - rewrite last_seq. destruct n; simpl; lia.
    - eapply Forall2_impl.
      + apply (pages_from_run (pages db) n 1 (size (pages db))).
        * intros q Hq. apply (dom_run_lookup _ n q Hdom). lia.
        * apply eq_None_not_Some. rewrite (dom_run_lookup _ n _ Hdom). lia.
        * rewrite <- size_dom, Hdom, size_set_seq. lia.
      + simpl. tauto. }
  rewrite Hcur. destruct n as [|n].
  - assert (Hempty : pages db = ∅) by (apply dom_empty_iff_L; exact Hdom).
    destruct (add_pages_fresh gmtime map_db_urls max_maps_per_index_file new_maps
                cap_positive fuel [] new_maps 1%nat db eq_refl Hfuel (Nat.le_refl 1))
      as (db1 & Hrun & _ & _ & Hdom1 & Hpages).
    { intros q _. rewrite Hempty. apply lookup_empty. }
    change (Z.of_nat (length (@nil json))) with 0%Z in Hrun.
    change (Nat.max 1 0) with 1%nat. rewrite Hrun.
    exists (update_mapdatabase_versions_file db1). split; [reflexivity|].
    split; [|intros q Hq; lia].
    assert (Hold : index_records db = []).
    { unfold index_records, map_db_full_index_pages. rewrite Hempty, map_size_empty.
      reflexivity. }
    rewrite Hold. cbn [app].
    unfold index_records, map_db_full_index_pages. cbn [update_mapdatabase_versions_file pages].
    rewrite summaries_contents, Hpages.
    + rewrite expected_pages_contents. apply chunks_concat; lia.
    + rewrite <- size_dom, Hdom1, Hempty, dom_empty_L, union_empty_l_L, size_set_seq. lia.
  - replace (Nat.max 1 (S n)) with (S n) by lia.
    destruct (add_pages_last_page fuel (S n) db) as (db1 & Hrun & Hlow & Hrec);
      [lia|exact Hdom|exact Hfuel|].
    rewrite Hrun. exists (update_mapdatabase_versions_file db1).
    split; [reflexivity|]. split; [exact Hrec | exact Hlow].
Qed.

End IndexAppend.




Lemma append_keeps_every_record_witness :
  exists db',
    add_to_mapdatabase_index sample_gmtime sample_urls 3 2 (sample_records 2) sample_index
    = Some (Ok db')
    /\ index_records db' = (index_records sample_index ++ sample_records 2)%list
    /\ (forall q, (q < 3)%nat -> pages db' !! q = pages sample_index !! q).
Proof.
  refine (append_keeps_every_record sample_gmtime sample_urls 3 (sample_records 2) _
            2 3 sample_index _ _).
  - lia.
  - vm_compute. reflexivity.
  - vm_compute. lia.
Defined.

(** ** Page files *)

Lemma append_inv_tail (a b t : string) : a +:+ t = b +:+ t -> a = b.
Proof.
  revert b. induction a as [|c a IH]; intros b H.
  - destruct b as [|c b]; [reflexivity|]. exfalso.
    apply (f_equal String.length) in H. rewrite append_nil, append_cons in H.
    simpl in H. rewrite length_append in H. lia.
  - destruct b as [|c' b].
    + exfalso. apply (f_equal String.length) in H. rewrite append_nil, append_cons in H.
      simpl in H. rewrite length_append in H. lia.
    + rewrite !append_cons in H. injection H as -> H. f_equal. now apply IH.
Qed.

(** X19.  Every page number from 1 on has a file path, a number below 1
    raises the [ValueError] of the source, and no two page numbers share
    a path. *)
Theorem index_page_paths_distinct :
  (forall p, (1 <= p)%Z -> returns (generate_full_index_page_path_components p))
  /\ (forall p, (p < 1)%Z ->
        generate_full_index_page_path_components p
        = Raise (ValueError ("Invalid pagenum: " +:+ Py.str_of_int p)))
  /\ (forall p q components,
        generate_full_index_page_path_components p = Ok components ->
        generate_full_index_page_path_components q = Ok components ->
        p = q).
Proof.
  unfold generate_full_index_page_path_components. split; [|split].
  - intros p Hp. destruct (p >? 1)%Z eqn:E; [exact I|].
    replace (p =? 1)%Z with true; [exact I|].
    symmetry. apply Z.eqb_eq. rewrite Z.gtb_ltb in E. apply Z.ltb_ge in E. lia.
  - intros p Hp.
    replace (p >? 1)%Z with false by (symmetry; rewrite Z.gtb_ltb; apply Z.ltb_ge; lia).
    replace (p =? 1)%Z with false by (symmetry; apply Z.eqb_neq; lia). reflexivity.
  - intros p q components Hp Hq.
    destruct (p >? 1)%Z eqn:Ep; destruct (q >? 1)%Z eqn:Eq.
    + injection Hp as <-. injection Hq as Hq. apply append_inv_tail in Hq.
      apply Z.gtb_lt in Ep, Eq. symmetry. apply str_of_int_inj; [lia|lia|exact Hq].
    + destruct (q =? 1)%Z; [|discriminate]. injection Hp as <-. discriminate.
    + destruct (p =? 1)%Z; [|discriminate]. injection Hq as <-. discriminate.
    + destruct (p =? 1)%Z eqn:E1; [|discriminate]. destruct (q =? 1)%Z eqn:E2; [|discriminate].
      apply Z.eqb_eq in E1, E2. lia.
Qed.

(** ** [validate_new_map.py] *)

Lemma passed_validation_iff (d : MapValidationDetails) :
  passed_validation d = true
  <-> players_count_mismatch d = false
      /\ (details_enforce_format_checks d = true ->
          passedFormatChecks (info_validation_result d) = true)
      /\ name_conflict d = false
      /\ mapdir_folder_name_mismatch d = false
      /\ errors (info_validation_result d) = [].
Proof.
  unfold passed_validation. rewrite bool_decide_eq_true.
  unfold get_status_list, needs_format_conversion.
  destruct d as [info [ws es passed nf] conflict mismatch players enforce]. simpl.
  destruct players, enforce, passed, conflict, mismatch, es as [|e es]; simpl;
    split; intros H; try discriminate H; try tauto;
    try (destruct H as (H1 & H2 & H3 & H4 & H5); try discriminate;
         try (specialize (H2 eq_refl); discriminate));
    repeat split; try reflexivity; try discriminate.
Qed.

(** X20.  A map passes validation exactly when its player count is the
    expected one, it needs no format conversion (when the format checks
    are enforced), its name is free, its folder has its name, and the
    validator found no error; warnings and non-fatal errors do not count. *)
Theorem passed_validation_exactly (d : MapValidationDetails) :
  passed_validation d = true
  <-> players_count_mismatch d = false
      /\ (details_enforce_format_checks d = true ->
          passedFormatChecks (info_validation_result d) = true)
      /\ name_conflict d = false
      /\ mapdir_folder_name_mismatch d = false
      /\ errors (info_validation_result d) = [].
Proof. split; intros H; now apply passed_validation_iff. Qed.


Lemma validate_map_info_keys license_check now map_info_json enforce opts r :
  validate_map_info license_check now map_info_json enforce opts = Ok r ->
  (exists name, Py.dict_get "name" map_info_json = Some name)
  /\ (exists players, Py.dict_get "players" map_info_json = Some players).
Proof.
  intros H.
  destruct (validate_map_info_run _ _ _ _ _ r H)
    as (st1 & st2 & st3 & st4 & st5 & valid & st6 & st7 & st8 & st9 & st10 & st11 & st12
        & st13 & E1 & E2 & E3 & _).
  unfold check_name, item, Py.dict_item in E1. unfold check_players, item, Py.dict_item in E3.
  destruct (Py.dict_get "name" map_info_json); [|discriminate].
  destruct (Py.dict_get "players" map_info_json); [|discriminate]. eauto.
Qed.

Lemma is_str_spec s v : Py.is_str s v = true <-> v = JStr s.
Proof.
  destruct v; simpl; split; try discriminate; try congruence.
  - intros H. apply String.eqb_eq in H. now subst.
  - intros H. injection H as ->. apply String.eqb_refl.
Qed.

Section SingleMap.
Variable license_check : json -> license_verdict.
Variable now : datetime_t.
Variable probe : string -> map_probe.

(** X21.  [validate_single_map] returns 0 exactly when [maptools package
    info] succeeds and prints nothing on its standard error, the
    validator returns without an error on its output, the name is free
    (if that is checked), a map folder is named after the map, and the
    player count is the expected one (if one is expected).  In every
    other case it returns 1 or raises. *)
Theorem validate_single_map_passes_exactly map_path check_for_name_conflict
    expected_players_count :
  validate_single_map license_check now probe map_path check_for_name_conflict
    expected_players_count = Ok 0%Z
  <-> maptools_returncode (probe map_path) = 0%Z
      /\ maptools_stderr (probe map_path) = []
      /\ (exists r,
            validate_map_info license_check now (maptools_stdout (probe map_path)) true
              default_warning_options = Ok r
            /\ errors r = [])
      /\ (check_for_name_conflict = true -> name_unique_in_maprepos (probe map_path) = true)
      /\ (probe_is_dir (probe map_path) = true ->
          Py.dict_get "name" (maptools_stdout (probe map_path))
          = Some (JStr (probe_name (probe map_path))))
      /\ (forall n, expected_players_count = Some n ->
            exists players,
              Py.dict_get "players" (maptools_stdout (probe map_path)) = Some players
              /\ Py.eq_int players n = true).
Proof.
  unfold validate_single_map, validate_map.
  set (p := probe map_path). set (info := maptools_stdout p).
  destruct (Z.eqb_spec (maptools_returncode p) 0) as [Hrc|Hrc]; cbn [negb].
  2:{ split; [discriminate | intros (H & _); contradiction]. }
  destruct (validate_map_info license_check now info true default_warning_options)
    as [r|e] eqn:Hv; cbn [bind].
  2:{ split; [discriminate | intros (_ & _ & (r & Hr & _) & _); discriminate]. }
  destruct (validate_map_info_keys _ _ _ _ _ _ Hv) as ((name & Hname) & (players & Hplayers)).
  unfold Py.dict_item. rewrite Hname, Hplayers. cbn [bind].
  assert (Hformats : errors r = [] -> passedFormatChecks r = true).
  { intros He. apply (passed_iff_formats_rule _ _ _ _ _ _ Hv).
    apply (errors_nil_iff_rules _ _ _ _ _ _ Hv) in He.
    destruct He as (_ & _ & _ & _ & _ & _ & _ & _ & _ & Hf). now apply Hf. }
  replace (if check_for_name_conflict
           then Ok (negb (name_unique_in_maprepos p)) else @Ok bool false)
    with (Ok (if check_for_name_conflict then negb (name_unique_in_maprepos p) else false))
    by now destruct check_for_name_conflict.
  replace (if probe_is_dir p then Ok (ne_str name (probe_name p)) else @Ok bool false)
    with (Ok (if probe_is_dir p then ne_str name (probe_name p) else false))
    by now destruct (probe_is_dir p).
  replace (match expected_players_count with
           | Some n => Ok (ne_int players n)
           | None => @Ok bool false
           end)
    with (Ok (match expected_players_count with
              | Some n => ne_int players n
              | None => false
              end))
    by now destruct expected_players_count.
  cbn [bind].
  match goal with
  | |- Ok (if passed_validation ?d then _ else _) = _ <-> _ =>
      pose proof (passed_validation_iff d) as Hpass;
      destruct (passed_validation d)
  end; cbn [players_count_mismatch details_enforce_format_checks info_validation_result
            name_conflict mapdir_folder_name_mismatch] in Hpass.
  - split; [intros _|reflexivity].
    destruct (proj1 Hpass eq_refl) as (Hpl & Hfmt & Hcf & Hmm & Herr).
    assert (Hstderr : maptools_stderr p = [] /\ errors r = []).
    { destruct (maptools_stderr p) as [|l ls]; [auto|]. simpl in Herr. discriminate. }
    destruct Hstderr as [Hstderr Herr'].
    split; [exact Hrc|]. split; [exact Hstderr|]. split; [eauto|]. split; [|split].
    + intros ->. now apply negb_false_iff in Hcf.
    + intros Hdir. rewrite Hdir in Hmm. unfold ne_str in Hmm.
      apply negb_false_iff, is_str_spec in Hmm. now subst.
    + intros n ->. exists players. split; [reflexivity|].
      unfold ne_int in Hpl. now apply negb_false_iff in Hpl.
  - split; [discriminate|]. intros (_ & Hstderr & (r' & Hr' & Herr) & Hcf & Hdir & Hexp).
    injection Hr' as <-. exfalso.
    assert (Hx : false = true); [|discriminate]. apply Hpass.
    rewrite Hstderr. cbn [length Z.of_nat Z.gtb Z.compare].
    split; [|split; [|split; [|split]]].
    + destruct expected_players_count as [n|]; [|reflexivity].
      destruct (Hexp n eq_refl) as (v & Hv' & Heq). injection Hv' as <-.
      unfold ne_int. now rewrite Heq.
    + intros _. now apply Hformats.
    + destruct check_for_name_conflict; [|reflexivity]. now rewrite Hcf.
    + destruct (probe_is_dir p); [|reflexivity].
      specialize (Hdir eq_refl). injection Hdir as ->. unfold ne_str. apply negb_false_iff. now apply is_str_spec.
    + exact Herr.
Qed.

End SingleMap.

(** ** Merging two dicts *)

Lemma dict_get_set k k' v d :
  Py.dict_get k (dict_set k' v d) = if String.eqb k k' then Some v else Py.dict_get k d.
Proof.
  induction d as [|[k0 v0] d IH]; simpl.
  - now destruct (String.eqb k k').
  - destruct (String.eqb_spec k' k0) as [->|Hne]; simpl.
    + now destruct (String.eqb k k0).
    + rewrite IH. destruct (String.eqb_spec k k0) as [->|Hne'].
      * destruct (String.eqb_spec k0 k'); [congruence|reflexivity].
      * reflexivity.
Qed.

Lemma dict_has_set k k' v d :
  Py.dict_has k (dict_set k' v d) = String.eqb k k' || Py.dict_has k d.
Proof. unfold Py.dict_has. rewrite dict_get_set. now destruct (String.eqb k k'). Qed.

Lemma keys_dict_set k v d :
  map fst (dict_set k v d)
  = if Py.dict_has k d then map fst d else (map fst d ++ [k])%list.
Proof.
  unfold Py.dict_has. induction d as [|[k0 v0] d IH]; simpl; [reflexivity|].
  destruct (String.eqb_spec k k0) as [->|Hne]; simpl; [reflexivity|].
  rewrite IH. now destruct (Py.dict_get k d).
Qed.

Lemma merge_dicts_shallow_get a b k :
  NoDup (map fst b) ->
  Py.dict_get k (merge_dicts_shallow a b)
  = match Py.dict_get k b with Some v => Some v | None => Py.dict_get k a end.
Proof.
  unfold merge_dicts_shallow. revert a.
  induction b as [|[k0 v0] b IH]; intros a Hnd; simpl; [reflexivity|].
  apply NoDup_cons in Hnd as [Hnotin Hnd]. rewrite IH by assumption.
  rewrite dict_get_set. destruct (String.eqb_spec k k0) as [->|Hne]; [|reflexivity].
  assert (Hnone : Py.dict_get k0 b = None).
  { clear -Hnotin. induction b as [|[k1 v1] b IHb]; simpl; [reflexivity|].
    simpl in Hnotin. apply not_elem_of_cons in Hnotin as [Hne Hnotin].
    destruct (String.eqb_spec k0 k1); [congruence|auto]. }
  now rewrite Hnone.
Qed.

Lemma merge_dicts_shallow_keys a b :
  NoDup (map fst b) ->
  map fst (merge_dicts_shallow a b)
  = (map fst a ++ List.filter (fun k => negb (Py.dict_has k a)) (map fst b))%list.
Proof.
  unfold merge_dicts_shallow. revert a.
  induction b as [|[k0 v0] b IH]; intros a Hnd; simpl; [now rewrite app_nil_r|].
  apply NoDup_cons in Hnd as [Hnotin Hnd]. rewrite IH by assumption.
  rewrite keys_dict_set.
  assert (Hext : List.filter (fun k => negb (Py.dict_has k (dict_set k0 v0 a))) (map fst b)
                 = List.filter (fun k => negb (Py.dict_has k a)) (map fst b)).
  { apply filter_ext_in. intros k Hin. rewrite dict_has_set.
    destruct (String.eqb_spec k k0) as [->|Hne]; [|reflexivity].
    exfalso. apply Hnotin. now apply list_elem_of_In. }
  rewrite Hext. destruct (Py.dict_has k0 a); simpl; [reflexivity|].
  now rewrite <- app_assoc.
Qed.

(** X22.  [merge_dicts_shallow a b] is [a] updated with [b]: a key of [b]
    has the value of [b], any other key the value it has in [a]; the keys
    of [a] stay where they are and the new keys of [b] follow in the order
    of [b]. *)
Theorem merge_dicts_shallow_spec (a b : pydict) :
  NoDup (map fst b) ->
  (forall k, Py.dict_get k (merge_dicts_shallow a b)
             = match Py.dict_get k b with Some v => Some v | None => Py.dict_get k a end)
  /\ map fst (merge_dicts_shallow a b)
     = (map fst a ++ List.filter (fun k => negb (Py.dict_has k a)) (map fst b))%list.
Proof.
  intros Hnd. split.
  - intros k. now apply merge_dicts_shallow_get.
  - now apply merge_dicts_shallow_keys.
Qed.

Lemma merge_dicts_shallow_spec_witness :
  (forall k, Py.dict_get k (merge_dicts_shallow sample_map_info
                           [("name", JStr "Renamed"); ("download", JDict [])])
             = match Py.dict_get k [("name", JStr "Renamed"); ("download", JDict [])] with
               | Some v => Some v
               | None => Py.dict_get k sample_map_info
               end)
  /\ map fst (merge_dicts_shallow sample_map_info
                [("name", JStr "Renamed"); ("download", JDict [])])
     = (map fst sample_map_info
        ++ List.filter (fun k => negb (Py.dict_has k sample_map_info))
             (map fst [("name", JStr "Renamed"); ("download", JDict [])]))%list.
Proof.
  apply (merge_dicts_shallow_spec sample_map_info
           [("name", JStr "Renamed"); ("download", JDict [])]).
  apply (bool_decide_unpack (NoDup (map fst [("name", JStr "Renamed"); ("download", JDict [])]))).
  vm_compute. exact I.
Defined.

(** ** The components of the data root URL *)

Lemma split_on_nonnil sep s : split_on sep s <> [].
Proof.
  destruct s as [|c s]; simpl; [discriminate|].
  destruct (Ascii.eqb c sep); [discriminate|]. now destruct (split_on sep s).
Qed.

Lemma split_on_app sep a b :
  split_on sep (a +:+ String sep b) = (split_on sep a ++ split_on sep b)%list.
Proof.
  induction a as [|c a IH].
  - rewrite append_nil. simpl. now rewrite Ascii.eqb_refl.
  - rewrite append_cons. simpl. rewrite IH. destruct (Ascii.eqb c sep); [reflexivity|].
    pose proof (split_on_nonnil sep a) as Hne. now destruct (split_on sep a).
Qed.

Lemma split_on_free a : all_chars no_slash a = true -> split_on "/" a = [a].
Proof.
  induction a as [|c a IH]; intros H; [reflexivity|].
  simpl in H. apply andb_prop in H as [Hc Ha]. cbn [split_on].
  unfold no_slash in Hc. apply negb_true_iff in Hc. rewrite Hc, IH by assumption.
  reflexivity.
Qed.

Lemma split_on_pieces s : Forall (fun piece => all_chars no_slash piece = true) (split_on "/" s).
Proof.
  induction s as [|c s IH]; [now repeat constructor|].
  cbn [split_on]. destruct (Ascii.eqb c "/") eqn:Hc; [now constructor|].
  destruct (split_on "/" s) as [|piece rest]; [repeat constructor; simpl|].
  - unfold no_slash. now rewrite Hc.
  - apply Forall_cons in IH as [Hp Hr]. constructor; [|assumption].
    simpl. unfold no_slash at 1. now rewrite Hc.
Qed.

Lemma relurl_components_app a b :
  relurl_components (a +:+ String "/" b)
  = (relurl_components a ++ relurl_components b)%list.
Proof. unfold relurl_components. now rewrite split_on_app, List.filter_app. Qed.

Lemma relurl_components_are_components s : Forall is_component (relurl_components s).
Proof.
  unfold relurl_components. pose proof (split_on_pieces s) as H.
  induction H as [|piece l Hp Hl IH]; simpl; [constructor|].
  destruct (String.eqb_spec piece ""); simpl; [assumption|].
  constructor; [now split|assumption].
Qed.

Lemma relurl_components_one c : is_component c -> relurl_components c = [c].
Proof.
  intros [Hne Hfree]. unfold relurl_components. rewrite split_on_free by assumption.
  simpl. now destruct (String.eqb_spec c "").
Qed.

Lemma relurl_components_join cs :
  Forall is_component cs -> relurl_components (join_strs "/" cs) = cs.
Proof.
  induction 1 as [|c cs Hc Hcs IH]; [reflexivity|].
  destruct cs as [|c' cs]; [now apply relurl_components_one|].
  change (join_strs "/" (c :: c' :: cs)) with (c +:+ String "/" (join_strs "/" (c' :: cs))).
  now rewrite relurl_components_app, IH, relurl_components_one.
Qed.

Lemma relurl_components_slashes s :
  relurl_components (String "/" s +:+ "/") = relurl_components s.
Proof.
  change (String "/" s +:+ "/") with (("" +:+ String "/" s) +:+ String "/" "").
  rewrite !relurl_components_app. change (relurl_components "") with (@nil string).
  now rewrite app_nil_r.
Qed.

(** X23.  [MapDBPublicURLPaths] splits the data root URL at its slashes
    and drops the empty pieces: what it keeps are non-empty components
    without a slash; a path of such components joined by slashes gives
    them back, with or without a slash in front and at the end, and two
    paths put together with a slash give the components of both.  The
    URL templates are the value of the key [asset-url-templates]. *)
Theorem MapDBPublicURLPaths_components path (map_db_urls_json : json) relurl u :
  MapDBPublicURLPaths_init path map_db_urls_json relurl = Ok u ->
  Forall is_component (map_db_data_root_relurl_components u)
  /\ (forall cs, Forall is_component cs ->
        relurl = join_strs "/" cs \/ relurl = String "/" (join_strs "/" cs) +:+ "/" ->
        map_db_data_root_relurl_components u = cs)
  /\ (forall a b, relurl = a +:+ String "/" b ->
        map_db_data_root_relurl_components u
        = (relurl_components a ++ relurl_components b)%list)
  /\ Py.getitem map_db_urls_json "asset-url-templates" = Ok (urls_asset_url_templates u).
Proof.
  unfold MapDBPublicURLPaths_init. intros H.
  destruct (Py.contains "asset-url-templates" map_db_urls_json) as [has|e]; [|discriminate].
  cbn [bind] in H. destruct has; cbn [negb] in H; [|discriminate].
  destruct (Py.getitem map_db_urls_json "asset-url-templates") as [templates|e];
    [|discriminate].
  cbn [bind] in H. apply Ok_inj in H. subst u. cbn.
  split; [apply relurl_components_are_components|]. split; [|split; [|reflexivity]].
  - intros cs Hcs [->| ->].
    + now apply relurl_components_join.
    + rewrite relurl_components_slashes. now apply relurl_components_join.
  - intros a b ->. apply relurl_components_app.
Qed.

Lemma MapDBPublicURLPaths_components_witness :
  Forall is_component (map_db_data_root_relurl_components sample_urls)
  /\ (forall cs, Forall is_component cs ->
        "/api/" = join_strs "/" cs \/ "/api/" = String "/" (join_strs "/" cs) +:+ "/" ->
        map_db_data_root_relurl_components sample_urls = cs)
  /\ (forall a b, "/api/" = a +:+ String "/" b ->
        map_db_data_root_relurl_components sample_urls
        = (relurl_components a ++ relurl_components b)%list)
  /\ Py.getitem (JDict [("asset-url-templates", JDict [("info", JStr "/assets/info/{hash}.json")])]) "asset-url-templates"
     = Ok (urls_asset_url_templates sample_urls).
Proof.
  apply (MapDBPublicURLPaths_components "urls.json"
           (JDict [("asset-url-templates", JDict [("info", JStr "/assets/info/{hash}.json")])]) "/api/" sample_urls).
  reflexivity.
Defined.

(** The document without the key is refused. *)
Lemma MapDBPublicURLPaths_missing_templates path d relurl :
  Py.dict_has "asset-url-templates" d = false ->
  MapDBPublicURLPaths_init path (JDict d) relurl
  = Raise (ValueError ("Invalid / unexpected contents in: " +:+ path)).
Proof. intros H. unfold MapDBPublicURLPaths_init. simpl. now rewrite H. Qed.

(** ** The folders that a commit changed *)

(** X24.  [get_changed_folders_in_commit] cuts the percentage off a
    line of [git diff --dirstat]: a line that starts with one or more
    spaces, digits and dots followed by a percent sign and a space loses
    that start, and any other line is kept as it is. *)
Theorem dirstat_percentage_is_cut :
  (forall pct folder,
     pct <> "" -> all_chars percent_char pct = true ->
     re_sub_start DIRSTAT_PERCENT_RE (pct +:+ "% " +:+ folder) = folder)
  /\ (forall line,
        (forall pct folder, pct <> "" -> all_chars percent_char pct = true ->
                            line <> pct +:+ "% " +:+ folder) ->
        re_sub_start DIRSTAT_PERCENT_RE line = line)
  /\ changed_folders_of_dirstat ["  12.5% maps/2p/Rush/"; " 87.5% maps/4p/High Ground/"; "100% x"; "% y"]
     = ["maps/2p/Rush/"; "maps/4p/High Ground/"; "x"; "% y"].
Proof.
  split; [|split; [|reflexivity]].
  - intros pct folder Hne Hall. destruct pct as [|c pre]; [contradiction|].
    simpl in Hall. apply andb_prop in Hall as [Hc Hpre].
    unfold re_sub_start, DIRSTAT_PERCENT_RE. cbn [seq_of rmatch Nat.eqb].
    rewrite append_cons. unfold plus_cls. rewrite Hc.
    erewrite star_cls_greedy; [reflexivity|assumption|reflexivity|].
    reflexivity.
  - intros line Hno. unfold re_sub_start, DIRSTAT_PERCENT_RE. cbn [seq_of rmatch Nat.eqb].
    match goal with |- match ?m with _ => _ end = _ => destruct m as [rest|] eqn:Hm end;
      [|reflexivity].
    exfalso. unfold plus_cls in Hm. destruct line as [|c line]; [discriminate|].
    destruct (percent_char c) eqn:Hc; [|discriminate].
    apply star_cls_inv in Hm as (pre & post & -> & Hpre & Hk).
    cbn [rmatch] in Hk. destruct post as [|p1 post]; [discriminate|].
    destruct (Ascii.eqb_spec "%" p1) as [<-|]; [|discriminate].
    destruct post as [|p2 post]; [discriminate|].
    destruct (Ascii.eqb_spec " " p2) as [<-|]; [|discriminate].
    apply (Hno (String c pre) post); [discriminate|simpl; now rewrite Hc, Hpre|].
    now rewrite append_cons.
Qed.

(** ** The list of map repos *)

Lemma py_eq_refl : forall a, py_eq a a = true.
Proof.
  fix IH 1. intros [| b | n | s | l | d]; cbn [py_eq].
  - reflexivity.
  - now destruct b.
  - apply Z.eqb_refl.
  - apply String.eqb_refl.
  - induction l as [|x l IHl]; [reflexivity|]. now rewrite IH, IHl.
  - induction d as [|[k x] d IHd]; [reflexivity|]. now rewrite String.eqb_refl, IH, IHd.
Qed.

Lemma any_github_repo_app_found repo l l' :
  any_github_repo repo l = Ok true -> any_github_repo repo (l ++ l') = Ok true.
Proof.
  induction l as [|d l IH]; intros H; simpl in *; [discriminate|].
  destruct (Py.getitem d "github_repo") as [g|e]; [|discriminate]. cbn [bind] in *.
  destruct (py_eq g repo); auto.
Qed.

Lemma any_github_repo_app_not repo l l' :
  any_github_repo repo l = Ok false ->
  any_github_repo repo (l ++ l') = any_github_repo repo l'.
Proof.
  induction l as [|d l IH]; intros H; simpl in *; [reflexivity|].
  destruct (Py.getitem d "github_repo") as [g|e]; [|discriminate]. cbn [bind] in *.
  destruct (py_eq g repo); [discriminate|auto].
Qed.

Lemma any_github_repo_entries repo missing :
  In repo missing -> any_github_repo repo (map new_repo_entry missing) = Ok true.
Proof.
  induction missing as [|r missing IH]; intros Hin; [contradiction|].
  cbn. destruct (py_eq r repo) eqn:He; [reflexivity|].
  destruct Hin as [->|Hin]; [now rewrite py_eq_refl in He|]. now apply IH.
Qed.

Lemma any_github_repo_true repo l :
  any_github_repo repo l = Ok true ->
  exists d g, In d l /\ Py.getitem d "github_repo" = Ok g /\ py_eq g repo = true.
Proof.
  induction l as [|d l IH]; intros H; simpl in H; [discriminate|].
  destruct (Py.getitem d "github_repo") as [g|e] eqn:Hg; [|discriminate]. cbn [bind] in H.
  destruct (py_eq g repo) eqn:He.
  - exists d, g. simpl. auto.
  - destruct (IH H) as (d' & g' & Hin & Hg' & He'). exists d', g'. simpl. auto.
Qed.

Lemma missing_among_spec repos l m :
  missing_among repos l = Ok m ->
  (forall repo, In repo repos ->
     any_github_repo repo l = Ok true \/ (any_github_repo repo l = Ok false /\ In repo m))
  /\ (forall repo, In repo m -> In repo repos).
Proof.
  revert m. induction repos as [|r repos IH]; intros m H; simpl in H.
  - apply Ok_inj in H. subst m. split; intros repo [].
  - destruct (any_github_repo r l) as [found|e] eqn:Hf; [|discriminate]. cbn [bind] in H.
    destruct (missing_among repos l) as [more|e]; [|discriminate]. cbn [bind] in H.
    apply Ok_inj in H. destruct (IH more eq_refl) as [IH1 IH2]. split.
    + intros repo [<-|Hin].
      * destruct found; subst m; [now left|right; simpl; auto].
      * destruct (IH1 repo Hin) as [Ht|[Hn Hm]]; [now left|right].
        split; [assumption|]. destruct found; subst m; simpl; auto.
    + intros repo Hin. destruct found; subst m; simpl in *; [auto|].
      destruct Hin as [->|Hin]; auto.
Qed.

Lemma missing_new_repos_spec config l m :
  missing_new_repos config l = Ok m ->
  (forall repo, configured config repo ->
     any_github_repo repo l = Ok true \/ (any_github_repo repo l = Ok false /\ In repo m))
  /\ (forall repo, In repo m -> configured config repo).
Proof.
  revert m. induction config as [|[k v] config IH]; intros m H; simpl in H.
  - apply Ok_inj in H. subst m. split; [|intros repo []].
    intros repo (k & v & repos & [] & _).
  - destruct (py_iter v) as [repos|e] eqn:Hv; [|discriminate]. cbn [bind] in H.
    destruct (missing_among repos l) as [missing|e] eqn:Hm; [|discriminate]. cbn [bind] in H.
    destruct (missing_new_repos config l) as [more|e]; [|discriminate]. cbn [bind] in H.
    apply Ok_inj in H. subst m. destruct (IH more eq_refl) as [IH1 IH2].
    destruct (missing_among_spec _ _ _ Hm) as [M1 M2]. split.
    + intros repo (k' & v' & repos' & [Heq|Hin] & Hv' & Hr).
      * injection Heq as -> ->. rewrite Hv in Hv'. apply Ok_inj in Hv'. subst repos'.
        destruct (M1 repo Hr) as [Ht|[Hn Hi]]; [now left|right].
        split; [assumption|]. apply in_or_app. now left.
      * destruct (IH1 repo) as [Ht|[Hn Hi]]; [now exists k', v', repos'|now left|right].
        split; [assumption|]. apply in_or_app. now right.
    + intros repo Hin. apply in_app_or in Hin as [Hin|Hin].
      * exists k, v, repos. simpl. auto.
      * destruct (IH2 repo Hin) as (k' & v' & repos' & Hc & Hv' & Hr).
        exists k', v', repos'. simpl. auto.
Qed.

Lemma missing_among_none repos l l' m :
  missing_among repos l = Ok m ->
  (forall repo, In repo repos -> any_github_repo repo l' = Ok true) ->
  missing_among repos l' = Ok [].
Proof.
  revert m. induction repos as [|r repos IH]; intros m H Hall; simpl in *; [reflexivity|].
  destruct (any_github_repo r l) as [found|e]; [|discriminate]. cbn [bind] in H.
  destruct (missing_among repos l) as [more|e]; [|discriminate].
  rewrite (Hall r) by auto. cbn [bind]. rewrite (IH more) by auto. reflexivity.
Qed.

Lemma missing_new_repos_none config l l' m :
  missing_new_repos config l = Ok m ->
  (forall repo, configured config repo -> any_github_repo repo l' = Ok true) ->
  missing_new_repos config l' = Ok [].
Proof.
  revert m. induction config as [|[k v] config IH]; intros m H Hall; simpl in *;
    [reflexivity|].
  destruct (py_iter v) as [repos|e] eqn:Hv; [|discriminate]. cbn [bind] in *.
  destruct (missing_among repos l) as [missing|e] eqn:Hm; [|discriminate]. cbn [bind] in H.
  destruct (missing_new_repos config l) as [more|e]; [|discriminate].
  rewrite (missing_among_none repos l l' missing Hm).
  - cbn [bind]. rewrite (IH more eq_refl); [reflexivity|].
    intros repo (k' & v' & repos' & Hc & Hv' & Hr). apply Hall.
    exists k', v', repos'. simpl. auto.
  - intros repo Hin. apply Hall. exists k, v, repos. simpl. auto.
Qed.

(** X25.  [load_map_repos_list] keeps the entries of [map-repos.json] as
    they are and in their order, and appends an entry with the release
    [v0] for repos of the config only.  Afterwards every repo of the
    config is named by an entry, and loading again with the result as
    [map-repos.json] adds nothing.  A repo that the config lists twice and
    the file does not name is added twice. *)
Theorem load_map_repos_list_adds_missing
    (map_repos_config : pydict) (map_db_repos_json : option (list json)) (map_repos : list json) :
  load_map_repos_list map_repos_config map_db_repos_json = Ok map_repos ->
  (exists added,
     map_repos = (match map_db_repos_json with Some l => l | None => [] end ++ added)%list
     /\ Forall (fun entry => exists repo, configured map_repos_config repo
                                          /\ entry = new_repo_entry repo) added)
  /\ (forall repo, configured map_repos_config repo ->
        exists d github_repo, In d map_repos
                              /\ Py.getitem d "github_repo" = Ok github_repo
                              /\ py_eq github_repo repo = true)
  /\ load_map_repos_list map_repos_config (Some map_repos) = Ok map_repos
  /\ load_map_repos_list [("2", JList [JStr "o/maps-2p"]); ("3", JList [JStr "o/maps-2p"])] None
     = Ok [new_repo_entry (JStr "o/maps-2p"); new_repo_entry (JStr "o/maps-2p")].
Proof.
  unfold load_map_repos_list at 1.
  set (existing := match map_db_repos_json with Some l => l | None => [] end).
  intros H.
  destruct (missing_new_repos map_repos_config existing) as [missing|e] eqn:Hm;
    [|discriminate].
  cbn [bind] in H. apply Ok_inj in H.
  destruct (missing_new_repos_spec _ _ _ Hm) as [S1 S2].
  assert (Hall : forall repo, configured map_repos_config repo ->
                              any_github_repo repo map_repos = Ok true).
  { intros repo Hc. subst map_repos. destruct (S1 repo Hc) as [Ht|[Hn Hi]].
    - now apply any_github_repo_app_found.
    - rewrite any_github_repo_app_not by assumption. now apply any_github_repo_entries. }
  split; [|split; [|split; [|reflexivity]]].
  - exists (map new_repo_entry missing). split; [now subst map_repos|].
    apply List.Forall_forall. intros entry Hin. apply in_map_iff in Hin as (repo & <- & Hin).
    exists repo. auto.
  - intros repo Hc. apply any_github_repo_true. now apply Hall.
  - unfold load_map_repos_list.
    rewrite (missing_new_repos_none map_repos_config existing map_repos missing Hm Hall).
    cbn [bind map]. now rewrite app_nil_r.
Qed.

Lemma load_map_repos_list_adds_missing_witness :
  (exists added,
     [JDict [("github_repo", JStr "o/maps-2p"); ("last_release", JStr "v7")];
      new_repo_entry (JStr "o/maps-3p")]
     = ([JDict [("github_repo", JStr "o/maps-2p"); ("last_release", JStr "v7")]] ++ added)%list
     /\ Forall (fun entry =>
                  exists repo,
                    configured [("2", JList [JStr "o/maps-2p"]); ("3", JList [JStr "o/maps-3p"])]
                               repo
                    /\ entry = new_repo_entry repo) added)
  /\ (forall repo,
        configured [("2", JList [JStr "o/maps-2p"]); ("3", JList [JStr "o/maps-3p"])] repo ->
        exists d github_repo,
          In d [JDict [("github_repo", JStr "o/maps-2p"); ("last_release", JStr "v7")];
                new_repo_entry (JStr "o/maps-3p")]
          /\ Py.getitem d "github_repo" = Ok github_repo
          /\ py_eq github_repo repo = true)
  /\ load_map_repos_list [("2", JList [JStr "o/maps-2p"]); ("3", JList [JStr "o/maps-3p"])]
       (Some [JDict [("github_repo", JStr "o/maps-2p"); ("last_release", JStr "v7")];
              new_repo_entry (JStr "o/maps-3p")])
     = Ok [JDict [("github_repo", JStr "o/maps-2p"); ("last_release", JStr "v7")];
           new_repo_entry (JStr "o/maps-3p")]
  /\ load_map_repos_list [("2", JList [JStr "o/maps-2p"]); ("3", JList [JStr "o/maps-2p"])] None
     = Ok [new_repo_entry (JStr "o/maps-2p"); new_repo_entry (JStr "o/maps-2p")].
Proof.
  apply (load_map_repos_list_adds_missing
           [("2", JList [JStr "o/maps-2p"]); ("3", JList [JStr "o/maps-3p"])]
           (Some [JDict [("github_repo", JStr "o/maps-2p"); ("last_release", JStr "v7")]])).
  reflexivity.
Defined.

(** ** Rebuilding the index *)

Section RebuildProofs.
Variable gmtime : nat -> string.
Variable info_files : gmap string json.
Variable map_db_assets_root : string.

Lemma latest_map_data_ok map_item :
  has_download_hash map_item = true ->
  exists latest,
    latest_map_data info_files map_db_assets_root map_item = Ok latest
    /\ refreshed info_files map_db_assets_root map_item latest.
Proof.
  unfold has_download_hash, latest_map_data, refreshed. intros H.
  destruct (Py.getitem map_item "download") as [download|e]; [|discriminate]. cbn [bind].
  destruct (Py.getitem download "hash") as [[| | | map_hash | |]|e] eqn:Hh; try discriminate.
  cbn [bind Py.as_str].
  destruct (info_files !! map_info_file_path map_db_assets_root map_hash) as [j|] eqn:Hj.
  - exists j. split; [reflexivity|]. exists download, map_hash. rewrite Hj. auto.
  - exists map_item. split; [reflexivity|]. exists download, map_hash. rewrite Hj. auto.
Qed.

Lemma refresh_maps_ok items :
  forallb has_download_hash items = true ->
  exists items',
    refresh_maps info_files map_db_assets_root items = Ok items'
    /\ Forall2 (refreshed info_files map_db_assets_root) items items'.
Proof.
  induction items as [|map_item items IH]; intros H; simpl in *.
  - exists []. split; [reflexivity|constructor].
  - apply andb_prop in H as [Hi Hr].
    destruct (latest_map_data_ok map_item Hi) as (latest & -> & Hl).
    destruct (IH Hr) as (items' & -> & Hf). cbn [bind].
    exists (latest :: items'). split; [reflexivity|now constructor].
Qed.

Lemma rebuild_from_spec : forall fuel pagenum db,
  forallb has_download_hash
    (concat (map (fun np => maps (snd np)) (pages_from fuel pagenum (pages db)))) = true ->
  exists db',
    rebuild_from gmtime info_files map_db_assets_root fuel pagenum db = Ok db'
    /\ Forall2 (fun np np' =>
                  fst np' = fst np /\ same_page_frame (snd np) (snd np')
                  /\ Forall2 (refreshed info_files map_db_assets_root)
                       (maps (snd np)) (maps (snd np')))
         (pages_from fuel pagenum (pages db)) (pages_from fuel pagenum (pages db'))
    /\ map (fun np => version (snd np)) (pages_from fuel pagenum (pages db'))
       = map (fun i => gmtime (clock_reads db + i)%nat)
           (seq 0 (length (pages_from fuel pagenum (pages db))))
    /\ (forall q, (q < pagenum \/ pagenum + length (pages_from fuel pagenum (pages db)) <= q)%nat ->
                  pages db' !! q = pages db !! q)
    /\ dom (pages db') = dom (pages db)
    /\ versions_json db' = versions_json db.
Proof.
  induction fuel as [|fuel IH]; intros p db H.
  - exists db. simpl. repeat split; constructor.
  - cbn [rebuild_from pages_from] in *.
    destruct (pages db !! p) as [page|] eqn:Hp.
    2:{ exists db. rewrite Hp. simpl. repeat split; constructor. }
    cbn [map concat fst snd] in H. rewrite forallb_app in H. apply andb_prop in H as [Hpage Hrest].
    destruct (refresh_maps_ok _ Hpage) as (maps' & -> & Hmaps). cbn [bind].
    set (page' := {| page_type := page_type page; page_id := page_id page;
                     version := gmtime (clock_reads db);
                     links_self := links_self page; links_prev := links_prev page;
                     links_next := links_next page;
                     asset_url_templates := asset_url_templates page; maps := maps' |}).
    set (db1 := {| pages := <[p := page']> (pages db); versions_json := versions_json db;
                   clock_reads := S (clock_reads db) |}).
    assert (Hsame : pages_from fuel (S p) (pages db1) = pages_from fuel (S p) (pages db)).
    { apply pages_from_same. intros q Hq. unfold db1. cbn [pages].
      apply lookup_insert_ne. lia. }
    destruct (IH (S p) db1) as (db' & -> & Hrun & Hver & Hframe & Hdom & Hvj).
    { now rewrite Hsame. }
    rewrite Hsame in Hrun, Hver, Hframe.
    exists db'. split; [reflexivity|].
    assert (Hp' : pages db' !! p = Some page').
    { rewrite Hframe by lia. unfold db1. cbn [pages]. apply lookup_insert_eq. }
    rewrite Hp'. split; [|split; [|split; [|split]]].
    + constructor; [|assumption]. cbn [fst snd]. split; [reflexivity|]. split; [|assumption].
      unfold same_page_frame, page'. cbn. auto 7.
    + cbn [map length seq snd]. f_equal; [unfold page'; cbn; now rewrite Nat.add_0_r|].
      rewrite Hver, <- seq_shift, map_map. apply map_ext. intros i.
      unfold db1. cbn [clock_reads]. f_equal. lia.
    + intros q Hq. cbn [length] in Hq. rewrite Hframe by lia.
      unfold db1. cbn [pages]. apply lookup_insert_ne. lia.
    + rewrite Hdom. unfold db1. cbn [pages]. rewrite dom_insert_L.
      assert (Hin : p ∈ dom (pages db)) by (apply elem_of_dom; eauto).
      apply set_eq. intros x. rewrite elem_of_union, elem_of_singleton.
      split; [intros [->|]; assumption|auto].
    + now rewrite Hvj.
Qed.

(** X26.  [rebuild_mapdatabase_index], when every record of the index has
    a hash, returns, and leaves the pages of the index where they are:
    each keeps its number, type, id, links and URL templates, and as many
    records in the same order, a record being replaced by the content of
    the info file of its hash when that file exists and kept when it does
    not.  Every page of the index gets a new version stamp, also one
    without any change, a file past the end of the index is not touched,
    and the versions file is written from the new pages. *)
Theorem rebuild_refreshes_records_in_place (db : mapdb) :
  forallb has_download_hash (index_records db) = true ->
  exists db',
    rebuild_mapdatabase_index gmtime info_files map_db_assets_root db = Ok db'
    /\ Forall2 (fun np np' =>
                  fst np' = fst np /\ same_page_frame (snd np) (snd np')
                  /\ Forall2 (refreshed info_files map_db_assets_root)
                       (maps (snd np)) (maps (snd np')))
         (map_db_full_index_pages (pages db)) (map_db_full_index_pages (pages db'))
    /\ map (fun np => version (snd np)) (map_db_full_index_pages (pages db'))
       = map (fun i => gmtime (clock_reads db + i)%nat)
           (seq 0 (length (map_db_full_index_pages (pages db))))
    /\ (forall q, (length (map_db_full_index_pages (pages db)) < q)%nat ->
                  pages db' !! q = pages db !! q)
    /\ versions_json db' = Some (versions_of (pages db')).
Proof.
  intros H. unfold rebuild_mapdatabase_index, index_records, map_db_full_index_pages in *.
  destruct (rebuild_from_spec (size (pages db)) 1 db H)
    as (db' & -> & Hrun & Hver & Hframe & Hdom & _).
  cbn [bind]. exists (update_mapdatabase_versions_file db'). split; [reflexivity|].
  cbn [update_mapdatabase_versions_file pages versions_json].
  assert (Hsize : size (pages db') = size (pages db)) by now rewrite <- !size_dom, Hdom.
  rewrite Hsize. split; [assumption|]. split; [assumption|]. split; [|reflexivity].
  intros q Hq. apply Hframe. lia.
Qed.

End RebuildProofs.

Lemma rebuild_refreshes_records_in_place_witness :
  exists db',
    rebuild_mapdatabase_index sample_gmtime sample_info_files "assets" sample_hashed_index
    = Ok db'
    /\ Forall2 (fun np np' =>
                  fst np' = fst np /\ same_page_frame (snd np) (snd np')
                  /\ Forall2 (refreshed sample_info_files "assets")
                       (maps (snd np)) (maps (snd np')))
         (map_db_full_index_pages (pages sample_hashed_index))
         (map_db_full_index_pages (pages db'))
    /\ map (fun np => version (snd np)) (map_db_full_index_pages (pages db'))
       = map (fun i => sample_gmtime (clock_reads sample_hashed_index + i)%nat)
           (seq 0 (length (map_db_full_index_pages (pages sample_hashed_index))))
    /\ (forall q, (length (map_db_full_index_pages (pages sample_hashed_index)) < q)%nat ->
                  pages db' !! q = pages sample_hashed_index !! q)
    /\ versions_json db' = Some (versions_of (pages db')).
Proof.
  apply (rebuild_refreshes_records_in_place sample_gmtime sample_info_files "assets"
           sample_hashed_index).
  vm_compute. reflexivity.
Defined.

(** The rebuilt sample: the second record is the content of its info file. *)
Lemma rebuild_sample_records :
  option_map index_records
    (match rebuild_mapdatabase_index sample_gmtime sample_info_files "assets"
             sample_hashed_index with Ok db' => Some db' | Raise _ => None end)
  = Some [sample_hashed_record "ab01";
          JDict [("name", JStr "Renamed"); ("download", JDict [("hash", JStr "cd02")])];
          sample_hashed_record "ef03"].
Proof. vm_compute. reflexivity. Qed.

(** ** The path of an info file *)

Lemma ends_with_slash_app s t : t <> "" -> ends_with_slash (s +:+ t) = ends_with_slash t.
Proof.
  intros Ht. induction s as [|c s IH]; [reflexivity|].
  rewrite append_cons. cbn [ends_with_slash]. rewrite IH.
  destruct (s +:+ t) eqn:E; [|reflexivity].
  destruct s; [rewrite append_nil in E; contradiction|discriminate].
Qed.

Lemma prefix_slash_free s : all_chars no_slash s = true -> String.prefix "/" s = false.
Proof.
  destruct s as [|c s]; [reflexivity|]. intros H. simpl in H. apply andb_prop in H as [Hc _].
  unfold no_slash in Hc. apply negb_true_iff in Hc. cbn [String.prefix].
  destruct (Ascii.ascii_dec "/" c) as [<-|Hne]; [discriminate|reflexivity].
Qed.

Lemma all_chars_substring p n s : all_chars p s = true -> all_chars p (substring 0 n s) = true.
Proof.
  revert s. induction n as [|n IH]; intros [|c s] H; try reflexivity.
  simpl in *. apply andb_prop in H as [Hc Hs]. now rewrite Hc, IH.
Qed.

Lemma append_cancel_l (a x y : string) : a +:+ x = a +:+ y -> x = y.
Proof.
  induction a as [|c a IH]; [now rewrite !append_nil|].
  rewrite !append_cons. intros H. injection H as H. auto.
Qed.

Lemma slash_free_split (a a' x y : string) :
  all_chars no_slash a = true -> all_chars no_slash a' = true ->
  a +:+ String "/" x = a' +:+ String "/" y -> a = a' /\ x = y.
Proof.
  revert a'. induction a as [|c a IH]; intros [|c' a'] Ha Ha' H.
  - rewrite !append_nil in H. injection H as H. auto.
  - rewrite append_nil, append_cons in H. injection H as <- _.
    simpl in Ha'. discriminate.
  - rewrite append_nil, append_cons in H. injection H as -> _.
    simpl in Ha. discriminate.
  - rewrite !append_cons in H. injection H as -> H.
    simpl in Ha, Ha'. apply andb_prop in Ha as [_ Ha]. apply andb_prop in Ha' as [_ Ha'].
    destruct (IH a' Ha Ha' H) as [-> ->]. auto.
Qed.

Lemma append_cancel_json (h h' : string) :
  all_chars no_slash h = true -> all_chars no_slash h' = true ->
  forall a a', all_chars no_slash a = true -> all_chars no_slash a' = true ->
  a +:+ String "/" (h +:+ ".json") = a' +:+ String "/" (h' +:+ ".json") ->
  String.length h = String.length h' -> h = h'.
Proof.
  intros _ _ a a' Ha Ha' H Hlen. apply slash_free_split in H as [_ H]; [|assumption..].
  clear a a' Ha Ha'. revert h' H Hlen.
  induction h as [|c h IH]; intros [|c' h'] H Hlen; try discriminate; [reflexivity|].
  rewrite !append_cons in H. injection H as -> H. simpl in Hlen. f_equal. apply IH; [assumption|lia].
Qed.

Lemma length_cancel_r (h h' t : string) : h +:+ t = h' +:+ t -> String.length h = String.length h'.
Proof.
  intros H. apply (f_equal String.length) in H. rewrite !length_append in H. lia.
Qed.

Lemma map_info_file_path_form root h :
  h <> "" -> all_chars no_slash h = true ->
  map_info_file_path root h
  = posix_join2 root "info" +:+ "/" +:+ substring 0 2 h +:+ "/" +:+ h +:+ ".json".
Proof.
  intros Hne Hfree. unfold map_info_file_path, generate_map_info_path_components, posix_join.
  cbn [fold_left].
  assert (Hd : ends_with_slash (posix_join2 root "info") = false
               /\ posix_join2 root "info" <> "").
  { unfold posix_join2. change (String.prefix "/" "info") with false. cbn iota.
    destruct (String.eqb root "" || ends_with_slash root).
    - rewrite ends_with_slash_app by discriminate. split; [reflexivity|].
      destruct root; discriminate.
    - rewrite ends_with_slash_app by discriminate. split; [reflexivity|].
      destruct root; discriminate. }
  destruct Hd as [Hd1 Hd2]. set (D := posix_join2 root "info") in *.
  assert (H2 : substring 0 2 h <> "").
  { destruct h as [|c [|c' h]]; [contradiction|discriminate..]. }
  unfold posix_join2 at 2.
  rewrite prefix_slash_free by now apply all_chars_substring.
  destruct (String.eqb_spec D ""); [contradiction|]. rewrite Hd1. cbn [orb].
  unfold posix_join2.
  assert (Hj : String.prefix "/" (h +:+ ".json") = false).
  { destruct h as [|c h]; [contradiction|]. rewrite append_cons.
    change (String c (h +:+ ".json")) with (String c h +:+ ".json") .
    apply prefix_slash_free. rewrite all_chars_app, Hfree. reflexivity. }
  rewrite Hj.
  destruct (String.eqb_spec (D +:+ "/" +:+ substring 0 2 h) "") as [He|_].
  { destruct D; [contradiction|discriminate]. }
  rewrite !ends_with_slash_app by (try discriminate; assumption).
  assert (Hs : ends_with_slash (substring 0 2 h) = false).
  { destruct h as [|c [|c' h]]; [contradiction| |]; cbn [substring];
      rewrite ?substring_0_0; cbn [ends_with_slash]; simpl in Hfree.
    - apply andb_prop in Hfree as [Hc _]. unfold no_slash in Hc.
      now apply negb_true_iff in Hc.
    - apply andb_prop in Hfree as [_ Hfree]. apply andb_prop in Hfree as [Hc _].
      unfold no_slash in Hc. now apply negb_true_iff in Hc. }
  rewrite Hs. cbn [orb].
  now rewrite !append_assoc.
Qed.

(** X27.  The info file of a hash without a slash is
    [<assets root>/info/<first two characters>/<hash>.json], two such
    hashes never share a file, and a hash that starts with a slash leaves
    the assets root: [os.path.join] drops what precedes an absolute
    component. *)
Theorem info_file_paths :
  (forall root h, h <> "" -> all_chars no_slash h = true ->
     map_info_file_path root h
     = posix_join2 root "info" +:+ "/" +:+ substring 0 2 h +:+ "/" +:+ h +:+ ".json")
  /\ (forall root h h',
        h <> "" -> all_chars no_slash h = true ->
        h' <> "" -> all_chars no_slash h' = true ->
        map_info_file_path root h = map_info_file_path root h' -> h = h')
  /\ (forall root h, map_info_file_path root (String "/" h) = String "/" h +:+ ".json")
  /\ map_info_file_path "assets" "cd02" = "assets/info/cd/cd02.json"
  /\ map_info_file_path "assets/" "c" = "assets/info/c/c.json".
Proof.
  split; [exact map_info_file_path_form|]. split; [|split; [|split; reflexivity]].
  - intros root h h' Hne Hfree Hne' Hfree' H.
    rewrite !map_info_file_path_form in H by assumption.
    apply append_cancel_l in H. change ("/" +:+ ?x) with (String "/" x) in H.
    cbn [append] in H. injection H as H.
    assert (Hlen : String.length h = String.length h').
    { pose proof (f_equal String.length H) as L. 
      apply slash_free_split in H as [_ H]; [|now apply all_chars_substring..].
      now apply length_cancel_r in H. }
    eapply (append_cancel_json h h' Hfree Hfree'); [| |exact H|exact Hlen];
      now apply all_chars_substring.
  - intros root h. unfold map_info_file_path, generate_map_info_path_components, posix_join.
    cbn [fold_left substring]. 
    unfold posix_join2 at 1. rewrite append_cons. cbn [String.prefix].
    destruct (Ascii.ascii_dec "/" "/") as [_|Hne]; [|contradiction].
    now destruct (h +:+ ".json").
Qed.

(** ** The new releases of a map repo *)

Section ReleasesProofs.
Variable strptime : string -> result Z.

Lemma with_keys_spec releases keyed :
  with_keys strptime releases = Ok keyed ->
  map snd keyed = releases
  /\ Forall (fun kx => published_at strptime (snd kx) = Ok (fst kx)) keyed.
Proof.
  revert keyed. induction releases as [|x rest IH]; intros keyed H; simpl in H.
  - apply Ok_inj in H. subst keyed. split; [reflexivity|constructor].
  - destruct (published_at strptime x) as [k|e] eqn:Hk; [|discriminate]. cbn [bind] in H.
    destruct (with_keys strptime rest) as [rest'|e]; [|discriminate]. cbn [bind] in H.
    apply Ok_inj in H. subst keyed. destruct (IH rest' eq_refl) as [Hm Hf].
    split; [simpl; now rewrite Hm|now constructor].
Qed.

Lemma with_keys_of keyed :
  Forall (fun kx => published_at strptime (snd kx) = Ok (fst kx)) keyed ->
  with_keys strptime (map snd keyed) = Ok keyed.
Proof.
  induction 1 as [|[k x] l Hx Hl IH]; [reflexivity|].
  cbn [map snd with_keys]. cbn [fst snd] in Hx. rewrite Hx. cbn [bind]. now rewrite IH.
Qed.

Lemma insert_by_key_perm kx l : Permutation (insert_by_key kx l) (kx :: l).
Proof.
  induction l as [|ky l IH]; [reflexivity|]. cbn [insert_by_key].
  destruct (fst ky <? fst kx)%Z; [|reflexivity].
  rewrite IH. apply perm_swap.
Qed.

Lemma sort_by_key_perm l : Permutation (sort_by_key l) l.
Proof.
  induction l as [|kx l IH]; [reflexivity|]. unfold sort_by_key in *. cbn [fold_right].
  rewrite insert_by_key_perm. now constructor.
Qed.

Lemma ascending_insert kx l :
  ascending (map fst l) -> ascending (map fst (insert_by_key kx l)).
Proof.
  induction l as [|ky l IH]; intros H; [simpl; auto|].
  cbn [insert_by_key]. destruct (Z.ltb_spec (fst ky) (fst kx)) as [Hlt|Hge].
  - cbn [map ascending] in *. destruct H as [Hall Hasc]. split; [|auto].
    rewrite insert_by_key_perm. cbn [map]. constructor; [lia|assumption].
  - cbn [map ascending] in *. destruct H as [Hall Hasc]. split; [|auto].
    constructor; [assumption|]. eapply Forall_impl; [exact Hall|].
    intros k Hk. cbn beta in Hk. lia.
Qed.

Lemma ascending_sort l : ascending (map fst (sort_by_key l)).
Proof.
  induction l as [|kx l IH]; [exact I|]. unfold sort_by_key in *. cbn [fold_right].
  now apply ascending_insert.
Qed.

Lemma sort_ascending l : ascending (map fst l) -> sort_by_key l = l.
Proof.
  induction l as [|kx l IH]; intros H; [reflexivity|].
  cbn [map ascending] in H. destruct H as [Hall Hasc].
  unfold sort_by_key in *. cbn [fold_right]. rewrite IH by assumption.
  destruct l as [|ky l]; [reflexivity|]. cbn [insert_by_key].
  apply Forall_cons in Hall as [Hle _]. cbn [map] in Hle.
  destruct (Z.ltb_spec (fst ky) (fst kx)); [lia|reflexivity].
Qed.

Lemma ascending_app_r a b : ascending (a ++ b) -> ascending b.
Proof. induction a as [|k a IH]; [auto|]. intros [_ H]. auto. Qed.

(** Sorting, seen from outside. *)
Lemma sorted_by_published_at_spec releases sorted :
  sorted_by_published_at strptime releases = Ok sorted ->
  exists keyed,
    sorted = map snd keyed
    /\ Forall (fun kx => published_at strptime (snd kx) = Ok (fst kx)) keyed
    /\ ascending (map fst keyed)
    /\ Permutation sorted releases.
Proof.
  unfold sorted_by_published_at. intros H.
  destruct (with_keys strptime releases) as [keyed|e] eqn:Hk; [|discriminate].
  cbn [bind] in H. apply Ok_inj in H. subst sorted.
  destruct (with_keys_spec _ _ Hk) as [Hm Hf].
  exists (sort_by_key keyed). split; [reflexivity|]. split; [|split].
  - now rewrite sort_by_key_perm.
  - apply ascending_sort.
  - rewrite <- Hm. apply Permutation_map. apply sort_by_key_perm.
Qed.

(** A list that is sorted already, or the end of one, is left as it is. *)
Lemma sorted_by_published_at_suffix keyed old new :
  Forall (fun kx => published_at strptime (snd kx) = Ok (fst kx)) keyed ->
  ascending (map fst keyed) ->
  map snd keyed = (old ++ new)%list ->
  sorted_by_published_at strptime new = Ok new.
Proof.
  intros Hf Hasc Hm.
  assert (Hsplit : exists k1 k2, keyed = (k1 ++ k2)%list /\ map snd k2 = new).
  { exists (firstn (length old) keyed), (skipn (length old) keyed).
    split; [now rewrite firstn_skipn|].
    rewrite <- skipn_map, Hm. rewrite skipn_app, Nat.sub_diag, skipn_all. reflexivity. }
  destruct Hsplit as (k1 & k2 & -> & <-).
  apply Forall_app in Hf as [_ Hf2]. rewrite map_app in Hasc. apply ascending_app_r in Hasc.
  unfold sorted_by_published_at. rewrite with_keys_of by assumption. cbn [bind].
  now rewrite sort_ascending.
Qed.

Lemma releases_after_spec since releases r :
  releases_after since releases = Ok r ->
  match r with
  | Some rest =>
      exists before item,
        releases = (before ++ item :: rest)%list
        /\ tagged since item /\ Forall (not_tagged since) before
  | None => Forall (not_tagged since) releases
  end.
Proof.
  revert r. induction releases as [|item rest IH]; intros r H; simpl in H.
  - apply Ok_inj in H. subst r. constructor.
  - destruct (Py.getitem item "tag_name") as [t|e] eqn:Ht; [|discriminate]. cbn [bind] in H.
    destruct (py_eq t since) eqn:He.
    + apply Ok_inj in H. subst r. exists [], item. split; [reflexivity|].
      split; [now exists t|constructor].
    + specialize (IH r H). destruct r as [rest'|].
      * destruct IH as (before & item' & -> & Htag & Hbefore).
        exists (item :: before), item'. split; [reflexivity|]. split; [assumption|].
        constructor; [now exists t|assumption].
      * constructor; [now exists t|assumption].
Qed.

Lemma releases_since_inv (releases : list json) (since_release_tag : json)
    (new_releases : list json) :
  releases_since strptime releases since_release_tag = Ok new_releases ->
  exists keyed,
    sorted_by_published_at strptime releases = Ok (map snd keyed)
    /\ Permutation (map snd keyed) releases
    /\ Forall (fun kx => published_at strptime (snd kx) = Ok (fst kx)) keyed
    /\ ascending (map fst keyed)
    /\ ((Py.truthy since_release_tag = true
         /\ exists before item,
              map snd keyed = (before ++ item :: new_releases)%list
              /\ tagged since_release_tag item
              /\ Forall (not_tagged since_release_tag) before)
        \/ (new_releases = map snd keyed
            /\ (Py.truthy since_release_tag = true ->
                Forall (not_tagged since_release_tag) (map snd keyed)))).
Proof.
  unfold releases_since. intros H.
  destruct (sorted_by_published_at strptime releases) as [sorted|e] eqn:Hs; [|discriminate].
  cbn [bind] in H.
  destruct (sorted_by_published_at_spec _ _ Hs) as (keyed & -> & Hf & Hasc & Hperm).
  exists keyed. split; [reflexivity|]. split; [assumption|].
  split; [assumption|]. split; [assumption|].
  destruct (Py.truthy since_release_tag) eqn:Htr.
  - destruct (releases_after since_release_tag (map snd keyed)) as [r|e] eqn:Hr;
      [|discriminate].
    cbn [bind] in H. pose proof (releases_after_spec _ _ _ Hr) as Hspec.
    destruct r as [rest|]; apply Ok_inj in H; subst new_releases.
    + left. split; [reflexivity|]. exact Hspec.
    + right. split; [reflexivity|]. intros _. exact Hspec.
  - apply Ok_inj in H. subst new_releases. right. split; [reflexivity|]. discriminate.
Qed.

(** X28.  The tail of [get_github_releases] sorts the releases by their
    publication date, oldest first, and returns what follows the first
    release with the tag [since_release_tag].  When no release has that
    tag, or when the tag is empty, it returns every release. *)
Theorem releases_since_spec (releases : list json) (since_release_tag : json)
    (new_releases : list json) :
  releases_since strptime releases since_release_tag = Ok new_releases ->
  exists sorted keys,
    sorted_by_published_at strptime releases = Ok sorted
    /\ Permutation sorted releases
    /\ Forall2 (fun x k => published_at strptime x = Ok k) sorted keys
    /\ ascending keys
    /\ ((Py.truthy since_release_tag = true
         /\ exists before item,
              sorted = (before ++ item :: new_releases)%list
              /\ tagged since_release_tag item
              /\ Forall (not_tagged since_release_tag) before)
        \/ (new_releases = sorted
            /\ (Py.truthy since_release_tag = true ->
                Forall (not_tagged since_release_tag) sorted))).
Proof.
  intros H. destruct (releases_since_inv _ _ _ H) as (keyed & Hs & Hperm & Hf & Hasc & Hcases).
  exists (map snd keyed), (map fst keyed). repeat (split; [assumption|]).
  split; [|split; assumption].
  clear -Hf. induction Hf as [|kx l Hx Hl IH]; constructor; auto.
Qed.

End ReleasesProofs.

Lemma releases_since_spec_witness :
  exists sorted keys,
    sorted_by_published_at sample_strptime sample_releases = Ok sorted
    /\ Permutation sorted sample_releases
    /\ Forall2 (fun x k => published_at sample_strptime x = Ok k) sorted keys
    /\ ascending keys
    /\ ((Py.truthy (JStr "v1") = true
         /\ exists before item,
              sorted = (before ++ item :: [sample_release "v2" "2024-02-01T00:00:00Z";
                                           sample_release "v3" "2024-03-01T00:00:00Z"])%list
              /\ tagged (JStr "v1") item
              /\ Forall (not_tagged (JStr "v1")) before)
        \/ ([sample_release "v2" "2024-02-01T00:00:00Z";
             sample_release "v3" "2024-03-01T00:00:00Z"] = sorted
            /\ (Py.truthy (JStr "v1") = true -> Forall (not_tagged (JStr "v1")) sorted))).
Proof.
  apply (releases_since_spec sample_strptime sample_releases (JStr "v1")). reflexivity.
Defined.

(** *** A second update *)

Lemma tag_names_str l names :
  tag_names l = Ok (map JStr names) ->
  names = map tag_name_of l
  /\ Forall (fun item => Py.getitem item "tag_name" = Ok (JStr (tag_name_of item))) l.
Proof.
  revert names. induction l as [|item l IH]; intros names H; simpl in H.
  - apply Ok_inj in H. destruct names; [|discriminate]. split; [reflexivity|constructor].
  - destruct (Py.getitem item "tag_name") as [t|e] eqn:Ht; [|discriminate]. cbn [bind] in H.
    destruct (tag_names l) as [rest|e]; [|discriminate]. cbn [bind] in H.
    apply Ok_inj in H. destruct names as [|s names]; [discriminate|].
    cbn [map] in H. injection H as -> ->.
    destruct (IH names eq_refl) as [-> Hf].
    assert (Hs : tag_name_of item = s) by (unfold tag_name_of; now rewrite Ht).
    split; [cbn [map]; now rewrite Hs|]. constructor; [now rewrite Hs|assumption].
Qed.

Lemma tag_names_of l :
  Forall (fun item => Py.getitem item "tag_name" = Ok (JStr (tag_name_of item))) l ->
  tag_names l = Ok (map JStr (map tag_name_of l)).
Proof.
  induction 1 as [|item l Hi Hl IH]; [reflexivity|].
  cbn [tag_names map]. rewrite Hi. cbn [bind]. now rewrite IH.
Qed.

Lemma releases_after_last before latest :
  Forall (fun item => Py.getitem item "tag_name" = Ok (JStr (tag_name_of item)))
         (before ++ [latest]) ->
  NoDup (map tag_name_of (before ++ [latest])) ->
  releases_after (JStr (tag_name_of latest)) (before ++ [latest]) = Ok (Some []).
Proof.
  induction before as [|item before IH]; intros Hf Hnd.
  - cbn [app releases_after]. apply Forall_cons in Hf as [Hl _]. rewrite Hl. cbn [bind py_eq].
    now rewrite String.eqb_refl.
  - cbn [app releases_after map] in *. apply Forall_cons in Hf as [Hi Hf].
    apply NoDup_cons in Hnd as [Hnotin Hnd]. rewrite Hi. cbn [bind py_eq].
    destruct (String.eqb_spec (tag_name_of item) (tag_name_of latest)) as [He|_].
    + exfalso. apply Hnotin. rewrite He, map_app. apply elem_of_app. right. 
      cbn [map]. constructor.
    + now apply IH.
Qed.

Section SecondUpdate.
Variable strptime : string -> result Z.

(** X29.  When the tags of the releases of a repo are distinct strings,
    none of them empty, the tags that [update_map_db] finds for the repo
    are the last ones in the order of publication, and the tag recorded
    as [last_release] is that of the latest release.  With the entry so
    updated, the same list of releases has nothing new: a second update
    publishes no release twice. *)
Theorem second_update_finds_nothing (map_repo : pydict) (releases : list json)
    (names : list string) (tags : list json) :
  tag_names releases = Ok (map JStr names) ->
  NoDup names -> Forall (fun s => s <> "") names ->
  repo_new_release_tags strptime (JDict map_repo) (Fetched releases) = Ok tags ->
  (exists sorted old,
     sorted_by_published_at strptime releases = Ok sorted
     /\ tag_names sorted = Ok (old ++ tags)%list
     /\ (tags <> [] ->
         exists latest,
           last sorted = Some latest
           /\ Py.dict_get "last_release" (update_last_release map_repo tags)
              = Some (JStr (tag_name_of latest))))
  /\ repo_new_release_tags strptime (JDict (update_last_release map_repo tags))
       (Fetched releases) = Ok [].
Proof.
  intros Hnames Hnd Hne H.
  destruct (tag_names_str _ _ Hnames) as [-> Htags].
  pose proof H as Hfirst. unfold repo_new_release_tags in H.
  cbn [Py.getitem Py.contains] in H.
  destruct (Py.dict_item map_repo "github_repo") as [g|e] eqn:Hg; [|discriminate].
  cbn [bind] in H.
  set (last_tag := if Py.dict_has "last_release" map_repo
                   then Py.dict_item map_repo "last_release" else Ok (JStr "v0")) in H.
  destruct last_tag as [since|e] eqn:Hsince; [|discriminate]. cbn [bind] in H.
  destruct (Py.as_str g) as [gs|e] eqn:Hgs; [|discriminate]. cbn [bind] in H.
  destruct (releases_since strptime releases since) as [new|e] eqn:Hnew; [|discriminate].
  cbn [bind] in H.
  destruct (releases_since_inv _ _ _ _ Hnew) as (keyed & Hs & Hperm & Hf & Hasc & Hcases).
  assert (HtagsS : Forall (fun item => Py.getitem item "tag_name"
                                       = Ok (JStr (tag_name_of item))) (map snd keyed)).
  { rewrite Hperm. exact Htags. }
  assert (HndS : NoDup (map tag_name_of (map snd keyed))).
  { assert (Hp : Permutation (map tag_name_of (map snd keyed)) (map tag_name_of releases))
      by (apply Permutation_map; exact Hperm).
    rewrite Hp. exact Hnd. }
  assert (Hold : exists old, map snd keyed = (old ++ new)%list).
  { destruct Hcases as [(_ & before & item & Heq & _)|[Heq _]].
    - exists (before ++ [item])%list. now rewrite <- app_assoc.
    - exists []. now rewrite Heq. }
  destruct Hold as [old Hold].
  destruct new as [|x l].
  - apply Ok_inj in H. subst tags. cbn [update_last_release last]. split; [|exact Hfirst].
    exists (map snd keyed), (map JStr (map tag_name_of (map snd keyed))).
    split; [assumption|]. split; [|congruence].
    rewrite app_nil_r. now apply tag_names_of.
  - rewrite (sorted_by_published_at_suffix strptime keyed old (x :: l) Hf Hasc Hold) in H.
    cbn [bind] in H.
    assert (HtagsN : Forall (fun item => Py.getitem item "tag_name"
                                         = Ok (JStr (tag_name_of item))) (x :: l)).
    { rewrite Hold in HtagsS. now apply Forall_app in HtagsS as [_ ?]. }
    rewrite (tag_names_of _ HtagsN) in H. apply Ok_inj in H.
    destruct (exists_last (l := x :: l)) as (front & latest & Hlast); [discriminate|].
    rewrite Hlast in *.
    assert (Hlt : last tags = Some (JStr (tag_name_of latest))).
    { subst tags. rewrite !map_app. cbn [map]. apply last_snoc. }
    assert (Hupd : update_last_release map_repo tags
                   = dict_set "last_release" (JStr (tag_name_of latest)) map_repo).
    { unfold update_last_release. now rewrite Hlt. }
    rewrite app_assoc in Hold.
    split.
    + exists (map snd keyed), (map JStr (map tag_name_of old)).
      split; [assumption|]. split.
      * rewrite (tag_names_of _ HtagsS), Hold. subst tags.
        rewrite <- app_assoc, !map_app. reflexivity.
      * intros _. exists latest. split; [rewrite Hold; apply last_snoc|].
        rewrite Hupd, dict_get_set. reflexivity.
    + rewrite Hupd. unfold repo_new_release_tags. cbn [Py.getitem Py.contains].
      unfold Py.dict_item, Py.dict_has. rewrite !dict_get_set. cbn [String.eqb Ascii.eqb Bool.eqb].
      unfold Py.dict_item in Hg. rewrite Hg. cbn [bind]. rewrite Hgs. cbn [bind].
      unfold releases_since. rewrite Hs. cbn [bind].
      assert (Hnonempty : tag_name_of latest <> "").
      { rewrite List.Forall_forall in Hne. apply Hne.
        apply (Permutation_in (l := map tag_name_of (map snd keyed))).
        - apply Permutation_map. exact Hperm.
        - rewrite Hold, map_app. apply in_or_app. right. simpl. auto. }
      cbn [Py.truthy]. destruct (String.eqb_spec (tag_name_of latest) "") as [|_];
        [contradiction|]. cbn [negb].
      rewrite Hold in HtagsS, HndS |- *.
      rewrite (releases_after_last _ _ HtagsS HndS). reflexivity.
Qed.

End SecondUpdate.

Lemma second_update_finds_nothing_witness :
  (exists sorted old,
     sorted_by_published_at sample_strptime sample_releases = Ok sorted
     /\ tag_names sorted = Ok (old ++ [JStr "v2"; JStr "v3"])%list
     /\ ([JStr "v2"; JStr "v3"] <> [] ->
         exists latest,
           last sorted = Some latest
           /\ Py.dict_get "last_release"
                (update_last_release
                   [("github_repo", JStr "o/maps-2p"); ("last_release", JStr "v1")]
                   [JStr "v2"; JStr "v3"])
              = Some (JStr (tag_name_of latest))))
  /\ repo_new_release_tags sample_strptime
       (JDict (update_last_release
                 [("github_repo", JStr "o/maps-2p"); ("last_release", JStr "v1")]
                 [JStr "v2"; JStr "v3"]))
       (Fetched sample_releases) = Ok [].
Proof.
  apply (second_update_finds_nothing sample_strptime
           [("github_repo", JStr "o/maps-2p"); ("last_release", JStr "v1")]
           sample_releases ["v3"; "v2"; "v1"] [JStr "v2"; JStr "v3"]).
  - reflexivity.
  - apply (bool_decide_unpack (NoDup ["v3"; "v2"; "v1"])). vm_compute. exact I.
  - repeat constructor; discriminate.
  - reflexivity.
Defined.
